(** * VideoLab server: conversion and clip pipeline

    A shallow embedding of [server.js]: the port resolution at startup, the
    format registry, and the two upload handlers [POST /api/convert] and
    [POST /api/clip] with their scratch-file discipline.

    JavaScript numbers are IEEE-754 binary64 values; they are modelled with
    the specification floats of the standard library ([spec_float] at
    precision 53 and maximal exponent 1024).  The file system is the set of
    paths present in the scratch directory.  A handler run is a function of
    the request, the clock and the behaviour of the child process and of
    the transfer of the download; it returns the file system and the trace
    of observable actions once every event that ever comes has been
    handled.  A child or a transfer may also never end. *)

From Stdlib Require Import ZArith Ascii String List Bool Lia.
From Stdlib Require Import Floats.SpecFloat.
From stdpp Require Import base decidable gmap strings list.

Local Open Scope string_scope.
Local Open Scope list_scope.
Local Open Scope Z_scope.

(** ** Characters and decimal numerals *)

Module Chars.

Definition is_digit (c : ascii) : bool :=
  let n := N_of_ascii c in ((48 <=? n) && (n <=? 57))%N.

Definition digit_val (c : ascii) : Z := Z.of_N (N_of_ascii c) - 48.

(** Value of a hexadecimal digit, if [c] is one. *)
Definition hex_val (c : ascii) : option Z :=
  let n := Z.of_N (N_of_ascii c) in
  if (48 <=? n) && (n <=? 57) then Some (n - 48)
  else if (97 <=? n) && (n <=? 102) then Some (n - 87)
  else if (65 <=? n) && (n <=? 70) then Some (n - 55)
  else None.

(** Texts are kept as the bytes of their UTF-8 encoding.  The white
    space and line terminators that fit in one byte: TAB, LF, VT, FF, CR
    and SP. *)
Definition is_space (c : ascii) : bool :=
  let n := N_of_ascii c in ((9 <=? n) && (n <=? 13) || (n =? 32))%N.

(** The no-break space U+00A0, in its two bytes [C2 A0]. *)
Definition is_space2 (a b : ascii) : bool :=
  ((N_of_ascii a =? 194) && (N_of_ascii b =? 160))%N.

(** The white space and line terminators of three bytes: U+1680
    [E1 9A 80]; U+2000 to U+200A, U+2028, U+2029 and U+202F
    [E2 80 80] to [E2 80 8A], [E2 80 A8], [E2 80 A9], [E2 80 AF]; U+205F
    [E2 81 9F]; U+3000 [E3 80 80]; and the byte order mark U+FEFF
    [EF BB BF]. *)
Definition is_space3 (a b c : ascii) : bool :=
  let x := N_of_ascii a in
  let y := N_of_ascii b in
  let z := N_of_ascii c in
  ((x =? 225) && (y =? 154) && (z =? 128)
   || (x =? 226) && (y =? 128)
      && ((128 <=? z) && (z <=? 138) || (z =? 168) || (z =? 169) || (z =? 175))
   || (x =? 226) && (y =? 129) && (z =? 159)
   || (x =? 227) && (y =? 128) && (z =? 128)
   || (x =? 239) && (y =? 187) && (z =? 191))%N.

(** What [parseFloat] and [parseInt] skip first: every leading white
    space and line terminator of JavaScript. *)
Fixpoint skip_spaces (s : list ascii) : list ascii :=
  match s with
  | a :: r =>
      if is_space a then skip_spaces r
      else
        match r with
        | b :: r2 =>
            if is_space2 a b then skip_spaces r2
            else
              match r2 with
              | c :: r3 => if is_space3 a b c then skip_spaces r3 else s
              | [] => s
              end
        | [] => s
        end
  | [] => []
  end.

(** Longest prefix of decimal digits, and the rest. *)
Fixpoint span_digits (s : list ascii) : list ascii * list ascii :=
  match s with
  | c :: r =>
      if is_digit c then let '(d, t) := span_digits r in (c :: d, t)
      else ([], s)
  | [] => ([], [])
  end.

Definition digits_val (d : list ascii) : Z :=
  fold_left (fun acc c => 10 * acc + digit_val c) d 0.

Definition digit_char (d : Z) : ascii := ascii_of_N (Z.to_N (48 + d)).

Fixpoint decimal_aux (fuel : nat) (n : Z) (acc : list ascii) : list ascii :=
  match fuel with
  | O => acc
  | S f =>
      let acc' := digit_char (n mod 10) :: acc in
      if n <? 10 then acc' else decimal_aux f (n / 10) acc'
  end.

(** Decimal digits of a non-negative integer, most significant first. *)
Definition decimal (n : Z) : list ascii :=
  decimal_aux (S (Z.to_nat (Z.log2 n))) n [].

Fixpoint starts_with (p s : list ascii) : option (list ascii) :=
  match p, s with
  | [], _ => Some s
  | a :: p', b :: s' => if Ascii.eqb a b then starts_with p' s' else None
  | _ :: _, [] => None
  end.

End Chars.

(** ** JavaScript numbers *)

Module Number.
Import Chars.

Definition number := spec_float.

Definition prec : Z := 53.
Definition emax : Z := 1024.

Definition NaN : number := S754_nan.
Definition zero : number := S754_zero false.

(** The double nearest to an integer. *)
Definition of_Z (z : Z) : number := binary_normalize prec emax z 0 false.

(** The double nearest to [m * 10^k], for [m >= 0], with the sign [neg].
    Magnitudes beyond the range of the doubles are cut off first; the
    quotient by a power of ten is rounded once, from the exact remainder. *)
Definition of_decimal (neg : bool) (m k : Z) : number :=
  if m =? 0 then S754_zero neg
  else
    let len := Z.of_nat (List.length (decimal m)) in
    if 310 <? k + len then S754_infinity neg
    else if k + len <? -330 then S754_zero neg
    else if 0 <=? k then
      binary_normalize prec emax (if neg then - (m * 10 ^ k) else m * 10 ^ k) 0 neg
    else
      let '(q, e, l) := SFdiv_core_binary prec emax m 0 (10 ^ (- k)) 0 in
      binary_round_aux prec emax neg q e l.

Definition isNaN (x : number) : bool :=
  match x with S754_nan => true | _ => false end.

(** ToBoolean on a number: NaN, +0 and -0 are falsy. *)
Definition truthy (x : number) : bool :=
  match x with
  | S754_nan | S754_zero _ => false
  | _ => true
  end.

(** [x || d] on numbers. *)
Definition or_else (x d : number) : number := if truthy x then x else d.

Definition ltb (x y : number) : bool := SFltb x y.
Definition leb (x y : number) : bool := SFleb x y.
Definition gtb (x y : number) : bool := SFltb y x.
Definition sub (x y : number) : number := SFsub prec emax x y.

(** The integer a number denotes, when it is finite and integral. *)
Definition to_integer (x : number) : option Z :=
  match x with
  | S754_zero _ => Some 0
  | S754_finite s m e =>
      let v :=
        if 0 <=? e then Some (Z.pos m * 2 ^ e)
        else if Z.pos m mod 2 ^ (- e) =? 0 then Some (Z.pos m / 2 ^ (- e))
        else None in
      option_map (fun a => if s then - a else a) v
  | _ => None
  end.

(** *** parseFloat *)

(** Optional exponent part [e[+-]digits]; without digits there is none. *)
Definition parse_exponent (s : list ascii) : Z :=
  match s with
  | c :: r =>
      if Ascii.eqb c "e"%char || Ascii.eqb c "E"%char then
        let '(neg, r') :=
          match r with
          | sg :: t =>
              if Ascii.eqb sg "-"%char then (true, t)
              else if Ascii.eqb sg "+"%char then (false, t)
              else (false, r)
          | [] => (false, r)
          end in
        let '(d, _) := span_digits r' in
        match d with
        | [] => 0
        | _ => if neg then - digits_val d else digits_val d
        end
      else 0
  | [] => 0
  end.

(** The longest prefix that is a decimal literal, after leading white
    space: a sign, then [Infinity] or digits with an optional fraction and
    exponent.  No such prefix gives NaN. *)
Definition parseFloat_chars (s : list ascii) : number :=
  let s := skip_spaces s in
  let '(neg, s) :=
    match s with
    | c :: r =>
        if Ascii.eqb c "-"%char then (true, r)
        else if Ascii.eqb c "+"%char then (false, r)
        else (false, s)
    | [] => (false, s)
    end in
  match starts_with (list_ascii_of_string "Infinity") s with
  | Some _ => S754_infinity neg
  | None =>
      let '(ip, r) := span_digits s in
      let '(fp, r) :=
        match r with
        | c :: t => if Ascii.eqb c "."%char then span_digits t else ([], r)
        | [] => ([], r)
        end in
      match (ip ++ fp)%list with
      | [] => NaN
      | ds =>
          of_decimal neg (digits_val ds)
            (parse_exponent r - Z.of_nat (List.length fp))
      end
  end.

(** [parseFloat(v)] for a body field [v]: a string, or [undefined] when the
    field is absent (its string conversion "undefined" is no literal). *)
Definition parseFloat (v : option string) : number :=
  match v with
  | Some s => parseFloat_chars (list_ascii_of_string s)
  | None => NaN
  end.

(** *** Number to string *)

(** Exact value [num / den] of the finite double [m * 2^e]. *)
Definition ratio (m : positive) (e : Z) : Z * Z :=
  if 0 <=? e then (Z.pos m * 2 ^ e, 1) else (Z.pos m, 2 ^ (- e)).

Fixpoint find_scale (fuel : nat) (num den j : Z) : Z :=
  match fuel with
  | O => j
  | S f => if den <=? num * 10 ^ j then j else find_scale f num den (j + 1)
  end.

(** The [n] with [10^(n-1) <= num/den < 10^n]. *)
Definition magnitude (num den : Z) : Z :=
  if den <=? num then Z.of_nat (List.length (decimal (num / den)))
  else 1 - find_scale 400 num den 1.

Definition same_double (x y : number) : bool :=
  match x, y with
  | S754_finite s1 m1 e1, S754_finite s2 m2 e2 =>
      Bool.eqb s1 s2 && (m1 =? m2)%positive && (e1 =? e2)
  | S754_infinity s1, S754_infinity s2 => Bool.eqb s1 s2
  | _, _ => false
  end.

(** Search for the shortest significand: at [k] digits the two decimals
    around the value are tried; the nearer one that reads back as the same
    double wins (the even one on a tie). *)
Fixpoint shortest (fuel : nat) (x : number) (num den n k : Z) : Z * Z :=
  let e10 := n - k in
  let '(p, q) :=
    if 0 <=? e10 then (num, den * 10 ^ e10) else (num * 10 ^ (- e10), den) in
  let lo := p / q in
  let hi := lo + 1 in
  let nearest :=
    match (p - lo * q) ?= (hi * q - p) with
    | Lt => lo
    | Gt => hi
    | Eq => if Z.even lo then lo else hi
    end in
  match fuel with
  | O => (nearest, e10)
  | S f =>
      let oklo := (0 <? lo) && same_double (of_decimal false lo e10) x in
      let okhi := same_double (of_decimal false hi e10) x in
      if oklo && okhi then (nearest, e10)
      else if oklo then (lo, e10)
      else if okhi then (hi, e10)
      else shortest f x num den n (k + 1)
  end.

Fixpoint strip_zeros_rev (r : list ascii) : list ascii :=
  match r with
  | c :: t => if Ascii.eqb c "0"%char then strip_zeros_rev t else r
  | [] => []
  end.

Definition strip_trailing_zeros (d : list ascii) : list ascii :=
  rev (strip_zeros_rev (rev d)).

Definition zeros (n : Z) : list ascii := repeat "0"%char (Z.to_nat n).

(** Layout of the digits [ds] of a value [0.ds * 10^n]: plain notation
    up to 21 integer digits and down to six leading zeros, exponent
    notation otherwise. *)
Definition layout (ds : list ascii) (n : Z) : list ascii :=
  let k := Z.of_nat (List.length ds) in
  (if (k <=? n) && (n <=? 21) then ds ++ zeros (n - k)
   else if (0 <? n) && (n <=? 21) then
     firstn (Z.to_nat n) ds ++ "."%char :: skipn (Z.to_nat n) ds
   else if (-6 <? n) && (n <=? 0) then
     "0"%char :: "."%char :: zeros (- n) ++ ds
   else
     let e := n - 1 in
     let ex :=
       "e"%char :: (if e <? 0 then "-"%char else "+"%char) :: decimal (Z.abs e) in
     match ds with
     | [d] => d :: ex
     | d :: rest => d :: "."%char :: rest ++ ex
     | [] => ex
     end)%list.

Definition toString_pos (m : positive) (e : Z) : list ascii :=
  let '(num, den) := ratio m e in
  let n := magnitude num den in
  let '(s, e10) := shortest 17 (S754_finite false m e) num den n 1 in
  let d := decimal s in
  layout (strip_trailing_zeros d) (e10 + Z.of_nat (List.length d)).

(** [x.toString()] *)
Definition toString (x : number) : string :=
  match x with
  | S754_nan => "NaN"
  | S754_zero _ => "0"
  | S754_infinity s => if s then "-Infinity" else "Infinity"
  | S754_finite s m e =>
      string_of_list_ascii
        ((if s then ["-"%char] else []) ++ toString_pos m e)%list
  end.

(** [1e21 <= m * 2^e] *)
Definition huge (m : positive) (e : Z) : bool :=
  let '(num, den) := ratio m e in 10 ^ 21 * den <=? num.

(** [x.toFixed(f)]: the integer nearest to [x * 10^f] (the larger of two),
    written with [f] digits after the point. *)
Definition toFixed (x : number) (f : Z) : string :=
  match x with
  | S754_finite s m e =>
      if huge m e then toString x
      else
        let '(num, den) := ratio m e in
        let n := (2 * num * 10 ^ f + den) / (2 * den) in
        let d := decimal n in
        let d := (zeros (f + 1 - Z.of_nat (List.length d)) ++ d)%list in
        let k := (List.length d - Z.to_nat f)%nat in
        string_of_list_ascii
          ((if s then ["-"%char] else []) ++ firstn k d ++
           (if f =? 0 then [] else "."%char :: skipn k d))%list
  | S754_zero _ =>
      string_of_list_ascii
        ("0"%char :: (if f =? 0 then [] else "."%char :: zeros f))
  | _ => toString x
  end.

(** *** parseInt *)

Fixpoint span_hex (s : list ascii) (acc : Z) (seen : bool) : option Z :=
  match s with
  | c :: r =>
      match hex_val c with
      | Some v => span_hex r (16 * acc + v) true
      | None => if seen then Some acc else None
      end
  | [] => if seen then Some acc else None
  end.

(** [parseInt(s)] with no radix: leading white space and a sign are
    skipped, a [0x] prefix selects base 16, otherwise the longest prefix of
    decimal digits is read; without a digit the result is NaN. *)
Definition parseInt_chars (s : list ascii) : number :=
  let s := skip_spaces s in
  let '(neg, s) :=
    match s with
    | c :: r =>
        if Ascii.eqb c "-"%char then (true, r)
        else if Ascii.eqb c "+"%char then (false, r)
        else (false, s)
    | [] => (false, s)
    end in
  let v :=
    match s with
    | z :: x :: r =>
        if Ascii.eqb z "0"%char && (Ascii.eqb x "x"%char || Ascii.eqb x "X"%char)
        then span_hex r 0 false
        else match fst (span_digits s) with [] => None | d => Some (digits_val d) end
    | _ => match fst (span_digits s) with [] => None | d => Some (digits_val d) end
    end in
  match v with
  | None => NaN
  | Some n => binary_normalize prec emax (if neg then - n else n) 0 neg
  end.

Definition parseInt (v : option string) : number :=
  match v with
  | Some s => parseInt_chars (list_ascii_of_string s)
  | None => NaN
  end.

End Number.
Import Number.

(** ** Strings and paths *)

Module Str.

(** A text of which a length is taken is kept the way JavaScript counts
    it: as the list of its UTF-16 code units. *)
Definition Text : Type := list N.

(** The code units of an ASCII text. *)
Definition units (s : string) : Text := map N_of_ascii (list_ascii_of_string s).

(** [s.slice(-n)]: the last [n] code units of [s], all of it when shorter. *)
Definition slice_last (n : nat) (s : Text) : Text :=
  skipn (List.length s - n) s.

(** [s.startsWith(p)] *)
Definition startsWith (p s : string) : bool := String.prefix p s.

(** [/^\d+$/.test(s)] *)
Definition all_digits (s : string) : bool :=
  match list_ascii_of_string s with
  | [] => false
  | l => forallb Chars.is_digit l
  end.

Fixpoint split_chars (sep : ascii) (s cur : list ascii) : list (list ascii) :=
  match s with
  | [] => [rev cur]
  | c :: r =>
      if Ascii.eqb c sep then rev cur :: split_chars sep r []
      else split_chars sep r (c :: cur)
  end.

(** [s.split(sep)] for a one-character separator. *)
Definition split (sep : ascii) (s : string) : list string :=
  map string_of_list_ascii (split_chars sep (list_ascii_of_string s) []).

(** The decimal text of a non-negative integer, as a template literal
    prints [Date.now()]. *)
Definition of_int (n : Z) : string := string_of_list_ascii (Chars.decimal n).

End Str.

Module Path.

Definition slash : ascii := "/"%char.
Definition dot : ascii := "."%char.

Fixpoint drop_slashes (s : list ascii) : list ascii :=
  match s with
  | c :: r => if Ascii.eqb c slash then drop_slashes r else s
  | [] => []
  end.

Fixpoint until_slash (s : list ascii) : list ascii :=
  match s with
  | c :: r => if Ascii.eqb c slash then [] else c :: until_slash r
  | [] => []
  end.

(** Last component of a POSIX path, trailing separators ignored. *)
Definition base (p : list ascii) : list ascii :=
  rev (until_slash (drop_slashes (rev p))).

(** What stands before the last dot of [b], scanning its reversal. *)
Fixpoint before_last_dot (r : list ascii) : option (list ascii) :=
  match r with
  | c :: t => if Ascii.eqb c dot then Some (rev t) else before_last_dot t
  | [] => None
  end.

(** [path.parse(p).name]: the last component without its extension.  A
    component with no dot, with its only dot in front, or equal to [..]
    has no extension. *)
Definition parse_name (p : string) : string :=
  let b := base (list_ascii_of_string p) in
  string_of_list_ascii
    match before_last_dot (rev b) with
    | None => b
    | Some [] => b
    | Some stem =>
        if String.eqb (string_of_list_ascii b) ".." then b else stem
    end.

(** [path.join(dir, name)] for a normalised directory and one component
    that holds no separator and is no dot segment. *)
Definition join (dir name : string) : string := dir +:+ "/" +:+ name.

End Path.

(** ** The format registry *)

Record FormatSpec := { ext : string; codec : list string }.

(** Own properties of the [FORMATS] object literal, in insertion order. *)
Definition FORMATS : list (string * FormatSpec) :=
  [ ("mp4",  {| ext := "mp4";  codec := ["-c:v"; "libx264"; "-c:a"; "aac"; "-preset"; "fast"] |});
    ("webm", {| ext := "webm"; codec := ["-c:v"; "libvpx-vp9"; "-c:a"; "libopus"; "-b:v"; "1M"] |});
    ("mkv",  {| ext := "mkv";  codec := ["-c:v"; "libx264"; "-c:a"; "aac"; "-preset"; "fast"] |});
    ("mov",  {| ext := "mov";  codec := ["-c:v"; "libx264"; "-c:a"; "aac"; "-preset"; "fast"] |});
    ("mp3",  {| ext := "mp3";  codec := ["-vn"; "-c:a"; "libmp3lame"; "-q:a"; "2"] |});
    ("wav",  {| ext := "wav";  codec := ["-vn"; "-c:a"; "pcm_s16le"] |}) ].

(** [Object.keys(FORMATS)], the answer of [GET /api/formats]. *)
Definition format_keys : list string := map fst FORMATS.

(** [FORMATS] is an object literal, so its prototype is [Object.prototype]
    and a property read falls through to the members every object
    inherits. *)
Definition Object_prototype : list string :=
  [ "constructor"; "__defineGetter__"; "__defineSetter__"; "hasOwnProperty";
    "__lookupGetter__"; "__lookupSetter__"; "isPrototypeOf";
    "propertyIsEnumerable"; "toString"; "valueOf"; "__proto__";
    "toLocaleString" ].

(** What [FORMATS[key]] evaluates to. *)
Inductive Value :=
  | Undefined
  | Entry (f : FormatSpec)
  | Inherited (name : string).

Fixpoint own_property (key : string) (o : list (string * FormatSpec)) : option FormatSpec :=
  match o with
  | (k, f) :: r => if String.eqb k key then Some f else own_property key r
  | [] => None
  end.

(** [FORMATS[key]]: own property first, then the prototype. *)
Definition FORMATS_get (key : string) : Value :=
  match own_property key FORMATS with
  | Some f => Entry f
  | None =>
      if existsb (String.eqb key) Object_prototype then Inherited key
      else Undefined
  end.

(** ToBoolean: an object or a function is truthy, [undefined] is not. *)
Definition Value_truthy (v : Value) : bool :=
  match v with Undefined => false | _ => true end.

(** [v.ext] inside a template literal: the members inherited from
    [Object.prototype] have no such property and print as [undefined]. *)
Definition ext_text (v : Value) : string :=
  match v with Entry f => ext f | _ => "undefined" end.

(** [v.codec], when it is an array that can be spread. *)
Definition codec_of (v : Value) : option (list string) :=
  match v with Entry f => Some (codec f) | _ => None end.

(** A body field as a property key: an absent field reads as
    [undefined], whose key is the text "undefined". *)
Definition key_of (field : option string) : string :=
  match field with Some s => s | None => "undefined" end.

(** ** Scratch files, responses and the trace of a request *)

(** A response body: the JSON error object, or the error page Express
    sends for an exception a handler lets escape.  The details of an error
    are a piece of the diagnostics of the child. *)
Inductive Body :=
  | Json (error : string) (details : option Str.Text)
  | ErrorPage.

(** What a request does that can be observed.  [Spawn] is
    [child_process.spawn(cmd, args)]: no shell is involved, the program
    receives the arguments as the list they are. *)
Inductive Action :=
  | Created (path : string)               (* a file appears in the scratch directory *)
  | Unlink (path : string)                (* fs.unlinkSync is called *)
  | Spawn (cmd : string) (args : list string)
  | Respond (status : Z) (body : Body)
  | Download (path name : string)         (* res.download is called *)
  | Console (text : string)
  | ConsoleError (label : string) (text : Str.Text)   (* console.error(label, text) *)
  | Uncaught.                             (* an exception escapes a callback *)

(** The scratch directory, whether the response has been started, and
    what happened so far. *)
Record World := {
  files : gset string;
  headersSent : bool;
  trace : list Action
}.

Inductive Exn := ENOENT | TypeError | HeadersAlreadySent.

Inductive Result (A : Type) :=
  | Ok (a : A)
  | Thrown (e : Exn).
Arguments Ok {A} a.
Arguments Thrown {A} e.

(** Computations over the world that may throw. *)
Definition M (A : Type) : Type := World -> Result A * World.

Definition ret {A} (a : A) : M A := fun w => (Ok a, w).

Definition bind {A B} (c : M A) (k : A -> M B) : M B :=
  fun w =>
    match c w with
    | (Ok a, w') => k a w'
    | (Thrown e, w') => (Thrown e, w')
    end.

Definition throw {A} (e : Exn) : M A := fun w => (Thrown e, w).

Notation "x <- c ;; k" := (bind c (fun x => k))
  (at level 100, c at next level, right associativity).
Notation "c ;; k" := (bind c (fun _ => k))
  (at level 100, right associativity).

(** [try { c } catch (e) {}] *)
Definition attempt (c : M unit) : M unit :=
  fun w => (Ok tt, snd (c w)).

Definition emit (a : Action) : M unit :=
  fun w => (Ok tt, {| files := files w; headersSent := headersSent w;
                      trace := trace w ++ [a] |}).

Definition set_files (f : gset string) : M unit :=
  fun w => (Ok tt, {| files := f; headersSent := headersSent w; trace := trace w |}).

Definition set_headersSent (b : bool) : M unit :=
  fun w => (Ok tt, {| files := files w; headersSent := b; trace := trace w |}).

Definition get_headersSent : M bool := fun w => (Ok (headersSent w), w).

(** [fs.existsSync(p)] *)
Definition existsSync (p : string) : M bool :=
  fun w => (Ok (bool_decide (p ∈ files w)), w).

(** [fs.unlinkSync(p)]: removes the file, throws when there is none. *)
Definition unlinkSync (p : string) : M unit :=
  emit (Unlink p) ;;
  e <- existsSync p ;;
  if e then (fun w => set_files (files w ∖ {[p]}) w) else throw ENOENT.

(** A file is written at [p] (by multer, or by the child process). *)
Definition create (p : string) : M unit :=
  emit (Created p) ;;
  fun w => set_files ({[p]} ∪ files w) w.

(** [res.status(status).json(body)]: writing a second response throws. *)
Definition respond (status : Z) (body : Body) : M unit :=
  sent <- get_headersSent ;;
  if sent then throw HeadersAlreadySent
  else emit (Respond status body) ;; set_headersSent true.

Definition console (text : string) : M unit := emit (Console text).

(** [console.error(label, text)] for a piece of the diagnostics. *)
Definition console_error (label : string) (text : Str.Text) : M unit :=
  emit (ConsoleError label text).

(** How the transfer of the download goes: it completes; or it fails
    with an error raised before or after the response headers went out; or
    it never ends, the client neither reading on nor closing the
    connection.  The server sets no timeout. *)
Inductive Delivery :=
  | Delivered
  | Failed (headers_sent : bool)
  | Stalls.

(** [res.download(path, name, cb)]: the value is the [err] that [cb]
    receives, and [None] when [cb] is never called.  A missing file fails
    before anything is sent. *)
Definition download (path name : string) (d : Delivery) : M (option bool) :=
  emit (Download path name) ;;
  e <- existsSync path ;;
  if e then
    match d with
    | Delivered => set_headersSent true ;; ret (Some false)
    | Failed hs => set_headersSent hs ;; ret (Some true)
    | Stalls => set_headersSent true ;; ret None
    end
  else ret (Some true).

(** ** The child process *)

(** What the spawned process does.  Either it cannot be started: the
    [error] event is emitted, and a [close] event may follow it, carrying
    the negated error number as its code.  Or it runs, writes to its
    standard error in chunks (each is given as the text that
    [data.toString()] makes of it), may leave an output file, and ends with
    an exit code ([None] when a signal killed it): the [close] event.  Or it
    runs and never ends: it may write as the others do, but neither event
    is ever emitted.  The handlers set no timer and never kill the child. *)
Inductive Child :=
  | SpawnFails (close_follows : option positive)
  | Runs (chunks : list Str.Text) (output_written : bool) (code : option Z)
  | Hangs (chunks : list Str.Text) (output_written : bool).

Record Env := { child : Child; delivery : Delivery }.

(** The child emits [close] or [error] at some time. *)
Definition ends (c : Child) : bool :=
  match c with
  | Hangs _ _ => false
  | _ => true
  end.

(** [stderr += data.toString()] *)
Definition on_data (stderr data : Str.Text) : Str.Text := stderr ++ data.

(** The buffer after the given chunks have arrived. *)
Definition stderr_after (chunks : list Str.Text) : Str.Text :=
  fold_left on_data chunks [].

(** The two handlers register the same three callbacks and differ in
    their messages only. *)
Record Labels := {
  log_label : string;
  failed_msg : string;
  start_failed_msg : string
}.

Definition convert_labels : Labels :=
  {| log_label := "FFmpeg error:";
     failed_msg := "Conversion failed";
     start_failed_msg := "Failed to start conversion" |}.

Definition clip_labels : Labels :=
  {| log_label := "FFmpeg clip error:";
     failed_msg := "Clip creation failed";
     start_failed_msg := "Failed to start clip creation" |}.

(** What the callbacks of a spawned child close over. *)
Record Job := {
  labels : Labels;
  inputPath : string;
  outputPath : string;
  outputName : string
}.

(** [code !== 0] *)
Definition nonzero (code : option Z) : bool :=
  match code with Some 0 => false | _ => true end.

(** [if (fs.existsSync(p)) fs.unlinkSync(p)] *)
Definition unlink_if_exists (p : string) : M unit :=
  e <- existsSync p ;; if e then unlinkSync p else ret tt.

(** The [close] callback. *)
Definition on_close (j : Job) (stderr : Str.Text) (code : option Z) (d : Delivery) : M unit :=
  attempt (unlinkSync (inputPath j)) ;;
  if nonzero code then
    console_error (log_label (labels j)) (Str.slice_last 500 stderr) ;;
    attempt (unlink_if_exists (outputPath j)) ;;
    respond 500 (Json (failed_msg (labels j)) (Some (Str.slice_last 300 stderr)))
  else
    called <- download (outputPath j) (outputName j) d ;;
    match called with
    | Some err =>
        attempt (unlink_if_exists (outputPath j)) ;;
        sent <- get_headersSent ;;
        if err && negb sent then respond 500 (Json "Download failed" None)
        else ret tt
    | None => ret tt
    end.

(** The [error] callback; the error object it logs is left out. *)
Definition on_error (j : Job) : M unit :=
  console "FFmpeg spawn error:" ;;
  attempt (unlinkSync (inputPath j)) ;;
  sent <- get_headersSent ;;
  if negb sent then respond 500 (Json (start_failed_msg (labels j)) None)
  else ret tt.

(** The events of the child process, delivered to the callbacks.  For a
    child that never ends no callback but the one of [data] is ever
    called, and for a transfer that never ends the callback of the
    download is not: what is left is the world in which the request
    stays. *)
Definition callbacks (j : Job) (env : Env) : M unit :=
  match child env with
  | SpawnFails close_follows =>
      on_error j ;;
      match close_follows with
      | Some errno => on_close j [] (Some (Z.neg errno)) (delivery env)
      | None => ret tt
      end
  | Runs chunks written code =>
      (if written then create (outputPath j) else ret tt) ;;
      on_close j (stderr_after chunks) code (delivery env)
  | Hangs chunks written =>
      if written then create (outputPath j) else ret tt
  end.

(** ** The server and its requests *)

(** What the process fixes at startup: the scratch directory and the
    cached result of the [ffmpeg -version] probe. *)
Record Server := {
  TEMP_DIR : string;
  ffmpegAvailable : bool
}.

(** A multipart request: the name of the uploaded [video] part when there
    is one, and the text fields of the body. *)
Record Request := {
  video : option string;
  format : option string;
  startTime : option string;
  endTime : option string
}.

(** [req.file] as multer fills it in. *)
Record File := {
  path : string;
  originalname : string
}.

(** The path multer gives an upload: [upload_<now>_<originalname>] in the
    scratch directory. *)
Definition upload_path (srv : Server) (now : Z) (name : string) : string :=
  Path.join (TEMP_DIR srv) ("upload_" +:+ Str.of_int now +:+ "_" +:+ name).

(** [upload.single('video')] with the disk storage of the server. *)
Definition upload_single (srv : Server) (now : Z) (req : Request) : M (option File) :=
  match video req with
  | Some name =>
      create (upload_path srv now name) ;;
      ret (Some {| path := upload_path srv now name; originalname := name |})
  | None => ret None
  end.

(** Spreading [v.codec] into an array literal; [undefined] is not
    iterable. *)
Definition spread (v : Value) : M (list string) :=
  match codec_of v with
  | Some c => ret c
  | None => throw TypeError
  end.

(** The download name and the scratch path of a conversion's output. *)
Definition convert_outputName (f : File) (v : Value) : string :=
  "videoLab_" +:+ Path.parse_name (originalname f) +:+ "." +:+ ext_text v.

Definition convert_outputPath (srv : Server) (now : Z) (f : File) (v : Value) : string :=
  Path.join (TEMP_DIR srv) ("out_" +:+ Str.of_int now +:+ "_" +:+ convert_outputName f v).

Definition convert_args (inputPath : string) (codec : list string)
    (outputPath : string) : list string :=
  ["-i"; inputPath; "-y"] ++ codec ++ [outputPath].

Definition convert_job (srv : Server) (now : Z) (f : File) (v : Value) : Job :=
  {| labels := convert_labels;
     inputPath := path f;
     outputPath := convert_outputPath srv now f v;
     outputName := convert_outputName f v |}.

(** The handler of [POST /api/convert], up to the return after [spawn]. *)
Definition convert_handler (srv : Server) (now : Z) (file : option File)
    (req : Request) : M (option Job) :=
  if negb (ffmpegAvailable srv) then
    match file with Some f => unlinkSync (path f) | None => ret tt end ;;
    respond 500 (Json "FFmpeg is not installed on the server" None) ;;
    ret None
  else
    match file with
    | None =>
        respond 400 (Json "No video file provided" None) ;;
        ret None
    | Some f =>
        let targetFormat := key_of (format req) in
        if negb (Value_truthy (FORMATS_get targetFormat)) then
          unlinkSync (path f) ;;
          respond 400 (Json "Invalid format" None) ;;
          ret None
        else
          let job := convert_job srv now f (FORMATS_get targetFormat) in
          codec <- spread (FORMATS_get targetFormat) ;;
          let args := convert_args (inputPath job) codec (outputPath job) in
          console ("Converting: " +:+ originalname f +:+ " -> " +:+ outputName job) ;;
          emit (Spawn "ffmpeg" args) ;;
          ret (Some job)
    end.

(** [req.body.format || 'mp4']: an absent or empty field is falsy. *)
Definition clip_format (req : Request) : string :=
  match format req with
  | Some "" | None => "mp4"
  | Some s => s
  end.

(** [parseFloat(req.body.startTime) || 0] *)
Definition clip_start (req : Request) : number :=
  or_else (parseFloat (startTime req)) zero.

(** [parseFloat(req.body.endTime)] *)
Definition clip_end (req : Request) : number := parseFloat (endTime req).

(** [isNaN(endTime) || endTime <= startTime] *)
Definition invalid_range (startTime endTime : number) : bool :=
  isNaN endTime || leb endTime startTime.

Definition clip_args (startTime duration : number) (inputPath : string)
    (codec : list string) (outputPath : string) : list string :=
  ["-ss"; toString startTime; "-i"; inputPath; "-t"; toString duration; "-y"]
    ++ codec ++ ["-avoid_negative_ts"; "make_zero"; outputPath].

(** The download name and the scratch path of a clip. *)
Definition clip_outputName (f : File) (startTime endTime : number) (v : Value) : string :=
  "clip_" +:+ Path.parse_name (originalname f) +:+ "_" +:+ toFixed startTime 1
    +:+ "s-" +:+ toFixed endTime 1 +:+ "s." +:+ ext_text v.

Definition clip_outputPath (srv : Server) (now : Z) (f : File)
    (startTime endTime : number) (v : Value) : string :=
  Path.join (TEMP_DIR srv)
    ("clip_" +:+ Str.of_int now +:+ "_" +:+ clip_outputName f startTime endTime v).

Definition clip_job (srv : Server) (now : Z) (f : File)
    (startTime endTime : number) (v : Value) : Job :=
  {| labels := clip_labels;
     inputPath := path f;
     outputPath := clip_outputPath srv now f startTime endTime v;
     outputName := clip_outputName f startTime endTime v |}.

(** The handler of [POST /api/clip], up to the return after [spawn]. *)
Definition clip_handler (srv : Server) (now : Z) (file : option File)
    (req : Request) : M (option Job) :=
  if negb (ffmpegAvailable srv) then
    match file with Some f => unlinkSync (path f) | None => ret tt end ;;
    respond 500 (Json "FFmpeg is not installed on the server" None) ;;
    ret None
  else
    match file with
    | None =>
        respond 400 (Json "No video file provided" None) ;;
        ret None
    | Some f =>
        let targetFormat := clip_format req in
        let startTime := clip_start req in
        let endTime := clip_end req in
        if negb (Value_truthy (FORMATS_get targetFormat)) then
          unlinkSync (path f) ;;
          respond 400 (Json "Invalid format" None) ;;
          ret None
        else if invalid_range startTime endTime then
          unlinkSync (path f) ;;
          respond 400 (Json "Invalid time range" None) ;;
          ret None
        else
          let job := clip_job srv now f startTime endTime (FORMATS_get targetFormat) in
          let duration := sub endTime startTime in
          codec <- spread (FORMATS_get targetFormat) ;;
          let args := clip_args startTime duration (inputPath job) codec (outputPath job) in
          console ("Clipping: " +:+ originalname f +:+ " [" +:+ toString startTime
                     +:+ "s - " +:+ toString endTime +:+ "s] -> " +:+ outputName job) ;;
          emit (Spawn "ffmpeg" args) ;;
          ret (Some job)
    end.

(** Express around a route: an exception the handler throws is answered
    by the default error handler with status 500, unless a response was
    already started.  The callbacks of a spawned child run later, outside
    the reach of that handler. *)
Definition route (h : M (option Job)) (env : Env) : M unit :=
  fun w =>
    match h w with
    | (Ok None, w') => (Ok tt, w')
    | (Ok (Some j), w') =>
        match callbacks j env w' with
        | (Ok _, w'') => (Ok tt, w'')
        | (Thrown _, w'') => emit Uncaught w''
        end
    | (Thrown _, w') =>
        if headersSent w' then (Ok tt, w')
        else (emit (Respond 500 ErrorPage) ;; set_headersSent true) w'
    end.

(** The clock readings of one request: when multer names the upload and
    when the handler names the output. *)
Record Clock := { upload_time : Z; handler_time : Z }.

(** The world at the arrival of a request. *)
Definition fresh (scratch : gset string) : World :=
  {| files := scratch; headersSent := false; trace := [] |}.

(** [app.post('/api/convert', upload.single('video'), handler)] on a
    scratch directory holding [scratch]. *)
Definition post_convert (srv : Server) (clk : Clock) (req : Request) (env : Env)
    (scratch : gset string) : World :=
  snd ((file <- upload_single srv (upload_time clk) req ;;
        route (convert_handler srv (handler_time clk) file req) env)
       (fresh scratch)).

(** [app.post('/api/clip', upload.single('video'), handler)] *)
Definition post_clip (srv : Server) (clk : Clock) (req : Request) (env : Env)
    (scratch : gset string) : World :=
  snd ((file <- upload_single srv (upload_time clk) req ;;
        route (clip_handler srv (handler_time clk) file req) env)
       (fresh scratch)).

(** ** Startup: the port *)

(** The loop of [getPort] over [process.argv.slice(2)]: a bare number, then
    [--port=N], then [-p N] or [--port N]; [None] when no argument gives a
    port. *)
Fixpoint getPort_args (args : list string) : option number :=
  match args with
  | [] => None
  | arg :: rest =>
      if Str.all_digits arg then Some (parseInt (Some arg))
      else if Str.startsWith "--port=" arg then
        Some (parseInt (nth_error (Str.split "="%char arg) 1))
      else if String.eqb arg "-p" || String.eqb arg "--port" then
        match rest with
        | nextArg :: _ =>
            if Str.all_digits nextArg then Some (parseInt (Some nextArg))
            else getPort_args rest
        | [] => getPort_args rest
        end
      else getPort_args rest
  end.

(** [getPort()]: the first argument after the script name that gives a
    port, else [parseInt(process.env.PORT) || 3000]. *)
Definition getPort (argv : list string) (env_PORT : option string) : number :=
  match getPort_args (skipn 2 argv) with
  | Some p => p
  | None => or_else (parseInt env_PORT) (of_Z 3000)
  end.

(** [process.argv.includes('--help') || process.argv.includes('-h')] *)
Definition help_requested (argv : list string) : bool :=
  existsb (String.eqb "--help") argv || existsb (String.eqb "-h") argv.

(** [PORT < 1 || PORT > 65535] *)
Definition out_of_range (port : number) : bool :=
  ltb port (of_Z 1) || gtb port (of_Z 65535).

(** How the script ends its top level: the process exits with a status,
    or the server asks for a listening socket on a port. *)
Inductive Startup :=
  | Exited (status : Z)
  | Listening (port : number).

(** The port check of [server.listen]: a number is accepted when it is an
    integer from 0 to 65535; anything else raises a [RangeError]. *)
Definition legal_port (port : number) : bool :=
  match to_integer port with
  | Some z => (0 <=? z) && (z <=? 65535)
  | None => false
  end.

(** [app.listen(PORT, ...)] at the top level of the script: the
    [RangeError] of an illegal port is not caught and ends the process
    with status 1. *)
Definition listen (port : number) : Startup :=
  if legal_port port then Listening port else Exited 1.

(** The script from its first line to [app.listen]: the help check, the
    port and its range check, then (after the set-up of the scratch
    directory, the probe and the routes, which do not touch the port) the
    call of [listen]. *)
Definition startup (argv : list string) (env_PORT : option string) : Startup :=
  if help_requested argv then Exited 0
  else
    let PORT := getPort argv env_PORT in
    if out_of_range PORT then Exited 1
    else listen PORT.

(** ** Vocabulary of the statements *)

(** [req.file] of a request that uploads [name]. *)
Definition uploaded (srv : Server) (clk : Clock) (name : string) : File :=
  {| path := upload_path srv (upload_time clk) name; originalname := name |}.

(** The download fails before any header is sent: the file is missing,
    or the transfer reports an early error. *)
Definition fails_early (present : bool) (d : Delivery) : bool :=
  negb present || match d with Failed false => true | _ => false end.

(** The callback of the download is called at some time. *)
Definition completes (d : Delivery) : bool :=
  match d with Stalls => false | _ => true end.

(** The transfer of a file that is there never ends. *)
Definition stalls (present : bool) (d : Delivery) : bool :=
  present && negb (completes d).

(** The scratch directory once the child has written (or not) its output. *)
Definition files_at_close (j : Job) (env : Env) (f : gset string) : gset string :=
  match child env with
  | Runs _ true _ | Hangs _ true => {[outputPath j]} ∪ f
  | _ => f
  end.

(** The scratch directory when the callbacks are done, from the one [f]
    at the spawn. *)
Definition callbacks_files (j : Job) (env : Env) (f : gset string) : gset string :=
  match child env with
  | SpawnFails None => f ∖ {[inputPath j]}
  | Hangs _ _ => files_at_close j env f
  | Runs _ _ code =>
      let present :=
        bool_decide (outputPath j ∈ files_at_close j env f ∖ {[inputPath j]}) in
      if negb (nonzero code) && stalls present (delivery env)
      then files_at_close j env f ∖ {[inputPath j]}
      else files_at_close j env f ∖ {[inputPath j]} ∖ {[outputPath j]}
  | _ => files_at_close j env f ∖ {[inputPath j]} ∖ {[outputPath j]}
  end.

(** The actions of the callbacks, in order.  A [close] after the [error] of
    a failed spawn finds the response already sent: its own response throws
    and nothing catches the exception.  A child that never ends has no
    callback called, and a download that never ends is not followed by
    anything. *)
Definition callbacks_actions (j : Job) (env : Env) (f : gset string) : list Action :=
  match child env with
  | SpawnFails close_follows =>
      [Console "FFmpeg spawn error:"; Unlink (inputPath j);
       Respond 500 (Json (start_failed_msg (labels j)) None)] ++
      match close_follows with
      | Some _ =>
          [Unlink (inputPath j); ConsoleError (log_label (labels j)) []] ++
          (if bool_decide (outputPath j ∈ f ∖ {[inputPath j]})
           then [Unlink (outputPath j)] else []) ++
          [Uncaught]
      | None => []
      end
  | Runs chunks written code =>
      let present :=
        bool_decide (outputPath j ∈ files_at_close j env f ∖ {[inputPath j]}) in
      let removal := if present then [Unlink (outputPath j)] else [] in
      (if written then [Created (outputPath j)] else []) ++
      (if nonzero code then
         [Unlink (inputPath j);
          ConsoleError (log_label (labels j))
            (Str.slice_last 500 (stderr_after chunks))] ++
         removal ++
         [Respond 500 (Json (failed_msg (labels j))
                         (Some (Str.slice_last 300 (stderr_after chunks))))]
       else
         [Unlink (inputPath j); Download (outputPath j) (outputName j)] ++
         (if stalls present (delivery env) then []
          else
            removal ++
            (if fails_early present (delivery env)
             then [Respond 500 (Json "Download failed" None)] else [])))
  | Hangs _ written => if written then [Created (outputPath j)] else []
  end.

(** What both routes answer when the upload is refused with [status]
    and [msg] after its file was removed. *)
Definition refused (srv : Server) (clk : Clock) (scratch : gset string)
    (name : string) (status : Z) (msg : string) : World :=
  let p := upload_path srv (upload_time clk) name in
  {| files := ({[p]} ∪ scratch) ∖ {[p]};
     headersSent := true;
     trace := [Created p; Unlink p; Respond status (Json msg None)] |}.

Definition answered (scratch : gset string) (status : Z) (msg : string) : World :=
  {| files := scratch; headersSent := true;
     trace := [Respond status (Json msg None)] |}.

(** A request ends in a rejection: the trace is the upload and its
    removal, when a file came with the request, then the JSON error; the
    upload is gone from the scratch directory and nothing was spawned. *)
Definition rejects (w : World) (upload : option string) (status : Z)
    (msg : string) : Prop :=
  trace w =
    match upload with Some p => [Created p; Unlink p] | None => [] end
      ++ [Respond status (Json msg None)]
  /\ (forall p, upload = Some p -> p ∉ files w)
  /\ (forall cmd args, Spawn cmd args ∉ trace w).

(** The predicate a reader of the registry documentation expects of an
    audio-only entry: [-vn], a codec selection, then a quality setting. *)
Definition audio_with_quality (args : list string) : Prop :=
  exists c quality, args = ["-vn"; "-c:a"; c] ++ quality /\ quality <> [].

(** A chunk of [n] characters, each an [x]. *)
Definition filler (n : nat) : Str.Text := repeat 120%N n.

(** The number of code units written in all the chunks. *)
Definition total_length (chunks : list Str.Text) : nat :=
  fold_right (fun c n => (List.length c + n)%nat) O chunks.

(** A server with the tool installed, two clock readings and a request
    for a clip, for the examples. *)
Definition sample_server : Server :=
  {| TEMP_DIR := "/tmp/videolab"; ffmpegAvailable := true |}.

Definition sample_clock : Clock :=
  {| upload_time := 1700000000000; handler_time := 1700000000005 |}.

(** A child that converts without complaint, and a complete download. *)
Definition sample_env : Env :=
  {| child := Runs [Str.units "frame=1"; Str.units "frame=2"] true (Some 0);
     delivery := Delivered |}.

Definition sample_clip (start stop : option string) : Request :=
  {| video := Some "movie.avi"; format := None; startTime := start; endTime := stop |}.

(** The ports the server means to accept: the integers from 1 to 65535. *)
Definition valid_port (port : number) : bool :=
  match to_integer port with
  | Some z => (1 <=? z) && (z <=? 65535)
  | None => false
  end.

(** The start field of a clip request is missing, is no number, or is
    zero. *)
Definition start_unusable (req : Request) : Prop :=
  startTime req = None
  \/ isNaN (parseFloat (startTime req)) = true
  \/ SFeqb (parseFloat (startTime req)) zero = true.

(** Every file a request creates is unlinked and gone at the end. *)
Definition cleans_up (w : World) : Prop :=
  forall p, Created p ∈ trace w -> (Unlink p ∈ trace w) /\ (p ∉ files w).

(** ** Vocabulary of the further properties *)

(** [Respond] actions of a trace. *)
Definition is_respond (a : Action) : bool :=
  match a with Respond _ _ => true | _ => false end.

(** The request was answered: an error was sent or a download was started. *)
Definition is_answer (a : Action) : bool :=
  match a with Respond _ _ | Download _ _ => true | _ => false end.

(** The answer of a request: it never holds two responses; there is no
    answer at all exactly when the request spawned a child that never
    ends; and the response is started exactly when there is an answer. *)
Definition answers_once (env : Env) (w : World) : Prop :=
  (List.length (List.filter is_respond (trace w)) <= 1)%nat
  /\ (existsb is_answer (trace w) = false <->
        ends (child env) = false /\ exists cmd args, Spawn cmd args ∈ trace w)
  /\ headersSent w = existsb is_answer (trace w).

(** What a request may leave of the scratch directory [scratch] it found:
    it adds nothing but the files [left], which it does leave, and it
    removes nothing but its own two paths. *)
Definition frames (scratch after : gset string) (left own : list string) : Prop :=
  (forall q, q ∈ after -> q ∈ scratch \/ In q left)
  /\ (forall q, q ∈ scratch -> q ∈ after \/ In q own)
  /\ (forall q, In q left -> q ∈ after).

(** What the callbacks of a job leave behind: nothing when every event
    comes; for a child that never ends, the upload, and the output when
    the child wrote it; for a download that never ends, the output the
    child wrote. *)
Definition left_by_callbacks (env : Env) (j : Job) : list string :=
  match child env with
  | Hangs _ written => inputPath j :: (if written then [outputPath j] else [])
  | Runs _ true (Some 0) => if completes (delivery env) then [] else [outputPath j]
  | _ => []
  end.

(** The files a request leaves behind: the upload of a request whose
    format is a name the registry inherits, that got as far as the spawn;
    and what the callbacks of a spawned child leave. *)
Definition left_by_convert (srv : Server) (clk : Clock) (req : Request)
    (env : Env) : list string :=
  match ffmpegAvailable srv, video req, FORMATS_get (key_of (format req)) with
  | true, Some name, Inherited _ => [upload_path srv (upload_time clk) name]
  | true, Some name, Entry sp =>
      left_by_callbacks env
        (convert_job srv (handler_time clk) (uploaded srv clk name) (Entry sp))
  | _, _, _ => []
  end.

Definition left_by_clip (srv : Server) (clk : Clock) (req : Request)
    (env : Env) : list string :=
  match ffmpegAvailable srv, video req, FORMATS_get (clip_format req) with
  | true, Some name, Inherited _ =>
      if invalid_range (clip_start req) (clip_end req) then []
      else [upload_path srv (upload_time clk) name]
  | true, Some name, Entry sp =>
      if invalid_range (clip_start req) (clip_end req) then []
      else
        left_by_callbacks env
          (clip_job srv (handler_time clk) (uploaded srv clk name)
             (clip_start req) (clip_end req) (Entry sp))
  | _, _, _ => []
  end.

(** The two paths a request owns in the scratch directory. *)
Definition own_paths_convert (srv : Server) (clk : Clock) (req : Request) : list string :=
  match video req with
  | Some name =>
      [upload_path srv (upload_time clk) name;
       convert_outputPath srv (handler_time clk) (uploaded srv clk name)
         (FORMATS_get (key_of (format req)))]
  | None => []
  end.

Definition own_paths_clip (srv : Server) (clk : Clock) (req : Request) : list string :=
  match video req with
  | Some name =>
      [upload_path srv (upload_time clk) name;
       clip_outputPath srv (handler_time clk) (uploaded srv clk name)
         (clip_start req) (clip_end req) (FORMATS_get (clip_format req))]
  | None => []
  end.

(** The value of the digits [l] read after a number [init]. *)
Definition val_from (init : Z) (l : list ascii) : Z :=
  fold_left (fun acc c => 10 * acc + Chars.digit_val c) l init.

(** What the range check and [listen] make of the double of [n]. *)
Definition port_accepted (n : Z) : bool :=
  negb (out_of_range (of_Z n)) && legal_port (of_Z n) && Number.truthy (of_Z n).

(** The ways of giving the port [n] on the command line. *)
Definition port_arguments (n : Z) : list (list string) :=
  [ [Str.of_int n];
    ["--port=" +:+ Str.of_int n];
    ["-p"; Str.of_int n];
    ["--port"; Str.of_int n] ].

(** The request [req] with its format field set to [f]. *)
Definition with_format (req : Request) (f : option string) : Request :=
  {| video := video req; format := f;
     startTime := startTime req; endTime := endTime req |}.

(** No path separator among the characters. *)
Definition no_separator (l : list ascii) : Prop :=
  Forall (fun c => c <> Path.slash) l.

(** ** The browser client

    The scripts of the client are embedded as far as they compute: the
    names of downloads, the playlist of the player, the numbers of its
    controls, the time range of the clip tab and the times of subtitles.
    What they do to the page is left out. *)

Module Client.

(** [[^.]+$] at the start of [r]: one or more characters, none a dot, up
    to the end. *)
Definition no_dot_to_end (r : list ascii) : bool :=
  match r with
  | [] => false
  | _ => forallb (fun c => negb (Ascii.eqb c Path.dot)) r
  end.

(** [s.replace(/\.[^.]+$/, '')]: the leftmost match is removed, and it
    reaches the end of the text. *)
Fixpoint strip_extension (s : list ascii) : list ascii :=
  match s with
  | [] => []
  | c :: r =>
      if Ascii.eqb c Path.dot && no_dot_to_end r then []
      else c :: strip_extension r
  end.

(** The name the converter tab saves the response under:
    [videoLab_${name.replace(/\.[^.]+$/, '')}.${format}]. *)
Definition convert_download_name (name format : string) : string :=
  "videoLab_" +:+ string_of_list_ascii (strip_extension (list_ascii_of_string name))
    +:+ "." +:+ format.

End Client.

(** No dot among the characters. *)
Definition no_dot (l : list ascii) : Prop := Forall (fun c => c <> Path.dot) l.

(** ** The player of the browser client *)
Module Player.

(** Lower case of one character.  Only the letters [A-Z] are changed:
    that is [toLowerCase] on ASCII text, and it is the case folding of a
    regular expression with the flag [i] (and without the flag [u])
    against a pattern of ASCII letters.  Outside ASCII [toLowerCase]
    changes more, but the only character there whose lower case is an
    ASCII letter is the Kelvin sign, a [k], and no extension listed below
    holds a [k]: what the lists decide is not affected. *)
Definition lower_char (c : ascii) : ascii :=
  let n := N_of_ascii c in
  if ((65 <=? n) && (n <=? 90))%N then ascii_of_N (n + 32) else c.

Definition toLowerCase (s : string) : string :=
  string_of_list_ascii (map lower_char (list_ascii_of_string s)).

(** [filename.split('.').pop().toLowerCase()] *)
Definition getExtension (filename : string) : string :=
  toLowerCase (List.last (Str.split "." filename) "").

(** [list.includes(x)] *)
Definition includes (l : list string) (x : string) : bool :=
  existsb (String.eqb x) l.

Definition nativeFormats : list string := ["mp4"; "webm"; "ogg"; "mp3"; "wav"; "m4a"].

Definition isNativeFormat (filename : string) : bool :=
  includes nativeFormats (getExtension filename).

Definition audioFormats : list string := ["mp3"; "wav"; "m4a"; "ogg"; "flac"; "aac"].

Definition isAudioFile (filename : string) : bool :=
  includes audioFormats (getExtension filename).

(** The lower-case pattern [p] matches at the start of [s], letter case
    ignored. *)
Fixpoint prefix_fold (p s : list ascii) : bool :=
  match p, s with
  | [], _ => true
  | a :: p', b :: s' => Ascii.eqb a (lower_char b) && prefix_fold p' s'
  | _ :: _, [] => false
  end.

Definition media_extensions : list string :=
  ["mp4"; "webm"; "ogg"; "mkv"; "mov"; "wmv"; "flv"; "m4v"; "mp3"; "wav";
   "flac"; "m4a"; "aac"].

(** [/\.(mp4|webm|...)$/i.test(name)]: the name ends with a dot and one
    of the extensions.  The end of the name is compared backwards. *)
Definition has_media_extension (name : string) : bool :=
  existsb
    (fun e => prefix_fold (rev (list_ascii_of_string ("." +:+ e)))
                (rev (list_ascii_of_string name)))
    media_extensions.

(** A [File] of the browser, as far as the player reads it. *)
Record MediaFile := {
  name : string;
  size : Z;
  type : string
}.

(** An entry of [localFiles].  Object URLs are numbered in the order
    [URL.createObjectURL] hands them out; the formatted size is left out. *)
Record Entry := {
  file : MediaFile;
  url : nat;
  isAudio : bool;
  isNative : bool;
  convertedUrl : option nat
}.

(** The state the playlist functions read and write: the list, the
    index of the current entry ([-1] for none), the source of the video
    element ([None] for the empty source), the number of object URLs made
    so far and the URLs revoked so far. *)
Record State := {
  localFiles : list Entry;
  currentIndex : Z;
  src : option nat;
  next_url : nat;
  revoked : list nat
}.

Definition initial : State :=
  {| localFiles := []; currentIndex := -1; src := None; next_url := 0; revoked := [] |}.

(** [file.convertedUrl || file.url] *)
Definition playable (f : Entry) : nat :=
  match convertedUrl f with Some u => u | None => url f end.

Definition out_of_bounds (index : Z) (s : State) : bool :=
  (index <? 0) || (Z.of_nat (List.length (localFiles s)) <=? index).

Definition playFile (index : Z) (s : State) : State :=
  if out_of_bounds index s then s
  else
    match localFiles s !! Z.to_nat index with
    | Some f =>
        {| localFiles := localFiles s; currentIndex := index;
           src := Some (playable f);
           next_url := next_url s; revoked := revoked s |}
    | None => s
    end.

Definition removeFile (index : Z) (s : State) : State :=
  if out_of_bounds index s then s
  else
    match localFiles s !! Z.to_nat index with
    | Some f =>
        let revoked' :=
          revoked s ++ url f ::
            match convertedUrl f with Some u => [u] | None => [] end in
        let files' := delete (Z.to_nat index) (localFiles s) in
        if currentIndex s =? index then
          {| localFiles := files'; currentIndex := -1; src := None;
             next_url := next_url s; revoked := revoked' |}
        else if index <? currentIndex s then
          {| localFiles := files'; currentIndex := currentIndex s - 1; src := src s;
             next_url := next_url s; revoked := revoked' |}
        else
          {| localFiles := files'; currentIndex := currentIndex s; src := src s;
             next_url := next_url s; revoked := revoked' |}
    | None => s
    end.

(** The filter of [handleFiles]. *)
Definition is_media (f : MediaFile) : bool :=
  Str.startsWith "video/" (type f) || Str.startsWith "audio/" (type f)
  || has_media_extension (name f).

(** [localFiles.some(lf => lf.name === file.name && lf.size === file.size)] *)
Definition known (l : list Entry) (f : MediaFile) : bool :=
  existsb (fun lf => String.eqb (name (file lf)) (name f) && (size (file lf) =? size f)) l.

(** The body of the [forEach] of [handleFiles]. *)
Definition add (s : State) (f : MediaFile) : State :=
  if known (localFiles s) f then s
  else
    {| localFiles :=
         localFiles s ++
         [{| file := f; url := next_url s; isAudio := isAudioFile (name f);
             isNative := isNativeFormat (name f); convertedUrl := None |}];
       currentIndex := currentIndex s; src := src s;
       next_url := S (next_url s); revoked := revoked s |}.

Definition handleFiles (files : list MediaFile) (s : State) : State :=
  match files with
  | [] => s
  | _ =>
      match List.filter is_media files with
      | [] => s
      | mediaFiles =>
          let startIndex := Z.of_nat (List.length (localFiles s)) in
          playFile startIndex (fold_left add mediaFiles s)
      end
  end.

Definition onVideoEnded (s : State) : State :=
  if currentIndex s <? Z.of_nat (List.length (localFiles s)) - 1
  then playFile (currentIndex s + 1) s else s.

(** The playlist part of [playNextOrShowEmpty]; its other branch only
    changes what is displayed. *)
Definition playNextOrShowEmpty (s : State) : State :=
  if currentIndex s <? Z.of_nat (List.length (localFiles s)) - 1
  then playFile (currentIndex s + 1) s else s.

(** The object URLs the entries of a list hold. *)
Definition urls (f : Entry) : list nat :=
  url f :: match convertedUrl f with Some u => [u] | None => [] end.

Definition all_urls (l : list Entry) : list nat := l ≫= urls.

(** What identifies a file in the list. *)
Definition key (f : Entry) : string * Z := (name (file f), size (file f)).

Definition file_key (f : MediaFile) : string * Z := (name f, size f).

(** The files of a batch that are new: each file whose name and size are
    not among the keys [seen] and not those of an earlier file of the
    batch, in the order of the batch. *)
Fixpoint new_files (seen : list (string * Z)) (batch : list MediaFile) : list MediaFile :=
  match batch with
  | [] => []
  | f :: r =>
      if bool_decide (file_key f ∈ seen) then new_files seen r
      else f :: new_files (file_key f :: seen) r
  end.

(** The entries of the files [l], with the object URLs [n], [n + 1], ...
    in this order, and nothing converted yet. *)
Fixpoint entries_from (n : nat) (l : list MediaFile) : list Entry :=
  match l with
  | [] => []
  | f :: r =>
      {| file := f; url := n; isAudio := isAudioFile (name f);
         isNative := isNativeFormat (name f); convertedUrl := None |}
      :: entries_from (S n) r
  end.

(** The playlist is consistent: the index is [-1] with the empty source,
    or it points at an entry whose URL is the source; the object URLs of
    the entries are distinct, were handed out before, and none of them is
    revoked; no two entries have the same name and size. *)
Record consistent (s : State) : Prop := {
  current_ok :
    (currentIndex s = -1 /\ src s = None)
    \/ (0 <= currentIndex s
        /\ exists f, localFiles s !! Z.to_nat (currentIndex s) = Some f
                     /\ src s = Some (playable f));
  urls_distinct : NoDup (all_urls (localFiles s));
  urls_made : Forall (fun u => (u < next_url s)%nat) (all_urls (localFiles s));
  revoked_made : Forall (fun u => (u < next_url s)%nat) (revoked s);
  revoked_unused : Forall (fun u => u ∉ all_urls (localFiles s)) (revoked s);
  keys_distinct : NoDup (key <$> localFiles s)
}.

End Player.

(** ** Arithmetic of the browser client *)

Module Double.

Definition add (x y : number) : number := SFadd prec emax x y.
Definition mul (x y : number) : number := SFmul prec emax x y.
Definition div (x y : number) : number := SFdiv prec emax x y.

(** The literals [0.1], [0.5], [0.9] and [1.1]. *)
Definition tenth : number := of_decimal false 1 (-1).
Definition half : number := of_decimal false 5 (-1).
Definition nine_tenths : number := of_decimal false 9 (-1).
Definition eleven_tenths : number := of_decimal false 11 (-1).

(** [Math.max(x, y)]: NaN when an argument is NaN; of the two zeros the
    positive one is the larger. *)
Definition Math_max (x y : number) : number :=
  match SFcompare x y with
  | None => NaN
  | Some Lt => y
  | Some Gt => x
  | Some Eq =>
      match x, y with
      | S754_zero true, S754_zero false => y
      | _, _ => x
      end
  end.

(** [Math.min(x, y)] *)
Definition Math_min (x y : number) : number :=
  match SFcompare x y with
  | None => NaN
  | Some Lt => x
  | Some Gt => y
  | Some Eq =>
      match x, y with
      | S754_zero false, S754_zero true => y
      | _, _ => x
      end
  end.

(** Neither NaN nor an infinity. *)
Definition is_finite (x : number) : bool :=
  match x with
  | S754_zero _ | S754_finite _ _ _ => true
  | _ => false
  end.

End Double.

(** The controls of the player that compute a number. *)
Module Controls.
Import Double.

(** The speed [setPlaybackSpeed(speed)] stores and gives to the video. *)
Definition setPlaybackSpeed (speed : number) : number :=
  Math_max tenth (Math_min (of_Z 4) speed).

(** [adjustSpeed(delta)] on the stored speed. *)
Definition adjustSpeed (delta stored : number) : number :=
  setPlaybackSpeed (add stored delta).

Inductive SpeedClass := slow | normal | fast.

Definition updateSpeedValueColor (speed : number) : SpeedClass :=
  if ltb speed nine_tenths then slow
  else if gtb speed eleven_tenths then fast
  else normal.

(** The volume [adjustVolume(delta)] hands to [setVolume]. *)
Definition adjustVolume (delta volume : number) : number :=
  Math_max zero (Math_min (of_Z 1) (add volume delta)).

(** The position [skip(seconds)] assigns to [video.currentTime]. *)
Definition skip (seconds currentTime duration : number) : number :=
  Math_max zero (Math_min (or_else duration zero) (add currentTime seconds)).

End Controls.

(** The time range of the clip tab. *)
Module Clipper.
Import Double.

Record Range := {
  duration : number;
  startTime : number;
  endTime : number
}.

(** The handle being dragged, the field edited, the mark set. *)
Inductive Handle := Start | End.

Definition onVideoLoaded (videoDuration : number) : Range :=
  {| duration := videoDuration; startTime := zero; endTime := videoDuration |}.

(** [onDrag(e)] while a handle is dragged: the pointer at [clientX] over
    a timeline that starts at [left] and is [width] wide. *)
Definition onDrag (which : Handle) (clientX left width : number) (r : Range) : Range :=
  let x := sub clientX left in
  let percent := Math_max zero (Math_min (of_Z 1) (div x width)) in
  let time := mul percent (duration r) in
  match which with
  | Start =>
      {| duration := duration r;
         startTime := Math_max zero (Math_min time (sub (endTime r) half));
         endTime := endTime r |}
  | End =>
      {| duration := duration r;
         startTime := startTime r;
         endTime := Math_min (duration r) (Math_max time (add (startTime r) half)) |}
  end.

(** [parseTime(str)] *)
Definition parseTime (str : string) : number :=
  match map (fun p => parseFloat (Some p)) (Str.split ":" str) with
  | [h; m; s] => add (add (mul h (of_Z 3600)) (mul m (of_Z 60))) s
  | [m; s] => add (mul m (of_Z 60)) s
  | _ => or_else (parseFloat (Some str)) zero
  end.

(** [onTimeInputChange(which)] with the text of the edited field. *)
Definition onTimeInputChange (which : Handle) (value : string) (r : Range) : Range :=
  let seconds := parseTime value in
  if isNaN seconds then r
  else
    match which with
    | Start =>
        {| duration := duration r;
           startTime := Math_max zero (Math_min seconds (sub (endTime r) half));
           endTime := endTime r |}
    | End =>
        {| duration := duration r;
           startTime := startTime r;
           endTime := Math_min (duration r) (Math_max seconds (add (startTime r) half)) |}
    end.

(** [markTime(which)] at the position [currentTime] of the preview. *)
Definition markTime (which : Handle) (currentTime : number) (r : Range) : Range :=
  match which with
  | Start =>
      if ltb currentTime (sub (endTime r) half)
      then {| duration := duration r; startTime := currentTime; endTime := endTime r |}
      else r
  | End =>
      if gtb currentTime (add (startTime r) half)
      then {| duration := duration r; startTime := startTime r; endTime := currentTime |}
      else r
  end.

End Clipper.

(** The fields [createClip] puts in the form it posts to [/api/clip]. *)
Definition createClip (file format : string) (r : Clipper.Range) : Request :=
  {| video := Some file;
     format := Some format;
     startTime := Some (toFixed (Clipper.startTime r) 3);
     endTime := Some (toFixed (Clipper.endTime r) 3) |}.

(** A number that is not below zero, or is NaN. *)
Definition not_negative (x : number) : bool :=
  match x with
  | S754_zero _ | S754_finite false _ _ | S754_infinity false | S754_nan => true
  | _ => false
  end.

(** A text that is empty, or starts with an ASCII character that is
    neither white space nor a minus sign. *)
Definition unsigned (l : list ascii) : bool :=
  match l with
  | c :: _ =>
      (N_of_ascii c <? 128)%N && negb (Chars.is_space c) && negb (Ascii.eqb c "-")
  | [] => true
  end.

(** ** Subtitle times *)
Module Subtitles.

(** [s.padStart(n, '0')] and [s.padEnd(n, '0')] *)
Definition padStart (n : nat) (s : list ascii) : list ascii :=
  repeat "0"%char (n - List.length s) ++ s.

Definition padEnd (n : nat) (s : list ascii) : list ascii :=
  s ++ repeat "0"%char (n - List.length s).

(** [formatAssTime(time)]: an ASS time [H:MM:SS.cc] as a WebVTT time
    [HH:MM:SS.mmm]; a text that does not have three parts is returned as
    it is. *)
Definition formatAssTime (time : string) : string :=
  match Str.split_chars ":" (list_ascii_of_string time) [] with
  | [p0; p1; p2] =>
      let sAndMs := Str.split_chars "." p2 [] in
      let h := padStart 2 p0 in
      let m := padStart 2 p1 in
      let s := padStart 2 (nth 0 sAndMs []) in
      let ms :=
        firstn 3 (padEnd 3 match nth_error sAndMs 1 with
                           | Some (c :: r) => c :: r
                           | _ => ["0"%char]
                           end) in
      string_of_list_ascii (h ++ ":"%char :: m ++ ":"%char :: s ++ "."%char :: ms)
  | _ => time
  end.

(** A WebVTT time with hours: [HH:MM:SS.mmm]. *)
Definition is_vtt_time (t : string) : bool :=
  match list_ascii_of_string t with
  | [h1; h2; c1; m1; m2; c2; s1; s2; d; f1; f2; f3] =>
      forallb Chars.is_digit [h1; h2; m1; m2; s1; s2; f1; f2; f3]
      && Ascii.eqb c1 ":" && Ascii.eqb c2 ":" && Ascii.eqb d "."
  | _ => false
  end.

End Subtitles.

(** * Properties *)

(** Membership in an explicit list of actions. *)
Ltac mem_inv H :=
  repeat (apply elem_of_cons in H as [H|H]; [try discriminate H|]);
  try (apply elem_of_nil in H; contradiction).

Ltac mem := repeat first [apply list_elem_of_here | apply list_elem_of_further].

Ltac actions_cases j env f :=
  unfold callbacks_actions, files_at_close;
  destruct env as [[[errno|]|chunks [] code|chunks []] d]; cbn [child delivery];
  try destruct (nonzero code);
  try destruct (bool_decide (outputPath j ∈ _));
  try destruct (stalls _ _);
  try destruct (fails_early _ _);
  cbn [app].

(** ** Comparisons of doubles *)

Module NumberFacts.

Lemma compare_antisym (x y : number) (c : comparison) :
  SFcompare x y = Some c -> SFcompare y x = Some (CompOpp c).
Proof.
  destruct x as [s1|s1| |s1 m1 e1], y as [s2|s2| |s2 m2 e2];
    try destruct s1; try destruct s2; simpl; intros H;
    try discriminate; try (injection H as <-; reflexivity).
  all: injection H as <-; rewrite (Z.compare_antisym e1 e2);
    destruct (e1 ?= e2); simpl; try reflexivity;
    rewrite (Pos.compare_cont_antisym m1 m2 Eq); simpl;
    try rewrite CompOpp_involutive; reflexivity.
Qed.

End NumberFacts.

(** ** Running the world monad *)

Ltac run :=
  cbv beta iota zeta delta
    [bind ret throw attempt emit set_files set_headersSent get_headersSent
     existsSync unlinkSync create respond console console_error download
     unlink_if_exists
     spread fst snd files headersSent trace].

Lemma World_eq (w : World) (f : gset string) (h : bool) (t : list Action) :
  files w = f -> headersSent w = h -> trace w = t ->
  w = {| files := f; headersSent := h; trace := t |}.
Proof. destruct w; simpl; congruence. Qed.

Lemma attempt_unlink (p : string) (w : World) :
  attempt (unlinkSync p) w =
  (Ok tt, {| files := files w ∖ {[p]}; headersSent := headersSent w;
             trace := trace w ++ [Unlink p] |}).
Proof.
  destruct w as [f h t]. run. case_bool_decide as H; f_equal. f_equal.
  symmetry. apply difference_disjoint_L, disjoint_singleton_r, H.
Qed.

Lemma attempt_unlink_if_exists (p : string) (w : World) :
  attempt (unlink_if_exists p) w =
  (Ok tt, {| files := files w ∖ {[p]}; headersSent := headersSent w;
             trace := trace w ++ (if bool_decide (p ∈ files w) then [Unlink p] else []) |}).
Proof.
  destruct w as [f h t]. run. case_bool_decide as H.
  - rewrite bool_decide_true by exact H. reflexivity.
  - rewrite app_nil_r. f_equal. f_equal.
    symmetry. apply difference_disjoint_L, disjoint_singleton_r, H.
Qed.

Lemma respond_fresh (status : Z) (b : Body) (w : World) :
  headersSent w = false ->
  respond status b w =
  (Ok tt, {| files := files w; headersSent := true;
             trace := trace w ++ [Respond status b] |}).
Proof. destruct w as [f h t]. simpl. intros ->. reflexivity. Qed.

Lemma on_error_run (j : Job) (w : World) :
  headersSent w = false ->
  on_error j w =
  (Ok tt, {| files := files w ∖ {[inputPath j]}; headersSent := true;
             trace := trace w ++ [Console "FFmpeg spawn error:"; Unlink (inputPath j);
                                  Respond 500 (Json (start_failed_msg (labels j)) None)] |}).
Proof.
  intros H. unfold on_error, console.
  unfold bind at 1. unfold emit at 1.
  unfold bind at 1. rewrite attempt_unlink. simpl.
  unfold bind, get_headersSent. simpl. rewrite H. simpl.
  rewrite respond_fresh by reflexivity. simpl.
  rewrite <- !app_assoc. reflexivity.
Qed.

Lemma download_run (p name : string) (d : Delivery) (w : World) :
  download p name d w =
  (Ok (if bool_decide (p ∈ files w)
       then match d with
            | Delivered => Some false
            | Failed _ => Some true
            | Stalls => None
            end
       else Some true),
   {| files := files w;
      headersSent :=
        if bool_decide (p ∈ files w)
        then match d with Delivered | Stalls => true | Failed hs => hs end
        else headersSent w;
      trace := trace w ++ [Download p name] |}).
Proof.
  destruct w as [f h t]. run.
  destruct (bool_decide (p ∈ f)), d; reflexivity.
Qed.

Lemma on_close_failure (j : Job) (stderr : Str.Text) (code : option Z)
    (d : Delivery) (w : World) :
  headersSent w = false -> nonzero code = true ->
  on_close j stderr code d w =
  (Ok tt,
   {| files := files w ∖ {[inputPath j]} ∖ {[outputPath j]};
      headersSent := true;
      trace := trace w ++
        [Unlink (inputPath j);
         ConsoleError (log_label (labels j)) (Str.slice_last 500 stderr)] ++
        (if bool_decide (outputPath j ∈ files w ∖ {[inputPath j]})
         then [Unlink (outputPath j)] else []) ++
        [Respond 500 (Json (failed_msg (labels j))
                        (Some (Str.slice_last 300 stderr)))] |}).
Proof.
  intros Hs Hc. unfold on_close. rewrite Hc.
  unfold bind at 1. rewrite attempt_unlink.
  unfold console_error, bind at 1, emit at 1.
  unfold bind at 1. rewrite attempt_unlink_if_exists.
  rewrite respond_fresh by exact Hs. simpl.
  rewrite <- !app_assoc. reflexivity.
Qed.

Lemma on_close_success (j : Job) (stderr : Str.Text) (d : Delivery) (w : World) :
  headersSent w = false ->
  let present := bool_decide (outputPath j ∈ files w ∖ {[inputPath j]}) in
  on_close j stderr (Some 0) d w =
  (Ok tt,
   {| files := if stalls present d then files w ∖ {[inputPath j]}
               else files w ∖ {[inputPath j]} ∖ {[outputPath j]};
      headersSent := true;
      trace := trace w ++
        [Unlink (inputPath j); Download (outputPath j) (outputName j)] ++
        (if stalls present d then []
         else
           (if present then [Unlink (outputPath j)] else []) ++
           (if fails_early present d
            then [Respond 500 (Json "Download failed" None)] else [])) |}).
Proof.
  intros Hs present. unfold on_close. simpl nonzero. cbv iota.
  unfold bind at 1. rewrite attempt_unlink.
  unfold bind at 1. rewrite download_run. cbn [files headersSent trace].
  fold present.
  destruct present eqn:Hp, d as [|[]|]; cbn [stalls fails_early andb negb orb];
    try (unfold bind at 1; rewrite attempt_unlink_if_exists;
         cbn [files headersSent trace]; fold present; rewrite Hp;
         unfold bind, get_headersSent; cbn [files headersSent trace];
         rewrite ?Hs; cbn;
         rewrite <- ?app_assoc; cbn; rewrite ?app_nil_r; reflexivity).
  unfold ret. rewrite <- app_assoc. reflexivity.
Qed.

Lemma create_run (p : string) (w : World) :
  create p w =
  (Ok tt, {| files := {[p]} ∪ files w; headersSent := headersSent w;
             trace := trace w ++ [Created p] |}).
Proof. destruct w; reflexivity. Qed.

Lemma unlinkSync_present (p : string) (w : World) :
  p ∈ files w ->
  unlinkSync p w =
  (Ok tt, {| files := files w ∖ {[p]}; headersSent := headersSent w;
             trace := trace w ++ [Unlink p] |}).
Proof.
  intros H. destruct w as [f h t]. run.
  rewrite bool_decide_true by exact H. reflexivity.
Qed.

(** *** The callbacks in closed form *)

Lemma on_close_after_response (j : Job) (stderr : Str.Text) (code : option Z)
    (d : Delivery) (w : World) :
  headersSent w = true -> nonzero code = true ->
  on_close j stderr code d w =
  (Thrown HeadersAlreadySent,
   {| files := files w ∖ {[inputPath j]} ∖ {[outputPath j]};
      headersSent := true;
      trace := trace w ++
        [Unlink (inputPath j);
         ConsoleError (log_label (labels j)) (Str.slice_last 500 stderr)] ++
        (if bool_decide (outputPath j ∈ files w ∖ {[inputPath j]})
         then [Unlink (outputPath j)] else []) |}).
Proof.
  intros Hs Hc. unfold on_close. rewrite Hc.
  unfold bind at 1. rewrite attempt_unlink.
  unfold console_error, bind at 1, emit at 1.
  unfold bind at 1. rewrite attempt_unlink_if_exists.
  unfold respond, bind, get_headersSent, throw. cbn [files headersSent trace].
  rewrite Hs. rewrite <- !app_assoc. reflexivity.
Qed.

Lemma callbacks_runs (j : Job) (env : Env) (w : World)
    (chunks : list Str.Text) (written : bool) (code : option Z) :
  headersSent w = false -> child env = Runs chunks written code ->
  callbacks j env w =
  (Ok tt, {| files := callbacks_files j env (files w);
             headersSent := true;
             trace := trace w ++ callbacks_actions j env (files w) |}).
Proof.
  intros Hs Hc.
  unfold callbacks, callbacks_files, callbacks_actions, files_at_close. rewrite Hc.
  unfold bind.
  assert (Hw : (if written then create (outputPath j) else ret tt) w =
               (Ok tt, {| files := if written then {[outputPath j]} ∪ files w else files w;
                          headersSent := false;
                          trace := trace w ++ (if written then [Created (outputPath j)] else []) |})).
  { destruct written; [rewrite create_run, Hs; reflexivity|].
    unfold ret. rewrite app_nil_r. f_equal. apply World_eq; auto. }
  rewrite Hw. clear Hw.
  destruct (nonzero code) eqn:Hn.
  - rewrite on_close_failure by (auto). cbn [files headersSent trace].
    destruct written; rewrite <- ?app_assoc; reflexivity.
  - destruct code as [[| |]|]; try discriminate Hn.
    rewrite on_close_success by reflexivity. cbn [files headersSent trace].
    destruct written; rewrite <- ?app_assoc; reflexivity.
Qed.

(** What [route] leaves once the handler has spawned the job [j]. *)
Lemma route_spawned (h : M (option Job)) (env : Env) (w w' : World) (j : Job) :
  h w = (Ok (Some j), w') -> headersSent w' = false ->
  route h env w =
  (Ok tt, {| files := callbacks_files j env (files w');
             headersSent := ends (child env);
             trace := trace w' ++ callbacks_actions j env (files w') |}).
Proof.
  intros H Hs. unfold route. rewrite H.
  destruct (child env) as [[errno|]|chunks written code|chunks written] eqn:Hc.
  - unfold callbacks, callbacks_files, callbacks_actions, files_at_close.
    rewrite Hc. unfold bind. rewrite on_error_run by exact Hs.
    rewrite on_close_after_response by reflexivity.
    cbn [files headersSent trace emit Str.slice_last skipn List.length Nat.sub].
    rewrite difference_twice_L. unfold emit. cbn [files headersSent trace].
    rewrite <- !app_assoc. reflexivity.
  - unfold callbacks, callbacks_files, callbacks_actions, files_at_close.
    rewrite Hc. unfold bind. rewrite on_error_run by exact Hs.
    unfold ret. rewrite app_nil_r. reflexivity.
  - rewrite (callbacks_runs j env w' chunks written code Hs Hc). reflexivity.
  - unfold callbacks, callbacks_files, callbacks_actions, files_at_close.
    rewrite Hc. destruct written.
    + rewrite create_run, Hs. reflexivity.
    + unfold ret. rewrite app_nil_r. f_equal. apply World_eq; auto.
Qed.

(** *** The two routes, case by case *)

Section Routes.
Variable srv : Server.
Variable clk : Clock.
Variable req : Request.
Variable env : Env.
Variable scratch : gset string.

Let stored (name : string) : World :=
  {| files := {[upload_path srv (upload_time clk) name]} ∪ scratch;
     headersSent := false;
     trace := [Created (upload_path srv (upload_time clk) name)] |}.

Lemma upload_some (name : string) :
  video req = Some name ->
  upload_single srv (upload_time clk) req (fresh scratch) =
  (Ok (Some {| path := upload_path srv (upload_time clk) name; originalname := name |}),
   stored name).
Proof. intros H. unfold upload_single. rewrite H. reflexivity. Qed.

Lemma upload_none :
  video req = None ->
  upload_single srv (upload_time clk) req (fresh scratch) = (Ok None, fresh scratch).
Proof. intros H. unfold upload_single. rewrite H. reflexivity. Qed.

Lemma refuse_run (name : string) (status : Z) (msg : string) :
  (unlinkSync (upload_path srv (upload_time clk) name) ;;
   respond status (Json msg None) ;; ret (@None Job)) (stored name) =
  (Ok None, refused srv clk scratch name status msg).
Proof.
  unfold bind at 1. rewrite unlinkSync_present.
  - reflexivity.
  - apply elem_of_union. left. apply elem_of_singleton. reflexivity.
Qed.

Lemma post_convert_unavailable_file (name : string) :
  ffmpegAvailable srv = false -> video req = Some name ->
  post_convert srv clk req env scratch =
  refused srv clk scratch name 500 "FFmpeg is not installed on the server".
Proof.
  intros Ha Hv. unfold post_convert, bind at 1. rewrite (upload_some name Hv).
  unfold route, convert_handler. rewrite Ha. cbn [negb path].
  rewrite refuse_run. reflexivity.
Qed.

Lemma post_convert_unavailable_nofile :
  ffmpegAvailable srv = false -> video req = None ->
  post_convert srv clk req env scratch =
  answered scratch 500 "FFmpeg is not installed on the server".
Proof.
  intros Ha Hv. unfold post_convert, bind at 1. rewrite (upload_none Hv).
  unfold route, convert_handler. rewrite Ha. reflexivity.
Qed.

Lemma post_convert_nofile :
  ffmpegAvailable srv = true -> video req = None ->
  post_convert srv clk req env scratch = answered scratch 400 "No video file provided".
Proof.
  intros Ha Hv. unfold post_convert, bind at 1. rewrite (upload_none Hv).
  unfold route, convert_handler. rewrite Ha. reflexivity.
Qed.

Lemma post_convert_invalid_format (name : string) :
  ffmpegAvailable srv = true -> video req = Some name ->
  Value_truthy (FORMATS_get (key_of (format req))) = false ->
  post_convert srv clk req env scratch = refused srv clk scratch name 400 "Invalid format".
Proof.
  intros Ha Hv Hf. unfold post_convert, bind at 1. rewrite (upload_some name Hv).
  unfold route, convert_handler. rewrite Ha, Hf. cbn [negb path].
  rewrite refuse_run. reflexivity.
Qed.

(** The handler throws on a key that [FORMATS] only inherits. *)
Lemma post_convert_inherited (name key : string) :
  ffmpegAvailable srv = true -> video req = Some name ->
  FORMATS_get (key_of (format req)) = Inherited key ->
  post_convert srv clk req env scratch =
  {| files := {[upload_path srv (upload_time clk) name]} ∪ scratch;
     headersSent := true;
     trace := [Created (upload_path srv (upload_time clk) name);
               Respond 500 ErrorPage] |}.
Proof.
  intros Ha Hv Hf. unfold post_convert, bind at 1. rewrite (upload_some name Hv).
  unfold route, convert_handler. rewrite Ha, Hf. reflexivity.
Qed.

Lemma post_convert_entry (name : string) (sp : FormatSpec) :
  ffmpegAvailable srv = true -> video req = Some name ->
  FORMATS_get (key_of (format req)) = Entry sp ->
  let f := {| path := upload_path srv (upload_time clk) name; originalname := name |} in
  let j := convert_job srv (handler_time clk) f (Entry sp) in
  post_convert srv clk req env scratch =
  {| files := callbacks_files j env ({[path f]} ∪ scratch);
     headersSent := ends (child env);
     trace :=
       [Created (path f);
        Console ("Converting: " +:+ name +:+ " -> " +:+ outputName j);
        Spawn "ffmpeg" (convert_args (path f) (codec sp) (outputPath j))] ++
       callbacks_actions j env ({[path f]} ∪ scratch) |}.
Proof.
  intros Ha Hv Hf f j. unfold post_convert, bind at 1. rewrite (upload_some name Hv).
  rewrite (route_spawned _ env _
             {| files := {[path f]} ∪ scratch; headersSent := false;
                trace := [Created (path f);
                          Console ("Converting: " +:+ name +:+ " -> " +:+ outputName j);
                          Spawn "ffmpeg" (convert_args (path f) (codec sp) (outputPath j))] |}
             j).
  - reflexivity.
  - unfold convert_handler. rewrite Ha, Hf. reflexivity.
  - reflexivity.
Qed.

Lemma post_clip_unavailable_file (name : string) :
  ffmpegAvailable srv = false -> video req = Some name ->
  post_clip srv clk req env scratch =
  refused srv clk scratch name 500 "FFmpeg is not installed on the server".
Proof.
  intros Ha Hv. unfold post_clip, bind at 1. rewrite (upload_some name Hv).
  unfold route, clip_handler. rewrite Ha. cbn [negb path].
  rewrite refuse_run. reflexivity.
Qed.

Lemma post_clip_unavailable_nofile :
  ffmpegAvailable srv = false -> video req = None ->
  post_clip srv clk req env scratch =
  answered scratch 500 "FFmpeg is not installed on the server".
Proof.
  intros Ha Hv. unfold post_clip, bind at 1. rewrite (upload_none Hv).
  unfold route, clip_handler. rewrite Ha. reflexivity.
Qed.

Lemma post_clip_nofile :
  ffmpegAvailable srv = true -> video req = None ->
  post_clip srv clk req env scratch = answered scratch 400 "No video file provided".
Proof.
  intros Ha Hv. unfold post_clip, bind at 1. rewrite (upload_none Hv).
  unfold route, clip_handler. rewrite Ha. reflexivity.
Qed.

Lemma post_clip_invalid_format (name : string) :
  ffmpegAvailable srv = true -> video req = Some name ->
  Value_truthy (FORMATS_get (clip_format req)) = false ->
  post_clip srv clk req env scratch = refused srv clk scratch name 400 "Invalid format".
Proof.
  intros Ha Hv Hf. unfold post_clip, bind at 1. rewrite (upload_some name Hv).
  unfold route, clip_handler. rewrite Ha, Hf. cbn [negb path].
  rewrite refuse_run. reflexivity.
Qed.

Lemma post_clip_invalid_range (name : string) :
  ffmpegAvailable srv = true -> video req = Some name ->
  Value_truthy (FORMATS_get (clip_format req)) = true ->
  invalid_range (clip_start req) (clip_end req) = true ->
  post_clip srv clk req env scratch = refused srv clk scratch name 400 "Invalid time range".
Proof.
  intros Ha Hv Hf Hr. unfold post_clip, bind at 1. rewrite (upload_some name Hv).
  unfold route, clip_handler. rewrite Ha, Hf, Hr. cbn [negb path].
  rewrite refuse_run. reflexivity.
Qed.

Lemma post_clip_inherited (name key : string) :
  ffmpegAvailable srv = true -> video req = Some name ->
  FORMATS_get (clip_format req) = Inherited key ->
  invalid_range (clip_start req) (clip_end req) = false ->
  post_clip srv clk req env scratch =
  {| files := {[upload_path srv (upload_time clk) name]} ∪ scratch;
     headersSent := true;
     trace := [Created (upload_path srv (upload_time clk) name);
               Respond 500 ErrorPage] |}.
Proof.
  intros Ha Hv Hf Hr. unfold post_clip, bind at 1. rewrite (upload_some name Hv).
  unfold route, clip_handler. rewrite Ha, Hf, Hr. reflexivity.
Qed.

Lemma post_clip_entry (name : string) (sp : FormatSpec) :
  ffmpegAvailable srv = true -> video req = Some name ->
  FORMATS_get (clip_format req) = Entry sp ->
  invalid_range (clip_start req) (clip_end req) = false ->
  let f := {| path := upload_path srv (upload_time clk) name; originalname := name |} in
  let j := clip_job srv (handler_time clk) f (clip_start req) (clip_end req) (Entry sp) in
  post_clip srv clk req env scratch =
  {| files := callbacks_files j env ({[path f]} ∪ scratch);
     headersSent := ends (child env);
     trace :=
       [Created (path f);
        Console ("Clipping: " +:+ name +:+ " [" +:+ toString (clip_start req)
                   +:+ "s - " +:+ toString (clip_end req) +:+ "s] -> " +:+ outputName j);
        Spawn "ffmpeg"
          (clip_args (clip_start req) (sub (clip_end req) (clip_start req))
             (path f) (codec sp) (outputPath j))] ++
       callbacks_actions j env ({[path f]} ∪ scratch) |}.
Proof.
  intros Ha Hv Hf Hr f j. unfold post_clip, bind at 1. rewrite (upload_some name Hv).
  rewrite (route_spawned _ env _
             {| files := {[path f]} ∪ scratch; headersSent := false;
                trace := [Created (path f);
                          Console ("Clipping: " +:+ name +:+ " [" +:+ toString (clip_start req)
                                     +:+ "s - " +:+ toString (clip_end req) +:+ "s] -> "
                                     +:+ outputName j);
                          Spawn "ffmpeg"
                            (clip_args (clip_start req) (sub (clip_end req) (clip_start req))
                               (path f) (codec sp) (outputPath j))] |}
             j).
  - reflexivity.
  - unfold clip_handler. rewrite Ha, Hf, Hr. reflexivity.
  - reflexivity.
Qed.

End Routes.

(** ** The format registry *)

Ltac case_keys :=
  repeat match goal with
    | |- context [String.eqb ?a ?b] => destruct (String.eqb_spec a b); cbv iota
    | H : context [String.eqb ?a ?b] |- _ =>
        destruct (String.eqb_spec a b); cbv iota in H
    end.

(** Every own entry of the registry is one of the six formats, names its
    extension after its key and carries arguments. *)
Lemma own_property_FORMATS (k : string) (f : FormatSpec) :
  own_property k FORMATS = Some f ->
  In k ["mp4"; "webm"; "mkv"; "mov"; "mp3"; "wav"] /\ ext f = k /\ codec f <> [].
Proof.
  cbv beta iota delta [own_property FORMATS]. intros H.
  case_keys; try discriminate H.
  all: injection H as <-; subst k; simpl; intuition discriminate.
Qed.

Lemma FORMATS_own_keys (k : string) :
  In k ["mp4"; "webm"; "mkv"; "mov"; "mp3"; "wav"] ->
  exists f, FORMATS_get k = Entry f.
Proof.
  simpl. intros [<-|[<-|[<-|[<-|[<-|[<-|[]]]]]]]; eexists; reflexivity.
Qed.

Lemma FORMATS_get_entry (k : string) (f : FormatSpec) :
  FORMATS_get k = Entry f -> own_property k FORMATS = Some f.
Proof.
  unfold FORMATS_get. destruct (own_property k FORMATS).
  - congruence.
  - destruct (existsb _ _); discriminate.
Qed.

Lemma FORMATS_get_inherited (k n : string) :
  FORMATS_get k = Inherited n -> n = k /\ In k Object_prototype.
Proof.
  unfold FORMATS_get. destruct (own_property k FORMATS); [discriminate|].
  destruct (existsb (String.eqb k) Object_prototype) eqn:E; [|discriminate].
  intros [= <-]. split; [reflexivity|].
  apply existsb_exists in E as (x & Hx & Hk).
  apply String.eqb_eq in Hk. subst x. exact Hx.
Qed.

(** C6, on the code as it is.  The own entries of the registry are the six
    formats, each with its extension and a non-empty argument list, and an
    identifier that is neither one of them nor a member of
    [Object.prototype] is not found.  But the lookup
    [FORMATS["constructor"]] is truthy although the identifier is not among
    the keys [GET /api/formats] lists, so neither endpoint answers "Invalid
    format": both throw while building the argument list and the request
    ends in the error page of status 500. *)
Theorem format_lookup_inherited_key :
  (forall k, In k ["mp4"; "webm"; "mkv"; "mov"; "mp3"; "wav"] ->
     exists f, FORMATS_get k = Entry f /\ ext f = k /\ codec f <> [])
  /\ (forall k, ~ In k format_keys -> ~ In k Object_prototype ->
        FORMATS_get k = Undefined)
  /\ FORMATS_get "constructor" = Inherited "constructor"
  /\ Value_truthy (FORMATS_get "constructor") = true
  /\ existsb (String.eqb "constructor") format_keys = false
  /\ trace (post_convert sample_server sample_clock
              {| video := Some "movie.avi"; format := Some "constructor";
                 startTime := None; endTime := None |} sample_env ∅)
     = [Created "/tmp/videolab/upload_1700000000000_movie.avi";
        Respond 500 ErrorPage]
  /\ trace (post_clip sample_server sample_clock
              {| video := Some "movie.avi"; format := Some "constructor";
                 startTime := Some "0"; endTime := Some "10" |} sample_env ∅)
     = [Created "/tmp/videolab/upload_1700000000000_movie.avi";
        Respond 500 ErrorPage].
Proof.
  split; [|split].
  - intros k Hk. destruct (FORMATS_own_keys k Hk) as [f Hf].
    exists f. split; [exact Hf|].
    apply FORMATS_get_entry, own_property_FORMATS in Hf. tauto.
  - intros k Hown Hproto. unfold FORMATS_get.
    destruct (own_property k FORMATS) as [f|] eqn:Hf.
    + apply own_property_FORMATS in Hf as [Hin _]. contradiction.
    + destruct (existsb (String.eqb k) Object_prototype) eqn:E; [|reflexivity].
      exfalso. apply Hproto.
      apply existsb_exists in E as (x & Hx & Hxk).
      apply String.eqb_eq in Hxk. subst x. exact Hx.
  - repeat split; vm_compute; reflexivity.
Qed.

(** C7 as stated fails: the entry of [wav] is [-vn -c:a pcm_s16le], with
    nothing after the codec selection. *)
Lemma wav_has_no_quality_setting :
  own_property "wav" FORMATS
    = Some {| ext := "wav"; codec := ["-vn"; "-c:a"; "pcm_s16le"] |}
  /\ ~ (forall k f, In k ["mp3"; "wav"] -> own_property k FORMATS = Some f ->
          audio_with_quality (codec f)).
Proof.
  split; [reflexivity|]. intros H.
  destruct (H "wav" {| ext := "wav"; codec := ["-vn"; "-c:a"; "pcm_s16le"] |})
    as (c & q & Heq & Hq).
  - simpl. auto.
  - reflexivity.
  - simpl in Heq. injection Heq as _ Hnil. apply Hq. symmetry. exact Hnil.
Qed.

(** C7, amended: both audio-only entries start with [-vn] and an audio
    codec selection; [mp3] goes on with the quality setting [-q:a 2], [wav]
    stops there. *)
Theorem audio_only_codecs (k : string) (f : FormatSpec) :
  In k ["mp3"; "wav"] -> own_property k FORMATS = Some f ->
  exists c rest,
    codec f = "-vn" :: "-c:a" :: c :: rest
    /\ ((k = "mp3" /\ c = "libmp3lame" /\ rest = ["-q:a"; "2"])
        \/ (k = "wav" /\ c = "pcm_s16le" /\ rest = [])).
Proof.
  simpl. intros [<-|[<-|[]]] [= <-]; do 2 eexists; (split; [reflexivity|]); auto.
Qed.

Lemma audio_only_codecs_witness :
  exists c rest,
    codec {| ext := "mp3"; codec := ["-vn"; "-c:a"; "libmp3lame"; "-q:a"; "2"] |}
      = "-vn" :: "-c:a" :: c :: rest
    /\ (("mp3" = "mp3" /\ c = "libmp3lame" /\ rest = ["-q:a"; "2"])
        \/ ("mp3" = "wav" /\ c = "pcm_s16le" /\ rest = [])).
Proof.
  apply (audio_only_codecs "mp3").
  - simpl. left. reflexivity.
  - reflexivity.
Defined.

(** ** The diagnostic buffer *)

Lemma filler_length (n : nat) : List.length (filler n) = n.
Proof. apply repeat_length. Qed.

Lemma stderr_fold_length (chunks : list Str.Text) (acc : Str.Text) :
  List.length (fold_left on_data chunks acc)
  = (List.length acc + total_length chunks)%nat.
Proof.
  revert acc. induction chunks as [|c r IH]; intros acc; simpl.
  - lia.
  - rewrite IH. unfold on_data. rewrite List.length_app. lia.
Qed.

Lemma slice_last_length (n : nat) (s : Str.Text) :
  (List.length (Str.slice_last n s) <= n)%nat.
Proof. unfold Str.slice_last. rewrite List.length_skipn. lia. Qed.

(** C8 as stated fails: three chunks of 400 characters leave 1200
    characters in the buffer, and whatever the bound, some stream of
    standard error leaves a longer buffer behind. *)
Lemma stderr_buffer_unbounded :
  List.length (stderr_after [filler 400; filler 400; filler 400]) = 1200%nat
  /\ ~ (exists bound, forall chunks,
          (List.length (stderr_after chunks) <= bound)%nat).
Proof.
  split; [vm_compute; reflexivity|].
  intros [bound H]. specialize (H [filler (S bound)]).
  unfold stderr_after in H. rewrite stderr_fold_length in H.
  simpl in H. rewrite filler_length in H. lia.
Qed.

(** C8, amended: the buffer keeps the whole stream, every capture step
    appends its chunk and discards nothing, so its length is the total
    length of the chunks; the bound applies to what is reported at the end:
    after a non-zero exit the last 500 characters are logged and the last
    300 are sent as the details of the error response. *)
Theorem stderr_buffer_keeps_everything (chunks : list Str.Text) :
  (forall data, stderr_after (chunks ++ [data]) = stderr_after chunks ++ data)
  /\ List.length (stderr_after chunks) = total_length chunks
  /\ (List.length (Str.slice_last 500 (stderr_after chunks)) <= 500)%nat
  /\ (List.length (Str.slice_last 300 (stderr_after chunks)) <= 300)%nat
  /\ (forall j written code d w,
        headersSent w = false -> nonzero code = true ->
        let w' := snd (callbacks j {| child := Runs chunks written code; delivery := d |} w) in
        ConsoleError (log_label (labels j))
          (Str.slice_last 500 (stderr_after chunks)) ∈ trace w'
        /\ Respond 500 (Json (failed_msg (labels j))
                          (Some (Str.slice_last 300 (stderr_after chunks)))) ∈ trace w').
Proof.
  split; [|split; [|split; [|split]]].
  - intros data. unfold stderr_after. rewrite fold_left_app. reflexivity.
  - unfold stderr_after. rewrite stderr_fold_length. reflexivity.
  - apply slice_last_length.
  - apply slice_last_length.
  - intros j written code d w Hs Hc w'. subst w'.
    rewrite (callbacks_runs j {| child := Runs chunks written code; delivery := d |}
               w chunks written code Hs eq_refl).
    unfold callbacks_actions. cbn [snd trace child delivery]. rewrite Hc.
    split; apply elem_of_app; right; destruct written; cbn [app];
      destruct (bool_decide _); cbn [app]; mem.
Qed.

Lemma stderr_buffer_keeps_everything_witness :
  List.length (stderr_after [filler 400; filler 400]) = 800%nat
  /\ Respond 500 (Json "Conversion failed" (Some (filler 300)))
     ∈ trace (snd (callbacks
                     (convert_job sample_server 5
                        {| path := "/tmp/videolab/in"; originalname := "in" |}
                        (FORMATS_get "mp4"))
                     {| child := Runs [filler 400; filler 400] false (Some 1);
                        delivery := Delivered |}
                     (fresh ∅))).
Proof.
  destruct (stderr_buffer_keeps_everything [filler 400; filler 400])
    as (_ & Hlen & _ & _ & Hrun).
  split.
  - rewrite Hlen. reflexivity.
  - apply (Hrun (convert_job sample_server 5
                   {| path := "/tmp/videolab/in"; originalname := "in" |}
                   (FORMATS_get "mp4")) false (Some 1) Delivered (fresh ∅)
             eq_refl eq_refl).
Defined.

(** ** What the callbacks leave in the trace *)

Lemma callbacks_actions_no_spawn (j : Job) (env : Env) (f : gset string)
    (cmd : string) (args : list string) :
  Spawn cmd args ∉ callbacks_actions j env f.
Proof. actions_cases j env f; intros H; mem_inv H. Qed.

Lemma callbacks_actions_respond (j : Job) (env : Env) (f : gset string)
    (status : Z) (b : Body) :
  Respond status b ∈ callbacks_actions j env f -> status = 500.
Proof. actions_cases j env f; intros H; mem_inv H; congruence. Qed.

Lemma callbacks_actions_created (j : Job) (env : Env) (f : gset string) (p : string) :
  ends (child env) = true ->
  Created p ∈ callbacks_actions j env f ->
  p = outputPath j /\ exists chunks code, child env = Runs chunks true code.
Proof.
  actions_cases j env f; intros He H; try discriminate He; mem_inv H.
  all: injection H as ->; split; [reflexivity | eauto].
Qed.

Lemma callbacks_actions_unlink_input (j : Job) (env : Env) (f : gset string) :
  ends (child env) = true ->
  Unlink (inputPath j) ∈ callbacks_actions j env f.
Proof. actions_cases j env f; intros He; try discriminate He; mem. Qed.

Lemma stalls_completes (present : bool) (d : Delivery) :
  completes d = true -> stalls present d = false.
Proof. unfold stalls. intros ->. apply andb_false_r. Qed.

(** The upload is gone when the callbacks are done. *)
Lemma callbacks_files_input (j : Job) (env : Env) (f : gset string) :
  ends (child env) = true -> inputPath j ∉ callbacks_files j env f.
Proof.
  intros Hends. unfold callbacks_files.
  destruct (child env) as [[errno|]|chunks written code|chunks written];
    [| | |discriminate Hends]; cbv zeta; try destruct (_ && _).
  all: intros H; repeat apply elem_of_difference in H as [H ?].
  all: match goal with
       | Hn : ?p ∉ {[?p]} |- _ =>
           apply Hn, elem_of_singleton; reflexivity
       end.
Qed.

(** Whatever the child wrote is gone too, when the callback of the
    download was called. *)
Lemma callbacks_files_output (j : Job) (env : Env) (f : gset string)
    (chunks : list Str.Text) (code : option Z) :
  ends (child env) = true -> completes (delivery env) = true ->
  child env = Runs chunks true code ->
  (outputPath j ∉ callbacks_files j env f)
  /\ (Unlink (outputPath j) ∈ callbacks_actions j env f).
Proof.
  intros Hends Hd Hc. split.
  - unfold callbacks_files. rewrite Hc. cbv zeta.
    rewrite (stalls_completes _ _ Hd), andb_false_r.
    intros H. apply elem_of_difference in H as [_ H].
    apply H, elem_of_singleton. reflexivity.
  - destruct (decide (outputPath j = inputPath j)) as [E|E].
    + rewrite E. apply callbacks_actions_unlink_input, Hends.
    + unfold callbacks_actions, files_at_close. rewrite Hc. cbv zeta.
      rewrite (stalls_completes _ _ Hd).
      rewrite bool_decide_true.
      2:{ apply elem_of_difference. split.
          - apply elem_of_union. left. apply elem_of_singleton. reflexivity.
          - intros H. apply elem_of_singleton in H. contradiction. }
      destruct (nonzero code), (fails_early true (delivery env)); cbn [app]; mem.
Qed.

(** ** The time range of a clip *)

Module RangeFacts.
Import NumberFacts.

Lemma or_else_not_NaN (x : number) : isNaN (or_else x zero) = false.
Proof. destruct x; reflexivity. Qed.

Lemma or_else_falsy (x : number) :
  Number.truthy x = false -> or_else x zero = zero.
Proof. unfold or_else. intros ->. reflexivity. Qed.

Lemma eqb_leb (x y : number) : SFeqb x y = true -> leb x y = true.
Proof.
  unfold SFeqb, leb, SFleb. destruct (SFcompare x y) as [[]|]; congruence.
Qed.

(** A valid range is an end that is a number strictly above the start. *)
Lemma valid_range_lt (s e : number) :
  isNaN s = false -> invalid_range s e = false ->
  isNaN e = false /\ ltb s e = true.
Proof.
  unfold invalid_range. intros Hs H.
  apply orb_false_iff in H as [He Hle]. split; [exact He|].
  unfold leb, SFleb in Hle. unfold ltb, SFltb.
  destruct (SFcompare e s) as [c|] eqn:Hc.
  - rewrite (compare_antisym e s c Hc). destruct c; simpl; congruence.
  - destruct e, s; try destruct s0; try destruct s; simpl in *; discriminate.
Qed.

Lemma lt_valid_range (s e : number) :
  ltb s e = true -> invalid_range s e = false.
Proof.
  unfold ltb, SFltb, invalid_range, leb, SFleb. intros H.
  destruct (SFcompare s e) as [[]|] eqn:Hc; try discriminate H.
  rewrite (compare_antisym s e Lt Hc). simpl.
  destruct e; try reflexivity.
  destruct s; discriminate Hc.
Qed.

(** Above a start that is not negative, the end is positive. *)
Lemma positive_above_nonnegative (s e : number) :
  leb zero s = true -> ltb s e = true -> ltb zero e = true.
Proof.
  unfold leb, SFleb, ltb, SFltb, zero.
  destruct s as [ss|ss| |ss ms es], e as [se|se| |se me ee];
    try destruct ss; try destruct se; simpl; congruence.
Qed.

(** Below zero is below every start that is not negative. *)
Lemma negative_below_nonnegative (s e : number) :
  ltb e zero = true -> leb zero s = true -> leb e s = true.
Proof.
  unfold leb, SFleb, ltb, SFltb, zero.
  destruct s as [ss|ss| |ss ms es], e as [se|se| |se me ee];
    try destruct ss; try destruct se; simpl; congruence.
Qed.

Lemma sub_zero (e : number) : ltb zero e = true -> sub e zero = e.
Proof.
  destruct e as [s|s| |s m x]; try destruct s; simpl; try discriminate; reflexivity.
Qed.

End RangeFacts.

(** ** Rejections *)

Lemma refused_rejects (srv : Server) (clk : Clock) (scratch : gset string)
    (name : string) (status : Z) (msg : string) :
  rejects (refused srv clk scratch name status msg)
    (Some (upload_path srv (upload_time clk) name)) status msg.
Proof.
  split; [reflexivity|split].
  - intros p [= <-] Hin. cbn in Hin.
    apply elem_of_difference in Hin as [_ Hin].
    apply Hin, elem_of_singleton. reflexivity.
  - intros cmd args H. cbn in H. mem_inv H.
Qed.

Lemma answered_rejects (scratch : gset string) (status : Z) (msg : string) :
  rejects (answered scratch status msg) None status msg.
Proof.
  split; [reflexivity|split].
  - intros p [=].
  - intros cmd args H. cbn in H. mem_inv H.
Qed.

(** ** When the transcoder is spawned *)

Lemma post_clip_spawn (srv : Server) (clk : Clock) (req : Request) (env : Env)
    (scratch : gset string) (cmd : string) (args : list string) :
  Spawn cmd args ∈ trace (post_clip srv clk req env scratch) ->
  exists name sp,
    ffmpegAvailable srv = true /\ video req = Some name
    /\ FORMATS_get (clip_format req) = Entry sp
    /\ invalid_range (clip_start req) (clip_end req) = false
    /\ cmd = "ffmpeg"
    /\ args = clip_args (clip_start req) (sub (clip_end req) (clip_start req))
                (upload_path srv (upload_time clk) name) (codec sp)
                (clip_outputPath srv (handler_time clk) (uploaded srv clk name)
                   (clip_start req) (clip_end req) (Entry sp)).
Proof.
  destruct (ffmpegAvailable srv) eqn:Ha, (video req) as [name|] eqn:Hv.
  - destruct (FORMATS_get (clip_format req)) as [|sp|key] eqn:Hf.
    + rewrite (post_clip_invalid_format srv clk req env scratch name Ha Hv)
        by (rewrite Hf; reflexivity).
      intros H. cbn in H. mem_inv H.
    + destruct (invalid_range (clip_start req) (clip_end req)) eqn:Hr.
      * rewrite (post_clip_invalid_range srv clk req env scratch name Ha Hv)
          by (rewrite ?Hf; auto).
        intros H. cbn in H. mem_inv H.
      * rewrite (post_clip_entry srv clk req env scratch name sp Ha Hv Hf Hr).
        cbn [trace]. intros H. apply elem_of_app in H as [H|H].
        -- mem_inv H. injection H as -> ->. exists name, sp. auto 10.
        -- exfalso. revert H. apply callbacks_actions_no_spawn.
    + destruct (invalid_range (clip_start req) (clip_end req)) eqn:Hr.
      * rewrite (post_clip_invalid_range srv clk req env scratch name Ha Hv)
          by (rewrite ?Hf; auto).
        intros H. cbn in H. mem_inv H.
      * rewrite (post_clip_inherited srv clk req env scratch name key Ha Hv Hf Hr).
        intros H. cbn in H. mem_inv H.
  - rewrite (post_clip_nofile srv clk req env scratch Ha Hv).
    intros H. cbn in H. mem_inv H.
  - rewrite (post_clip_unavailable_file srv clk req env scratch name Ha Hv).
    intros H. cbn in H. mem_inv H.
  - rewrite (post_clip_unavailable_nofile srv clk req env scratch Ha Hv).
    intros H. cbn in H. mem_inv H.
Qed.

Lemma post_convert_spawn (srv : Server) (clk : Clock) (req : Request) (env : Env)
    (scratch : gset string) (cmd : string) (args : list string) :
  Spawn cmd args ∈ trace (post_convert srv clk req env scratch) ->
  exists name sp,
    ffmpegAvailable srv = true /\ video req = Some name
    /\ FORMATS_get (key_of (format req)) = Entry sp
    /\ cmd = "ffmpeg"
    /\ args = convert_args (upload_path srv (upload_time clk) name) (codec sp)
                (convert_outputPath srv (handler_time clk) (uploaded srv clk name)
                   (Entry sp)).
Proof.
  destruct (ffmpegAvailable srv) eqn:Ha, (video req) as [name|] eqn:Hv.
  - destruct (FORMATS_get (key_of (format req))) as [|sp|key] eqn:Hf.
    + rewrite (post_convert_invalid_format srv clk req env scratch name Ha Hv)
        by (rewrite Hf; reflexivity).
      intros H. cbn in H. mem_inv H.
    + rewrite (post_convert_entry srv clk req env scratch name sp Ha Hv Hf).
      cbn [trace]. intros H. apply elem_of_app in H as [H|H].
      * mem_inv H. injection H as -> ->. exists name, sp. auto 10.
      * exfalso. revert H. apply callbacks_actions_no_spawn.
    + rewrite (post_convert_inherited srv clk req env scratch name key Ha Hv Hf).
      intros H. cbn in H. mem_inv H.
  - rewrite (post_convert_nofile srv clk req env scratch Ha Hv).
    intros H. cbn in H. mem_inv H.
  - rewrite (post_convert_unavailable_file srv clk req env scratch name Ha Hv).
    intros H. cbn in H. mem_inv H.
  - rewrite (post_convert_unavailable_nofile srv clk req env scratch Ha Hv).
    intros H. cbn in H. mem_inv H.
Qed.

Import RangeFacts.

(** C2 as stated fails: a negative [endTime] is not rejected when the
    start is lower still.  A clip from -5 to -2 gets no "Invalid time
    range" response; its upload is not removed by the validation and the
    transcoder is spawned. *)
Lemma negative_end_time_accepted :
  let req := sample_clip (Some "-5") (Some "-2") in
  let w := post_clip sample_server sample_clock req sample_env ∅ in
  ltb (clip_end req) zero = true
  /\ (Respond 400 (Json "Invalid time range" None) ∉ trace w)
  /\ (exists args, Spawn "ffmpeg" args ∈ trace w)
  /\ ~ (forall srv clk req env scratch name,
          ffmpegAvailable srv = true -> video req = Some name ->
          Value_truthy (FORMATS_get (clip_format req)) = true ->
          ltb (clip_end req) zero = true ->
          Respond 400 (Json "Invalid time range" None)
          ∈ trace (post_clip srv clk req env scratch)).
Proof.
  intros req w.
  assert (Hw : trace w =
    [Created "/tmp/videolab/upload_1700000000000_movie.avi";
     Console "Clipping: movie.avi [-5s - -2s] -> clip_movie_-5.0s--2.0s.mp4";
     Spawn "ffmpeg"
       ["-ss"; "-5"; "-i"; "/tmp/videolab/upload_1700000000000_movie.avi";
        "-t"; "3"; "-y"; "-c:v"; "libx264"; "-c:a"; "aac"; "-preset"; "fast";
        "-avoid_negative_ts"; "make_zero";
        "/tmp/videolab/clip_1700000000005_clip_movie_-5.0s--2.0s.mp4"];
     Created "/tmp/videolab/clip_1700000000005_clip_movie_-5.0s--2.0s.mp4";
     Unlink "/tmp/videolab/upload_1700000000000_movie.avi";
     Download "/tmp/videolab/clip_1700000000005_clip_movie_-5.0s--2.0s.mp4"
       "clip_movie_-5.0s--2.0s.mp4";
     Unlink "/tmp/videolab/clip_1700000000005_clip_movie_-5.0s--2.0s.mp4"]).
  { vm_compute. reflexivity. }
  assert (Hno : Respond 400 (Json "Invalid time range" None) ∉ trace w).
  { rewrite Hw. intros H. mem_inv H. }
  split; [reflexivity|]. split; [exact Hno|]. split.
  - eexists. rewrite Hw. mem.
  - intros H. apply Hno.
    exact (H sample_server sample_clock req sample_env ∅ "movie.avi"
             eq_refl eq_refl eq_refl eq_refl).
Qed.

(** C2, amended: once the tool is available, a file is present and the
    format passes, [POST /api/clip] answers 400 "Invalid time range"
    exactly when [endTime] does not parse as a number or is at most the
    start (which defaults to 0).  The rejected request has its upload
    removed and nothing is spawned.  The boundary [endTime == startTime]
    is rejected, and so is a negative [endTime] against a start that is
    not negative; a negative [endTime] above a start that is lower still
    is not rejected. *)
Theorem clip_time_range_validation (srv : Server) (clk : Clock) (req : Request)
    (env : Env) (scratch : gset string) (name : string) :
  ffmpegAvailable srv = true -> video req = Some name ->
  Value_truthy (FORMATS_get (clip_format req)) = true ->
  let w := post_clip srv clk req env scratch in
  let p := upload_path srv (upload_time clk) name in
  let rejected := Respond 400 (Json "Invalid time range" None) ∈ trace w in
  (rejected <->
     (isNaN (clip_end req) = true \/ leb (clip_end req) (clip_start req) = true))
  /\ (rejected -> rejects w (Some p) 400 "Invalid time range")
  /\ (SFeqb (clip_end req) (clip_start req) = true -> rejected)
  /\ (ltb (clip_end req) zero = true -> leb zero (clip_start req) = true -> rejected)
  /\ (ltb (clip_end req) zero = true -> ltb (clip_start req) (clip_end req) = true ->
      ~ rejected).
Proof.
  intros Ha Hv Hf w p rejected.
  assert (Hrej : invalid_range (clip_start req) (clip_end req) = true ->
                 w = refused srv clk scratch name 400 "Invalid time range").
  { intros Hr. apply post_clip_invalid_range; assumption. }
  assert (Hiff : rejected <-> invalid_range (clip_start req) (clip_end req) = true).
  { split.
    - intros H. destruct (invalid_range (clip_start req) (clip_end req)) eqn:Hr;
        [reflexivity|exfalso].
      unfold rejected, w in H.
      destruct (FORMATS_get (clip_format req)) as [|sp|key] eqn:Hg;
        [discriminate Hf| |].
      + rewrite (post_clip_entry srv clk req env scratch name sp Ha Hv Hg Hr) in H.
        cbn [trace] in H. apply elem_of_app in H as [H|H].
        * mem_inv H.
        * apply callbacks_actions_respond in H. discriminate H.
      + rewrite (post_clip_inherited srv clk req env scratch name key Ha Hv Hg Hr) in H.
        cbn in H. mem_inv H.
    - intros Hr. unfold rejected. rewrite (Hrej Hr). cbn. mem. }
  assert (Hor : invalid_range (clip_start req) (clip_end req) = true <->
                (isNaN (clip_end req) = true \/ leb (clip_end req) (clip_start req) = true)).
  { unfold invalid_range. apply orb_true_iff. }
  split; [rewrite Hiff; exact Hor|].
  split; [|split; [|split]].
  - intros H. apply Hiff in H. rewrite (Hrej H). apply refused_rejects.
  - intros He. apply Hiff, Hor. right. apply eqb_leb, He.
  - intros Hn Hs. apply Hiff, Hor. right.
    apply negative_below_nonnegative; assumption.
  - intros _ Hlt H. apply Hiff in H.
    rewrite (lt_valid_range _ _ Hlt) in H. discriminate H.
Qed.

Lemma clip_time_range_validation_witness :
  Respond 400 (Json "Invalid time range" None)
  ∈ trace (post_clip sample_server sample_clock (sample_clip (Some "5") (Some "5"))
             sample_env ∅).
Proof.
  destruct (clip_time_range_validation sample_server sample_clock
              (sample_clip (Some "5") (Some "5")) sample_env ∅ "movie.avi"
              eq_refl eq_refl eq_refl) as (_ & _ & Hboundary & _).
  apply Hboundary. reflexivity.
Defined.

(** C3 as stated fails: a clip from -5 to -2 passes the validation and
    reaches the transcoder with a negative start and a negative end. *)
Lemma clip_accepts_negative_offsets :
  let req := sample_clip (Some "-5") (Some "-2") in
  let spawned :=
    Spawn "ffmpeg"
      ["-ss"; "-5"; "-i"; "/tmp/videolab/upload_1700000000000_movie.avi";
       "-t"; "3"; "-y"; "-c:v"; "libx264"; "-c:a"; "aac"; "-preset"; "fast";
       "-avoid_negative_ts"; "make_zero";
       "/tmp/videolab/clip_1700000000005_clip_movie_-5.0s--2.0s.mp4"] in
  (spawned ∈ trace (post_clip sample_server sample_clock req sample_env ∅))
  /\ ltb (clip_start req) zero = true
  /\ ltb (clip_end req) zero = true
  /\ ~ (forall srv clk req env scratch cmd args,
          Spawn cmd args ∈ trace (post_clip srv clk req env scratch) ->
          leb zero (clip_start req) = true /\ leb zero (clip_end req) = true).
Proof.
  intros req spawned.
  assert (Hs : spawned ∈ trace (post_clip sample_server sample_clock req sample_env ∅)).
  { vm_compute. mem. }
  split; [exact Hs|]. split; [reflexivity|]. split; [reflexivity|].
  intros H. destruct (H _ _ _ _ _ _ _ Hs) as [Hstart _].
  vm_compute in Hstart. discriminate Hstart.
Qed.

(** C3, amended: every clip request that reaches the transcoder has an end
    offset that is a number strictly greater than its start offset, the
    start being a number too; when the start is not negative the end is
    positive.  The sign of the start itself is not checked. *)
Theorem clip_spawn_range (srv : Server) (clk : Clock) (req : Request) (env : Env)
    (scratch : gset string) (cmd : string) (args : list string) :
  Spawn cmd args ∈ trace (post_clip srv clk req env scratch) ->
  isNaN (clip_start req) = false
  /\ isNaN (clip_end req) = false
  /\ ltb (clip_start req) (clip_end req) = true
  /\ (leb zero (clip_start req) = true -> ltb zero (clip_end req) = true).
Proof.
  intros H. apply post_clip_spawn in H as (name & sp & _ & _ & _ & Hr & _).
  pose proof (or_else_not_NaN (parseFloat (startTime req))) as Hs.
  fold (clip_start req) in Hs.
  destruct (valid_range_lt _ _ Hs Hr) as [He Hlt].
  repeat split; try assumption.
  intros H0. apply (positive_above_nonnegative (clip_start req)); assumption.
Qed.

Lemma clip_spawn_range_witness :
  ltb (clip_start (sample_clip (Some "-5") (Some "-2")))
      (clip_end (sample_clip (Some "-5") (Some "-2"))) = true.
Proof.
  apply (clip_spawn_range sample_server sample_clock
           (sample_clip (Some "-5") (Some "-2")) sample_env ∅ "ffmpeg"
           ["-ss"; "-5"; "-i"; "/tmp/videolab/upload_1700000000000_movie.avi";
            "-t"; "3"; "-y"; "-c:v"; "libx264"; "-c:a"; "aac"; "-preset"; "fast";
            "-avoid_negative_ts"; "make_zero";
            "/tmp/videolab/clip_1700000000005_clip_movie_-5.0s--2.0s.mp4"]).
  vm_compute. mem.
Defined.

(** C5: the transcoder is only ever spawned as [ffmpeg] with a list of
    discrete arguments of one form: for a conversion
    [-i <input> -y <codec args> <output>], for a clip
    [-ss <start> -i <input> -t <end - start> -y <codec args>
    -avoid_negative_ts make_zero <output>], the codec arguments being those
    of the registry entry of the format.  A request that passes validation
    (tool available, file uploaded, format an entry of the registry and,
    for a clip, a valid time range) is spawned so. *)
Theorem spawn_arguments (srv : Server) (clk : Clock) (req : Request) (env : Env)
    (scratch : gset string) :
  let convert := post_convert srv clk req env scratch in
  let clip := post_clip srv clk req env scratch in
  let convert_form name sp :=
    ["-i"; upload_path srv (upload_time clk) name; "-y"] ++ codec sp ++
    [convert_outputPath srv (handler_time clk) (uploaded srv clk name) (Entry sp)] in
  let clip_form name sp :=
    ["-ss"; toString (clip_start req);
     "-i"; upload_path srv (upload_time clk) name;
     "-t"; toString (sub (clip_end req) (clip_start req)); "-y"] ++ codec sp ++
    ["-avoid_negative_ts"; "make_zero";
     clip_outputPath srv (handler_time clk) (uploaded srv clk name)
       (clip_start req) (clip_end req) (Entry sp)] in
  (forall cmd args, Spawn cmd args ∈ trace convert ->
     exists name sp,
       video req = Some name /\ FORMATS_get (key_of (format req)) = Entry sp
       /\ cmd = "ffmpeg" /\ args = convert_form name sp)
  /\ (forall name sp,
        ffmpegAvailable srv = true -> video req = Some name ->
        FORMATS_get (key_of (format req)) = Entry sp ->
        Spawn "ffmpeg" (convert_form name sp) ∈ trace convert)
  /\ (forall cmd args, Spawn cmd args ∈ trace clip ->
        exists name sp,
          video req = Some name /\ FORMATS_get (clip_format req) = Entry sp
          /\ cmd = "ffmpeg" /\ args = clip_form name sp)
  /\ (forall name sp,
        ffmpegAvailable srv = true -> video req = Some name ->
        FORMATS_get (clip_format req) = Entry sp ->
        invalid_range (clip_start req) (clip_end req) = false ->
        Spawn "ffmpeg" (clip_form name sp) ∈ trace clip).
Proof.
  intros convert clip convert_form clip_form. split; [|split; [|split]].
  - intros cmd args H. apply post_convert_spawn in H
      as (name & sp & _ & Hv & Hf & -> & ->).
    exists name, sp. auto.
  - intros name sp Ha Hv Hf. unfold convert.
    rewrite (post_convert_entry srv clk req env scratch name sp Ha Hv Hf).
    cbn [trace]. apply elem_of_app. left. mem.
  - intros cmd args H. apply post_clip_spawn in H
      as (name & sp & _ & Hv & Hf & _ & -> & ->).
    exists name, sp. auto.
  - intros name sp Ha Hv Hf Hr. unfold clip.
    rewrite (post_clip_entry srv clk req env scratch name sp Ha Hv Hf Hr).
    cbn [trace]. apply elem_of_app. left. mem.
Qed.

Lemma spawn_arguments_witness :
  (Spawn "ffmpeg"
     ["-i"; "/tmp/videolab/upload_1700000000000_movie.avi"; "-y";
      "-vn"; "-c:a"; "libmp3lame"; "-q:a"; "2";
      "/tmp/videolab/out_1700000000005_videoLab_movie.mp3"]
   ∈ trace (post_convert sample_server sample_clock
              {| video := Some "movie.avi"; format := Some "mp3";
                 startTime := Some "1.5"; endTime := Some "4.25" |} sample_env ∅))
  /\ (Spawn "ffmpeg"
        ["-ss"; "1.5"; "-i"; "/tmp/videolab/upload_1700000000000_movie.avi";
         "-t"; "2.75"; "-y"; "-vn"; "-c:a"; "libmp3lame"; "-q:a"; "2";
         "-avoid_negative_ts"; "make_zero";
         "/tmp/videolab/clip_1700000000005_clip_movie_1.5s-4.3s.mp3"]
      ∈ trace (post_clip sample_server sample_clock
                 {| video := Some "movie.avi"; format := Some "mp3";
                    startTime := Some "1.5"; endTime := Some "4.25" |} sample_env ∅)).
Proof.
  destruct (spawn_arguments sample_server sample_clock
              {| video := Some "movie.avi"; format := Some "mp3";
                 startTime := Some "1.5"; endTime := Some "4.25" |} sample_env ∅)
    as (_ & Hconvert & _ & Hclip).
  split.
  - apply (Hconvert "movie.avi"
             {| ext := "mp3"; codec := ["-vn"; "-c:a"; "libmp3lame"; "-q:a"; "2"] |});
      reflexivity.
  - apply (Hclip "movie.avi"
             {| ext := "mp3"; codec := ["-vn"; "-c:a"; "libmp3lame"; "-q:a"; "2"] |});
      reflexivity.
Defined.

Lemma start_unusable_falsy (req : Request) :
  start_unusable req -> Number.truthy (parseFloat (startTime req)) = false.
Proof.
  intros [H|[H|H]].
  - rewrite H. reflexivity.
  - destruct (parseFloat (startTime req)); try discriminate H; reflexivity.
  - destruct (parseFloat (startTime req)) as [s|s| |s m e];
      try destruct s; try discriminate H; reflexivity.
Qed.

(** C10: in [POST /api/clip] a start field that is missing, is no number or
    is zero never causes a rejection by itself.  The start becomes 0, and
    whenever [endTime] parses to a number above 0 the request passes the
    time-range check, no "Invalid time range" response is sent, and with a
    format of the registry the request is spawned as a clip from offset 0
    ([-ss 0]) whose duration is [endTime]. *)
Theorem clip_start_defaults_to_zero (srv : Server) (clk : Clock) (req : Request)
    (env : Env) (scratch : gset string) (name : string) :
  ffmpegAvailable srv = true -> video req = Some name ->
  Value_truthy (FORMATS_get (clip_format req)) = true ->
  start_unusable req ->
  let w := post_clip srv clk req env scratch in
  clip_start req = zero
  /\ (ltb zero (clip_end req) = true ->
      invalid_range (clip_start req) (clip_end req) = false
      /\ (Respond 400 (Json "Invalid time range" None) ∉ trace w)
      /\ (forall sp,
            FORMATS_get (clip_format req) = Entry sp ->
            Spawn "ffmpeg"
              (["-ss"; "0"; "-i"; upload_path srv (upload_time clk) name;
                "-t"; toString (clip_end req); "-y"] ++ codec sp ++
               ["-avoid_negative_ts"; "make_zero";
                clip_outputPath srv (handler_time clk) (uploaded srv clk name)
                  zero (clip_end req) (Entry sp)]) ∈ trace w)).
Proof.
  intros Ha Hv Hf Hs w.
  assert (H0 : clip_start req = zero).
  { unfold clip_start. apply or_else_falsy, start_unusable_falsy, Hs. }
  split; [exact H0|].
  intros He.
  assert (Hr : invalid_range (clip_start req) (clip_end req) = false).
  { rewrite H0. apply lt_valid_range, He. }
  split; [exact Hr|]. split.
  - unfold w. destruct (FORMATS_get (clip_format req)) as [|sp|key] eqn:Hg;
      [discriminate Hf| |].
    + rewrite (post_clip_entry srv clk req env scratch name sp Ha Hv Hg Hr).
      cbn [trace]. intros H. apply elem_of_app in H as [H|H].
      * mem_inv H.
      * apply callbacks_actions_respond in H. discriminate H.
    + rewrite (post_clip_inherited srv clk req env scratch name key Ha Hv Hg Hr).
      intros H. cbn in H. mem_inv H.
  - intros sp Hg. unfold w.
    rewrite (post_clip_entry srv clk req env scratch name sp Ha Hv Hg Hr).
    cbn [trace]. rewrite H0, (sub_zero _ He).
    apply elem_of_app. left. mem.
Qed.

Lemma clip_start_defaults_to_zero_witness :
  Spawn "ffmpeg"
    ["-ss"; "0"; "-i"; "/tmp/videolab/upload_1700000000000_movie.avi";
     "-t"; "12.5"; "-y"; "-c:v"; "libx264"; "-c:a"; "aac"; "-preset"; "fast";
     "-avoid_negative_ts"; "make_zero";
     "/tmp/videolab/clip_1700000000005_clip_movie_0.0s-12.5s.mp4"]
  ∈ trace (post_clip sample_server sample_clock
             (sample_clip (Some "soon") (Some "12.5")) sample_env ∅).
Proof.
  destruct (clip_start_defaults_to_zero sample_server sample_clock
              (sample_clip (Some "soon") (Some "12.5")) sample_env ∅ "movie.avi"
              eq_refl eq_refl eq_refl (or_intror (or_introl eq_refl)))
    as [_ H].
  destruct (H eq_refl) as (_ & _ & Hspawn).
  apply (Hspawn {| ext := "mp4";
                   codec := ["-c:v"; "libx264"; "-c:a"; "aac"; "-preset"; "fast"] |}).
  reflexivity.
Defined.

Lemma FORMATS_get_unknown (k : string) :
  ~ In k format_keys -> ~ In k Object_prototype -> FORMATS_get k = Undefined.
Proof.
  intros Hown Hproto. unfold FORMATS_get.
  destruct (own_property k FORMATS) as [f|] eqn:Hf.
  - apply own_property_FORMATS in Hf as [Hin _]. contradiction.
  - destruct (existsb (String.eqb k) Object_prototype) eqn:E; [|reflexivity].
    exfalso. apply Hproto.
    apply existsb_exists in E as (x & Hx & Hxk).
    apply String.eqb_eq in Hxk. subst x. exact Hx.
Qed.

(** A member of [Object.prototype] is no key of the registry, and the
    lookup finds it all the same. *)
Lemma FORMATS_get_prototype (k : string) :
  In k Object_prototype -> FORMATS_get k = Inherited k /\ ~ In k format_keys.
Proof.
  unfold Object_prototype. cbn [In]. intros H.
  repeat (destruct H as [<-|H]; [split; [reflexivity|cbn; intuition discriminate]|]).
  destruct H.
Qed.

(** C4, on the code as it is.  [POST /api/convert] checks the tool first,
    then the file, then the format.  Without the tool the answer is 500
    "FFmpeg is not installed on the server" whatever the rest of the
    request is; with the tool and no file it is 400 "No video file
    provided" whatever the format is; with tool and file and a format
    that is neither a key of the registry nor a member of
    [Object.prototype] it is 400 "Invalid format".  Each time the upload,
    when there is one, is removed before the response, and nothing is
    spawned.  But a format that names a member of [Object.prototype],
    which is no format of the registry either, is not refused: the lookup
    is truthy, the handler throws while it builds the arguments, the
    answer is the error page of status 500, and the upload is neither
    unlinked nor gone.  [format=constructor] is such a request. *)
Theorem convert_validation_misses_inherited_key :
  (forall srv clk req env scratch,
     let w := post_convert srv clk req env scratch in
     let upload := option_map (upload_path srv (upload_time clk)) (video req) in
     (ffmpegAvailable srv = false ->
        rejects w upload 500 "FFmpeg is not installed on the server")
     /\ (ffmpegAvailable srv = true -> video req = None ->
           rejects w None 400 "No video file provided")
     /\ (ffmpegAvailable srv = true -> video req <> None ->
           ~ In (key_of (format req)) format_keys ->
           ~ In (key_of (format req)) Object_prototype ->
           rejects w upload 400 "Invalid format"))
  /\ (forall srv clk req env scratch name,
        ffmpegAvailable srv = true -> video req = Some name ->
        In (key_of (format req)) Object_prototype ->
        let w := post_convert srv clk req env scratch in
        let p := upload_path srv (upload_time clk) name in
        ~ In (key_of (format req)) format_keys
        /\ ~ rejects w (Some p) 400 "Invalid format"
        /\ trace w = [Created p; Respond 500 ErrorPage]
        /\ (Unlink p ∉ trace w)
        /\ p ∈ files w)
  /\ (let w := post_convert sample_server sample_clock
                 {| video := Some "movie.avi"; format := Some "constructor";
                    startTime := None; endTime := None |} sample_env ∅ in
      ~ In "constructor" format_keys
      /\ trace w = [Created "/tmp/videolab/upload_1700000000000_movie.avi";
                    Respond 500 ErrorPage]
      /\ "/tmp/videolab/upload_1700000000000_movie.avi" ∈ files w).
Proof.
  assert (Hbad : forall srv clk req env scratch name,
            ffmpegAvailable srv = true -> video req = Some name ->
            In (key_of (format req)) Object_prototype ->
            let w := post_convert srv clk req env scratch in
            let p := upload_path srv (upload_time clk) name in
            ~ In (key_of (format req)) format_keys
            /\ ~ rejects w (Some p) 400 "Invalid format"
            /\ trace w = [Created p; Respond 500 ErrorPage]
            /\ (Unlink p ∉ trace w)
            /\ p ∈ files w).
  { intros srv clk req env scratch name Ha Hv Hk w p.
    destruct (FORMATS_get_prototype _ Hk) as [Hget Hnot].
    assert (Hw : w = {| files := {[p]} ∪ scratch; headersSent := true;
                        trace := [Created p; Respond 500 ErrorPage] |}).
    { exact (post_convert_inherited srv clk req env scratch name _ Ha Hv Hget). }
    split; [exact Hnot|]. rewrite Hw. cbn [trace files].
    split; [|split; [reflexivity|split]].
    - intros [Ht _]. cbn in Ht. discriminate Ht.
    - intros H. mem_inv H.
    - apply elem_of_union. left. apply elem_of_singleton. reflexivity. }
  split; [|split; [exact Hbad|]].
  - intros srv clk req env scratch w upload. split; [|split].
    + intros Ha. unfold upload, w. destruct (video req) as [name|] eqn:Hv.
      * rewrite (post_convert_unavailable_file srv clk req env scratch name Ha Hv).
        apply refused_rejects.
      * rewrite (post_convert_unavailable_nofile srv clk req env scratch Ha Hv).
        apply answered_rejects.
    + intros Ha Hv. unfold w.
      rewrite (post_convert_nofile srv clk req env scratch Ha Hv).
      apply answered_rejects.
    + intros Ha Hv Hown Hproto. unfold upload, w.
      destruct (video req) as [name|] eqn:Hn; [|contradiction].
      rewrite (post_convert_invalid_format srv clk req env scratch name Ha Hn)
        by (rewrite (FORMATS_get_unknown _ Hown Hproto); reflexivity).
      apply refused_rejects.
  - intros w.
    destruct (Hbad sample_server sample_clock
                {| video := Some "movie.avi"; format := Some "constructor";
                   startTime := None; endTime := None |} sample_env ∅ "movie.avi"
                eq_refl eq_refl ltac:(cbn; auto))
      as (Hnot & _ & Ht & _ & Hin).
    split; [exact Hnot|]. split; [exact Ht|exact Hin].
Qed.

(** ** Scratch files *)

Lemma refused_cleans_up (srv : Server) (clk : Clock) (scratch : gset string)
    (name : string) (status : Z) (msg : string) :
  cleans_up (refused srv clk scratch name status msg).
Proof.
  intros p H. cbn in H. mem_inv H. injection H as ->. split.
  - cbn. mem.
  - cbn. intros Hin. apply elem_of_difference in Hin as [_ Hin].
    apply Hin, elem_of_singleton. reflexivity.
Qed.

Lemma answered_cleans_up (scratch : gset string) (status : Z) (msg : string) :
  cleans_up (answered scratch status msg).
Proof. intros p H. cbn in H. mem_inv H. Qed.

Lemma spawned_cleans_up (j : Job) (env : Env) (f : gset string) (pre : list Action) :
  ends (child env) = true -> completes (delivery env) = true ->
  (forall p, Created p ∈ pre -> p = inputPath j) ->
  cleans_up {| files := callbacks_files j env f; headersSent := true;
               trace := pre ++ callbacks_actions j env f |}.
Proof.
  intros Hends Hd Hpre p H. cbn [trace files] in *.
  apply elem_of_app in H as [H|H].
  - apply Hpre in H. subst p. split; [|apply callbacks_files_input, Hends].
    apply elem_of_app. right. apply callbacks_actions_unlink_input, Hends.
  - apply (callbacks_actions_created j env f p Hends) in H as (-> & chunks & code & Hc).
    destruct (callbacks_files_output j env f chunks code Hends Hd Hc) as [Hgone Hunlink].
    split; [|exact Hgone].
    apply elem_of_app. right. exact Hunlink.
Qed.

(** On every path that ends but the one of an inherited key,
    [POST /api/convert] removes what it created: after a rejection, a
    failed conversion, a spawn failure, a complete download and a failed
    one. *)
Lemma post_convert_cleans_up (srv : Server) (clk : Clock) (req : Request)
    (env : Env) (scratch : gset string) :
  ends (child env) = true -> completes (delivery env) = true ->
  (forall key, FORMATS_get (key_of (format req)) <> Inherited key) ->
  cleans_up (post_convert srv clk req env scratch).
Proof.
  intros Hends Hd Hk.
  destruct (ffmpegAvailable srv) eqn:Ha, (video req) as [name|] eqn:Hv.
  - destruct (FORMATS_get (key_of (format req))) as [|sp|key] eqn:Hf.
    + rewrite (post_convert_invalid_format srv clk req env scratch name Ha Hv)
        by (rewrite Hf; reflexivity).
      apply refused_cleans_up.
    + rewrite (post_convert_entry srv clk req env scratch name sp Ha Hv Hf), Hends.
      apply spawned_cleans_up; [exact Hends|exact Hd|].
      intros p H. mem_inv H. injection H as ->. reflexivity.
    + destruct (Hk key). reflexivity.
  - rewrite (post_convert_nofile srv clk req env scratch Ha Hv).
    apply answered_cleans_up.
  - rewrite (post_convert_unavailable_file srv clk req env scratch name Ha Hv).
    apply refused_cleans_up.
  - rewrite (post_convert_unavailable_nofile srv clk req env scratch Ha Hv).
    apply answered_cleans_up.
Qed.

Lemma post_clip_cleans_up (srv : Server) (clk : Clock) (req : Request)
    (env : Env) (scratch : gset string) :
  ends (child env) = true -> completes (delivery env) = true ->
  (forall key, FORMATS_get (clip_format req) <> Inherited key) ->
  cleans_up (post_clip srv clk req env scratch).
Proof.
  intros Hends Hd Hk.
  destruct (ffmpegAvailable srv) eqn:Ha, (video req) as [name|] eqn:Hv.
  - destruct (FORMATS_get (clip_format req)) as [|sp|key] eqn:Hf.
    + rewrite (post_clip_invalid_format srv clk req env scratch name Ha Hv)
        by (rewrite Hf; reflexivity).
      apply refused_cleans_up.
    + destruct (invalid_range (clip_start req) (clip_end req)) eqn:Hr.
      * rewrite (post_clip_invalid_range srv clk req env scratch name Ha Hv)
          by (rewrite ?Hf; auto).
        apply refused_cleans_up.
      * rewrite (post_clip_entry srv clk req env scratch name sp Ha Hv Hf Hr), Hends.
        apply spawned_cleans_up; [exact Hends|exact Hd|].
        intros p H. mem_inv H. injection H as ->. reflexivity.
    + destruct (Hk key). reflexivity.
  - rewrite (post_clip_nofile srv clk req env scratch Ha Hv).
    apply answered_cleans_up.
  - rewrite (post_clip_unavailable_file srv clk req env scratch name Ha Hv).
    apply refused_cleans_up.
  - rewrite (post_clip_unavailable_nofile srv clk req env scratch Ha Hv).
    apply answered_cleans_up.
Qed.

(** C1, on the code as it is: a request whose format is a name that
    [FORMATS] inherits passes the format check, the handler throws before
    it spawns, and the upload is neither unlinked nor gone when the
    response (the error page) has been sent.  Both endpoints do it. *)
Theorem upload_left_behind_on_inherited_key :
  let p := "/tmp/videolab/upload_1700000000000_movie.avi" in
  let convert :=
    post_convert sample_server sample_clock
      {| video := Some "movie.avi"; format := Some "constructor";
         startTime := None; endTime := None |} sample_env ∅ in
  let clip :=
    post_clip sample_server sample_clock
      {| video := Some "movie.avi"; format := Some "toString";
         startTime := Some "0"; endTime := Some "10" |} sample_env ∅ in
  ~ cleans_up convert
  /\ ~ cleans_up clip
  /\ trace convert = [Created p; Respond 500 ErrorPage]
  /\ trace clip = [Created p; Respond 500 ErrorPage]
  /\ p ∈ files convert
  /\ p ∈ files clip.
Proof.
  intros p convert clip.
  assert (Hc : trace convert = [Created p; Respond 500 ErrorPage]) by reflexivity.
  assert (Hl : trace clip = [Created p; Respond 500 ErrorPage]) by reflexivity.
  split; [|split; [|split; [exact Hc|split; [exact Hl|split]]]].
  - intros H. destruct (H p) as [Hu _]; [rewrite Hc; mem|].
    rewrite Hc in Hu. mem_inv Hu.
  - intros H. destruct (H p) as [Hu _]; [rewrite Hl; mem|].
    rewrite Hl in Hu. mem_inv Hu.
  - unfold convert.
    rewrite (post_convert_inherited sample_server sample_clock
               {| video := Some "movie.avi"; format := Some "constructor";
                  startTime := None; endTime := None |} sample_env ∅
               "movie.avi" "constructor" eq_refl eq_refl eq_refl).
    apply elem_of_union. left. apply elem_of_singleton. reflexivity.
  - unfold clip.
    rewrite (post_clip_inherited sample_server sample_clock
               {| video := Some "movie.avi"; format := Some "toString";
                  startTime := Some "0"; endTime := Some "10" |} sample_env ∅
               "movie.avi" "toString" eq_refl eq_refl eq_refl eq_refl).
    apply elem_of_union. left. apply elem_of_singleton. reflexivity.
Qed.

(** ** The port at startup *)

(** Leading white space is skipped whatever its kind: here a no-break
    space (U+00A0), a byte order mark (U+FEFF) and a space before the
    digits.  A byte that only starts such a character is not skipped. *)
Example parse_skips_white_space :
  let nbsp := [ascii_of_N 194; ascii_of_N 160] in
  let bom := [ascii_of_N 239; ascii_of_N 187; ascii_of_N 191] in
  parseFloat_chars (nbsp ++ bom ++ list_ascii_of_string " 2.5") = of_decimal false 25 (-1)
  /\ parseInt_chars (bom ++ nbsp ++ list_ascii_of_string "8080") = of_Z 8080
  /\ parseFloat_chars (ascii_of_N 194 :: list_ascii_of_string "2.5") = NaN.
Proof. repeat split; reflexivity. Qed.

Lemma to_integer_zero (p : number) :
  to_integer p = Some 0 -> exists s, p = S754_zero s.
Proof.
  destruct p as [s|s| |s m e]; simpl; try discriminate.
  - intros _. exists s. reflexivity.
  - intros H. exfalso.
    destruct (0 <=? e) eqn:He; simpl in H.
    + apply Z.leb_le in He.
      assert (0 < Z.pos m * 2 ^ e) by (apply Z.mul_pos_pos; [lia|apply Z.pow_pos_nonneg; lia]).
      destruct s; injection H as H; lia.
    + apply Z.leb_gt in He.
      assert (Hd : 0 < 2 ^ (- e)) by (apply Z.pow_pos_nonneg; lia).
      destruct (Z.pos m mod 2 ^ (- e) =? 0) eqn:Hm; simpl in H; [|discriminate H].
      apply Z.eqb_eq in Hm.
      pose proof (Z.div_mod (Z.pos m) (2 ^ (- e)) ltac:(lia)) as Hdm.
      destruct s; injection H as H; nia.
Qed.

(** A port that [listen] accepts and the range check lets through is one
    of the ports the server means to accept. *)
Lemma legal_in_range_valid (p : number) :
  legal_port p = true -> out_of_range p = false -> valid_port p = true.
Proof.
  unfold legal_port, valid_port, out_of_range.
  destruct (to_integer p) as [z|] eqn:Hz; [|discriminate].
  intros Hl Hr. apply andb_true_iff in Hl as [H0 H1].
  apply Z.leb_le in H0. rewrite H1, andb_true_r. apply Z.leb_le.
  destruct (Z.eq_dec z 0) as [->|]; [|lia].
  apply to_integer_zero in Hz as [s ->]. destruct s; discriminate Hr.
Qed.

(** C9 as stated fails: with a help flag the script prints the usage and
    exits with status 0 before it looks at the port, also when the port
    given is out of range. *)
Lemma help_exits_zero_despite_port :
  let argv := ["node"; "server.js"; "70000"; "--help"] in
  getPort argv None = of_Z 70000
  /\ valid_port (getPort argv None) = false
  /\ startup argv None = Exited 0
  /\ ~ (forall argv env_PORT,
          valid_port (getPort argv env_PORT) = false ->
          exists status, status <> 0 /\ startup argv env_PORT = Exited status).
Proof.
  intros argv. split; [reflexivity|]. split; [reflexivity|]. split; [reflexivity|].
  intros H. destruct (H argv None eq_refl) as (status & Hne & Hs).
  vm_compute in Hs. injection Hs as <-. apply Hne. reflexivity.
Qed.

(** C9, amended: without a help flag, every configuration whose resolved
    port is not an integer from 1 to 65535 ends the process with status 1
    before a socket listens: the range check exits for a number below 1 or
    above 65535, and a port that is no number passes that check but is
    refused by [listen], whose exception ends the process. *)
Theorem invalid_port_exits (argv : list string) (env_PORT : option string) :
  help_requested argv = false ->
  valid_port (getPort argv env_PORT) = false ->
  startup argv env_PORT = Exited 1.
Proof.
  intros Hh Hv. unfold startup. rewrite Hh.
  destruct (out_of_range (getPort argv env_PORT)) eqn:Hr; [reflexivity|].
  unfold listen.
  destruct (legal_port (getPort argv env_PORT)) eqn:Hl; [|reflexivity].
  rewrite (legal_in_range_valid _ Hl Hr) in Hv. discriminate Hv.
Qed.

Lemma invalid_port_exits_witness :
  startup ["node"; "server.js"; "--port=abc"] None = Exited 1
  /\ startup ["node"; "server.js"; "70000"] (Some "8080") = Exited 1.
Proof.
  split.
  - apply (invalid_port_exits ["node"; "server.js"; "--port=abc"] None);
      reflexivity.
  - apply (invalid_port_exits ["node"; "server.js"; "70000"] (Some "8080"));
      reflexivity.
Defined.

(** A port argument that is no number is not caught by the range check of
    the script; it is [listen] that refuses it. *)
Example nan_port_passes_range_check :
  getPort ["node"; "server.js"; "--port=abc"] None = NaN
  /\ out_of_range NaN = false
  /\ listen NaN = Exited 1.
Proof. repeat split; reflexivity. Qed.

Example startup_samples :
  startup ["node"; "server.js"; "8080"] None = Listening (of_Z 8080)
  /\ startup ["node"; "server.js"; "-p"; "9000"] None = Listening (of_Z 9000)
  /\ startup ["node"; "server.js"; "--port=9000"] None = Listening (of_Z 9000)
  /\ startup ["node"; "server.js"] (Some "4000") = Listening (of_Z 4000)
  /\ startup ["node"; "server.js"] None = Listening (of_Z 3000)
  /\ startup ["node"; "server.js"; "0"] None = Exited 1
  /\ startup ["node"; "server.js"] (Some "-4") = Exited 1
  /\ startup ["node"; "server.js"; "-h"] None = Exited 0.
Proof. repeat split; reflexivity. Qed.

(** A spawn failure whose [error] event is followed by a [close] event:
    the upload is unlinked by both callbacks, and the second response is
    the exception nothing catches. *)
Example close_after_spawn_error :
  trace (post_convert sample_server sample_clock
           {| video := Some "movie.avi"; format := Some "wav";
              startTime := None; endTime := None |}
           {| child := SpawnFails (Some 2%positive); delivery := Delivered |} ∅)
  = [Created "/tmp/videolab/upload_1700000000000_movie.avi";
     Console "Converting: movie.avi -> videoLab_movie.wav";
     Spawn "ffmpeg"
       ["-i"; "/tmp/videolab/upload_1700000000000_movie.avi"; "-y";
        "-vn"; "-c:a"; "pcm_s16le";
        "/tmp/videolab/out_1700000000005_videoLab_movie.wav"];
     Console "FFmpeg spawn error:";
     Unlink "/tmp/videolab/upload_1700000000000_movie.avi";
     Respond 500 (Json "Failed to start conversion" None);
     Unlink "/tmp/videolab/upload_1700000000000_movie.avi";
     ConsoleError "FFmpeg error:" [];
     Uncaught].
Proof. vm_compute. reflexivity. Qed.


(** * Further properties *)

(** ** Answers *)

Lemma callbacks_answers (j : Job) (env : Env) (f : gset string) :
  (List.length (List.filter is_respond (callbacks_actions j env f)) <= 1)%nat
  /\ existsb is_answer (callbacks_actions j env f) = ends (child env).
Proof. actions_cases j env f; split; cbn; (lia || reflexivity). Qed.

(** A request that spawned: the answer is the one of the callbacks. *)
Lemma spawned_answers_once (j : Job) (env : Env) (f : gset string)
    (pre : list Action) (cmd : string) (args : list string) :
  List.filter is_respond pre = [] -> existsb is_answer pre = false ->
  Spawn cmd args ∈ pre ->
  answers_once env {| files := callbacks_files j env f;
                      headersSent := ends (child env);
                      trace := pre ++ callbacks_actions j env f |}.
Proof.
  intros Hpre Hnone Hspawn. destruct (callbacks_answers j env f) as [H1 H2].
  unfold answers_once. cbn [trace headersSent].
  assert (He : existsb is_answer (pre ++ callbacks_actions j env f) = ends (child env)).
  { rewrite existsb_app, Hnone, H2. reflexivity. }
  split; [|split].
  - rewrite List.filter_app, Hpre. exact H1.
  - rewrite He. split.
    + intros H. split; [exact H|]. exists cmd, args. apply elem_of_app. left. exact Hspawn.
    + intros [H _]. exact H.
  - symmetry. exact He.
Qed.

(** A request that did not spawn and wrote its one response. *)
Lemma unspawned_answers_once (env : Env) (w : World) :
  (forall cmd args, Spawn cmd args ∉ trace w) ->
  (List.length (List.filter is_respond (trace w)) <= 1)%nat ->
  existsb is_answer (trace w) = true -> headersSent w = true ->
  answers_once env w.
Proof.
  intros Hno Hone Hans Hsent. unfold answers_once. split; [exact Hone|split].
  - rewrite Hans. split; [discriminate|].
    intros [_ (cmd & args & H)]. destruct (Hno cmd args H).
  - rewrite Hans. exact Hsent.
Qed.

Ltac unspawned :=
  apply unspawned_answers_once;
  [ intros cmd args H; cbn in H; mem_inv H
  | cbn; lia | reflexivity | reflexivity ].

(** X1: no request is answered twice, and a request stays without an
    answer exactly when it spawned a transcoder that never ends.  Whatever
    the request, the state of the server, the child process and the
    transfer, neither endpoint writes two responses (the second one of a
    [close] that follows a spawn error is the exception, not a response).
    A request that is refused, or whose handler throws, or whose child
    emits [close] or [error], ends with the response started, after an
    error response or the start of the download; a request whose child
    emits neither event is never answered: no response, no download, the
    response not started.  The handlers set no timer. *)
Theorem answered_once_unless_child_hangs (srv : Server) (clk : Clock) (req : Request)
    (env : Env) (scratch : gset string) :
  answers_once env (post_convert srv clk req env scratch)
  /\ answers_once env (post_clip srv clk req env scratch).
Proof.
  split.
  - destruct (ffmpegAvailable srv) eqn:Ha, (video req) as [name|] eqn:Hv.
    + destruct (FORMATS_get (key_of (format req))) as [|sp|key] eqn:Hf.
      * rewrite (post_convert_invalid_format srv clk req env scratch name Ha Hv)
          by (rewrite Hf; reflexivity).
        unspawned.
      * rewrite (post_convert_entry srv clk req env scratch name sp Ha Hv Hf).
        eapply spawned_answers_once; [reflexivity|reflexivity|mem].
      * rewrite (post_convert_inherited srv clk req env scratch name key Ha Hv Hf).
        unspawned.
    + rewrite (post_convert_nofile srv clk req env scratch Ha Hv). unspawned.
    + rewrite (post_convert_unavailable_file srv clk req env scratch name Ha Hv).
      unspawned.
    + rewrite (post_convert_unavailable_nofile srv clk req env scratch Ha Hv).
      unspawned.
  - destruct (ffmpegAvailable srv) eqn:Ha, (video req) as [name|] eqn:Hv.
    + destruct (FORMATS_get (clip_format req)) as [|sp|key] eqn:Hf.
      * rewrite (post_clip_invalid_format srv clk req env scratch name Ha Hv)
          by (rewrite Hf; reflexivity).
        unspawned.
      * destruct (invalid_range (clip_start req) (clip_end req)) eqn:Hr.
        -- rewrite (post_clip_invalid_range srv clk req env scratch name Ha Hv)
             by (rewrite ?Hf; auto).
           unspawned.
        -- rewrite (post_clip_entry srv clk req env scratch name sp Ha Hv Hf Hr).
           eapply spawned_answers_once; [reflexivity|reflexivity|mem].
      * destruct (invalid_range (clip_start req) (clip_end req)) eqn:Hr.
        -- rewrite (post_clip_invalid_range srv clk req env scratch name Ha Hv)
             by (rewrite ?Hf; auto).
           unspawned.
        -- rewrite (post_clip_inherited srv clk req env scratch name key Ha Hv Hf Hr).
           unspawned.
    + rewrite (post_clip_nofile srv clk req env scratch Ha Hv). unspawned.
    + rewrite (post_clip_unavailable_file srv clk req env scratch name Ha Hv).
      unspawned.
    + rewrite (post_clip_unavailable_nofile srv clk req env scratch Ha Hv).
      unspawned.
Qed.

(** A conversion whose child never ends: the request is left with its
    upload and the output in the scratch directory, and without an
    answer. *)
Example child_never_ends :
  let w := post_convert sample_server sample_clock
             {| video := Some "movie.avi"; format := Some "wav";
                startTime := None; endTime := None |}
             {| child := Hangs [Str.units "frame=1"] true; delivery := Delivered |} ∅ in
  trace w
  = [Created "/tmp/videolab/upload_1700000000000_movie.avi";
     Console "Converting: movie.avi -> videoLab_movie.wav";
     Spawn "ffmpeg"
       ["-i"; "/tmp/videolab/upload_1700000000000_movie.avi"; "-y";
        "-vn"; "-c:a"; "pcm_s16le";
        "/tmp/videolab/out_1700000000005_videoLab_movie.wav"];
     Created "/tmp/videolab/out_1700000000005_videoLab_movie.wav"]
  /\ headersSent w = false
  /\ "/tmp/videolab/upload_1700000000000_movie.avi" ∈ files w
  /\ "/tmp/videolab/out_1700000000005_videoLab_movie.wav" ∈ files w.
Proof.
  intros w.
  assert (Hw : w = {| files := {["/tmp/videolab/out_1700000000005_videoLab_movie.wav"]}
                               ∪ ({["/tmp/videolab/upload_1700000000000_movie.avi"]} ∪ ∅);
                      headersSent := false;
                      trace := [Created "/tmp/videolab/upload_1700000000000_movie.avi";
                                Console "Converting: movie.avi -> videoLab_movie.wav";
                                Spawn "ffmpeg"
                                  ["-i"; "/tmp/videolab/upload_1700000000000_movie.avi"; "-y";
                                   "-vn"; "-c:a"; "pcm_s16le";
                                   "/tmp/videolab/out_1700000000005_videoLab_movie.wav"];
                                Created "/tmp/videolab/out_1700000000005_videoLab_movie.wav"] |}).
  { unfold w.
    rewrite (post_convert_entry sample_server sample_clock
               {| video := Some "movie.avi"; format := Some "wav";
                  startTime := None; endTime := None |}
               {| child := Hangs [Str.units "frame=1"] true; delivery := Delivered |} ∅ "movie.avi"
               {| ext := "wav"; codec := ["-vn"; "-c:a"; "pcm_s16le"] |}
               eq_refl eq_refl eq_refl).
    reflexivity. }
  rewrite Hw. cbn [trace headersSent files].
  split; [reflexivity|]. split; [reflexivity|]. split.
  - apply elem_of_union. right. apply elem_of_union. left.
    apply elem_of_singleton. reflexivity.
  - apply elem_of_union. left. apply elem_of_singleton. reflexivity.
Qed.

(** ** Decimal texts *)

Module DecimalFacts.
Import Chars.

Lemma digit_val_char (d : Z) : 0 <= d < 10 -> digit_val (digit_char d) = d.
Proof.
  intros H. unfold digit_val, digit_char.
  rewrite N_ascii_embedding by lia. lia.
Qed.

Lemma is_digit_char (d : Z) : 0 <= d < 10 -> is_digit (digit_char d) = true.
Proof.
  intros H. unfold is_digit, digit_char.
  rewrite N_ascii_embedding by lia.
  apply andb_true_iff. split; apply N.leb_le; lia.
Qed.

Lemma decimal_aux_val (fuel : nat) : forall n acc,
  0 <= n < 2 ^ Z.of_nat fuel ->
  val_from 0 (decimal_aux fuel n acc) = val_from n acc.
Proof.
  induction fuel as [|f IH]; intros n acc Hn.
  - simpl in *. replace n with 0 by lia. reflexivity.
  - cbn [decimal_aux]. destruct (n <? 10) eqn:Hlt.
    + apply Z.ltb_lt in Hlt. unfold val_from at 1. cbn [fold_left].
      rewrite Z.mod_small, digit_val_char by lia. reflexivity.
    + apply Z.ltb_ge in Hlt. rewrite IH.
      * unfold val_from. cbn [fold_left].
        rewrite digit_val_char by (apply Z.mod_pos_bound; lia).
        f_equal. pose proof (Z.div_mod n 10 ltac:(lia)). lia.
      * rewrite Nat2Z.inj_succ, Z.pow_succ_r in Hn by lia.
        split; [apply Z.div_pos; lia|].
        apply Z.div_lt_upper_bound; lia.
Qed.

Lemma decimal_aux_digits (fuel : nat) : forall n acc,
  0 <= n -> forallb is_digit acc = true ->
  forallb is_digit (decimal_aux fuel n acc) = true.
Proof.
  induction fuel as [|f IH]; intros n acc Hn Hacc; [exact Hacc|].
  cbn [decimal_aux].
  assert (Hd : is_digit (digit_char (n mod 10)) = true)
    by (apply is_digit_char, Z.mod_pos_bound; lia).
  destruct (n <? 10).
  - cbn [forallb]. rewrite Hd, Hacc. reflexivity.
  - apply IH; [apply Z.div_pos; lia|]. cbn [forallb]. rewrite Hd, Hacc. reflexivity.
Qed.

Lemma decimal_aux_nonempty (fuel : nat) : forall n acc,
  decimal_aux (S fuel) n acc <> [].
Proof.
  induction fuel as [|f IH]; intros n acc.
  - cbn. destruct (n <? 10); discriminate.
  - cbn [decimal_aux]. destruct (n <? 10); [discriminate|]. apply IH.
Qed.

(** Reading the decimal text of a number gives the number back. *)
Lemma digits_val_decimal (n : Z) : 0 <= n -> digits_val (decimal n) = n.
Proof.
  intros Hn. unfold decimal. change digits_val with (val_from 0).
  rewrite decimal_aux_val; [reflexivity|].
  split; [exact Hn|].
  destruct (Z.eq_dec n 0) as [->|Hz]; [reflexivity|].
  rewrite Nat2Z.inj_succ, Z2Nat.id by (apply Z.log2_nonneg).
  apply Z.log2_spec. lia.
Qed.

Lemma decimal_digits (n : Z) : 0 <= n -> forallb is_digit (decimal n) = true.
Proof. intros Hn. apply decimal_aux_digits; [exact Hn|reflexivity]. Qed.

Lemma decimal_nonempty (n : Z) : decimal n <> [].
Proof. apply decimal_aux_nonempty. Qed.

Lemma span_digits_all (l rest : list ascii) :
  forallb is_digit l = true ->
  match rest with c :: _ => is_digit c = false | [] => True end ->
  span_digits (l ++ rest) = (l, rest).
Proof.
  intros Hl Hr. induction l as [|c l IH]; cbn.
  - destruct rest as [|c r]; [reflexivity|]. cbn. rewrite Hr. reflexivity.
  - cbn in Hl. apply andb_true_iff in Hl as [Hc Hl]. rewrite Hc, (IH Hl). reflexivity.
Qed.

End DecimalFacts.

Import DecimalFacts.

Lemma is_digit_not_space (c : ascii) : Chars.is_digit c = true -> Chars.is_space c = false.
Proof.
  unfold Chars.is_digit, Chars.is_space. intros H.
  apply andb_true_iff in H as [H1 H2]. apply N.leb_le in H1. apply N.leb_le in H2.
  apply orb_false_iff. split.
  - apply andb_false_iff. right. apply N.leb_gt. lia.
  - apply N.eqb_neq. lia.
Qed.

Lemma is_digit_ascii (c : ascii) :
  Chars.is_digit c = true -> (N_of_ascii c <? 128)%N = true.
Proof.
  unfold Chars.is_digit. intros H.
  apply andb_true_iff in H as [_ H]. apply N.leb_le in H. apply N.ltb_lt. lia.
Qed.

(** Nothing is skipped in front of an ASCII character that is no white
    space. *)
Lemma skip_spaces_ascii (c : ascii) (r : list ascii) :
  (N_of_ascii c <? 128)%N = true -> Chars.is_space c = false ->
  Chars.skip_spaces (c :: r) = c :: r.
Proof.
  intros Ha Hs. apply N.ltb_lt in Ha. cbn [Chars.skip_spaces]. rewrite Hs.
  destruct r as [|b r]; [reflexivity|].
  assert (H2 : Chars.is_space2 c b = false).
  { unfold Chars.is_space2. replace (N_of_ascii c =? 194)%N with false; [reflexivity|].
    symmetry. apply N.eqb_neq. lia. }
  rewrite H2. destruct r as [|d r]; [reflexivity|].
  assert (H3 : Chars.is_space3 c b d = false).
  { unfold Chars.is_space3. cbv zeta.
    replace (N_of_ascii c =? 225)%N with false by (symmetry; apply N.eqb_neq; lia).
    replace (N_of_ascii c =? 226)%N with false by (symmetry; apply N.eqb_neq; lia).
    replace (N_of_ascii c =? 227)%N with false by (symmetry; apply N.eqb_neq; lia).
    replace (N_of_ascii c =? 239)%N with false by (symmetry; apply N.eqb_neq; lia).
    reflexivity. }
  rewrite H3. reflexivity.
Qed.

Lemma is_digit_not (c d : ascii) :
  Chars.is_digit c = true -> Chars.is_digit d = false -> Ascii.eqb c d = false.
Proof.
  intros Hc Hd. destruct (Ascii.eqb_spec c d) as [->|]; [congruence|reflexivity].
Qed.

(** [parseInt] reads a string of digits as the number they write. *)
Lemma parseInt_chars_digits (l : list ascii) :
  l <> [] -> forallb Chars.is_digit l = true ->
  parseInt_chars l = of_Z (Chars.digits_val l).
Proof.
  intros Hne Hl. unfold parseInt_chars.
  destruct l as [|c r]; [contradiction|].
  pose proof Hl as Hl'. cbn in Hl. apply andb_true_iff in Hl as [Hc Hr].
  rewrite (skip_spaces_ascii c r (is_digit_ascii c Hc) (is_digit_not_space c Hc)).
  rewrite (is_digit_not c "-" Hc eq_refl), (is_digit_not c "+" Hc eq_refl).
  assert (Hspan : fst (Chars.span_digits (c :: r)) = c :: r).
  { rewrite <- (app_nil_r (c :: r)) at 1.
    rewrite (span_digits_all (c :: r) [] Hl' I). reflexivity. }
  assert (Hv : match c :: r with
               | z :: x :: r0 =>
                   if Ascii.eqb z "0" && (Ascii.eqb x "x" || Ascii.eqb x "X")
                   then Number.span_hex r0 0 false
                   else match fst (Chars.span_digits (c :: r)) with
                        | [] => None | d => Some (Chars.digits_val d) end
               | _ => match fst (Chars.span_digits (c :: r)) with
                      | [] => None | d => Some (Chars.digits_val d) end
               end = Some (Chars.digits_val (c :: r))).
  { rewrite Hspan. destruct r as [|x r0]; [reflexivity|].
    cbn in Hr. apply andb_true_iff in Hr as [Hx _].
    rewrite (is_digit_not x "x" Hx eq_refl), (is_digit_not x "X" Hx eq_refl).
    rewrite andb_false_r. reflexivity. }
  rewrite Hv. reflexivity.
Qed.

Lemma parseInt_of_int (n : Z) : 0 <= n -> parseInt (Some (Str.of_int n)) = of_Z n.
Proof.
  intros Hn. unfold parseInt, Str.of_int.
  rewrite list_ascii_of_string_of_list_ascii.
  rewrite parseInt_chars_digits.
  - rewrite digits_val_decimal by exact Hn. reflexivity.
  - apply decimal_nonempty.
  - apply decimal_digits, Hn.
Qed.

Lemma all_digits_of_int (n : Z) : 0 <= n -> Str.all_digits (Str.of_int n) = true.
Proof.
  intros Hn. unfold Str.all_digits, Str.of_int.
  rewrite list_ascii_of_string_of_list_ascii.
  pose proof (decimal_nonempty n). pose proof (decimal_digits n Hn).
  destruct (Chars.decimal n); [contradiction|assumption].
Qed.

(** ** Doubles of small integers *)

Module IntegerFacts.

Lemma iter_xO (p k : positive) : Z.pos (Pos.iter xO p k) = Z.pos p * 2 ^ Z.pos k.
Proof.
  induction k as [|k IH] using Pos.peano_ind.
  - cbn. lia.
  - rewrite Pos.iter_succ, Pos2Z.inj_xO, IH, Pos2Z.inj_succ, Z.pow_succ_r by lia. lia.
Qed.

Lemma digits_iter_xO (p k : positive) :
  digits2_pos (Pos.iter xO p k) = (digits2_pos p + k)%positive.
Proof.
  induction k as [|k IH] using Pos.peano_ind.
  - cbn. lia.
  - rewrite Pos.iter_succ. cbn [digits2_pos]. rewrite IH. lia.
Qed.

Lemma digits2_bounds (p : positive) :
  2 ^ (Z.pos (digits2_pos p) - 1) <= Z.pos p < 2 ^ Z.pos (digits2_pos p).
Proof.
  induction p as [p IH|p IH|]; cbn [digits2_pos].
  - rewrite Pos2Z.inj_succ, Z.pow_succ_r by lia.
    replace (Z.succ (Z.pos (digits2_pos p)) - 1) with (Z.succ (Z.pos (digits2_pos p) - 1))
      by lia.
    rewrite Z.pow_succ_r by lia. lia.
  - rewrite Pos2Z.inj_succ, Z.pow_succ_r by lia.
    replace (Z.succ (Z.pos (digits2_pos p)) - 1) with (Z.succ (Z.pos (digits2_pos p) - 1))
      by lia.
    rewrite Z.pow_succ_r by lia. lia.
  - cbn. lia.
Qed.

Lemma shr_fexp_exact (m : positive) (e : Z) :
  Z.pos (digits2_pos m) = prec -> -1074 <= e ->
  shr_fexp prec emax (Z.pos m) e loc_Exact
  = ({| shr_m := Z.pos m; shr_r := false; shr_s := false |}, e).
Proof.
  intros Hd He. unfold shr_fexp. cbn [Zdigits2 shr_record_of_loc]. rewrite Hd.
  replace (fexp prec emax (prec + e) - e) with 0; [reflexivity|].
  unfold fexp, emin, prec, emax. lia.
Qed.

(** A significand of exactly 53 bits needs no rounding. *)
Lemma binary_round_aux_exact (s : bool) (m : positive) (e : Z) :
  Z.pos (digits2_pos m) = prec -> -1074 <= e <= emax - prec ->
  binary_round_aux prec emax s (Z.pos m) e loc_Exact = S754_finite s m e.
Proof.
  intros Hd He. unfold binary_round_aux.
  rewrite (shr_fexp_exact m e Hd) by lia. cbn [shr_m loc_of_shr_record round_nearest_even].
  rewrite (shr_fexp_exact m e Hd) by lia. cbn [shr_m].
  destruct (e <=? emax - prec) eqn:E; [reflexivity|]. apply Z.leb_gt in E. lia.
Qed.

(** The double of a positive integer of at most 53 bits: the integer
    shifted up to 53 bits, with the exponent that undoes the shift. *)
Lemma of_Z_small (p : positive) :
  Z.pos (digits2_pos p) < prec ->
  exists k,
    Z.pos k = prec - Z.pos (digits2_pos p)
    /\ of_Z (Z.pos p) = S754_finite false (Pos.iter xO p k) (- Z.pos k).
Proof.
  intros Hd. unfold of_Z, binary_normalize, binary_round, shl_align.
  assert (Hf : fexp prec emax (Z.pos (digits2_pos p) + 0) = Z.pos (digits2_pos p) - prec).
  { unfold fexp, emin, prec, emax in *. lia. }
  rewrite Hf.
  destruct (Z.pos (digits2_pos p) - prec - 0) as [|k|k] eqn:Ek; try lia.
  exists k. split; [lia|].
  rewrite binary_round_aux_exact.
  - f_equal. lia.
  - rewrite digits_iter_xO. lia.
  - unfold prec, emax in *. lia.
Qed.

Lemma to_integer_shifted (p k : positive) :
  to_integer (S754_finite false (Pos.iter xO p k) (- Z.pos k)) = Some (Z.pos p).
Proof.
  unfold to_integer. cbn [Z.opp]. 
  replace (0 <=? Z.neg k) with false by reflexivity.
  change (- Z.neg k) with (Z.pos k).
  rewrite iter_xO, Z.mod_mul, Z.div_mul by (apply Z.pow_nonzero; lia).
  reflexivity.
Qed.

End IntegerFacts.

Import IntegerFacts.

Lemma port_accepted_range (n : Z) : 1 <= n <= 65535 -> port_accepted n = true.
Proof.
  intros Hn. destruct n as [|p|p]; try lia.
  pose proof (digits2_bounds p) as Hb.
  assert (Hd : Z.pos (digits2_pos p) <= 16).
  { destruct (Z_le_gt_dec (Z.pos (digits2_pos p)) 16) as [H|H]; [exact H|].
    exfalso. assert (2 ^ 16 <= 2 ^ (Z.pos (digits2_pos p) - 1))
      by (apply Z.pow_le_mono_r; lia).
    change (2 ^ 16) with 65536 in *. lia. }
  destruct (of_Z_small p) as (k & Hk & Hof); [unfold prec; lia|].
  unfold port_accepted, out_of_range, legal_port. rewrite Hof, to_integer_shifted.
  replace ((0 <=? Z.pos p) && (Z.pos p <=? 65535)) with true
    by (symmetry; apply andb_true_iff; split; apply Z.leb_le; lia).
  cbn [Number.truthy andb]. rewrite !andb_true_r. apply negb_true_iff, orb_false_iff.
  unfold prec in Hk.
  assert (Hm : Z.pos (Pos.iter xO p k) = Z.pos p * 2 ^ Z.pos k) by apply iter_xO.
  generalize dependent (Pos.iter xO p k). intros m _ Hm.
  split.
  - (* not below 1 *)
    change (of_Z 1) with (S754_finite false 4503599627370496 (-52)).
    unfold ltb, SFltb, SFcompare.
    destruct (Z.compare_spec (- Z.pos k) (-52)) as [E|E|E]; try reflexivity; [|lia].
    assert (Hk52 : Z.pos k = 52) by lia.
    rewrite Pos.compare_cont_spec. cbn [Pos.switch_Eq].
    destruct (Pos.compare_spec m 4503599627370496) as [E'|E'|E']; try reflexivity.
    exfalso.
    assert (Hlt : Z.pos m < 4503599627370496) by exact E'.
    rewrite Hm, Hk52 in Hlt. change (2 ^ 52) with 4503599627370496 in Hlt.
    clear - Hlt Hn. lia.
  - (* not above 65535 *)
    change (of_Z 65535) with (S754_finite false 9007061815787520 (-37)).
    unfold gtb, SFltb, SFcompare.
    destruct (Z.compare_spec (-37) (- Z.pos k)) as [E|E|E]; try reflexivity; [|lia].
    assert (Hk37 : Z.pos k = 37) by lia.
    rewrite Pos.compare_cont_spec. cbn [Pos.switch_Eq].
    destruct (Pos.compare_spec 9007061815787520 m) as [E'|E'|E']; try reflexivity.
    exfalso.
    assert (Hlt : 9007061815787520 < Z.pos m) by exact E'.
    rewrite Hm, Hk37 in Hlt. change (2 ^ 37) with 137438953472 in Hlt.
    clear - Hlt Hn. lia.
Qed.

(** ** Ports on the command line and in the environment *)

Lemma split_chars_no_sep (sep : ascii) (l cur : list ascii) :
  forallb (fun c => negb (Ascii.eqb c sep)) l = true ->
  Str.split_chars sep l cur = [rev cur ++ l].
Proof.
  revert cur. induction l as [|c l IH]; intros cur H; cbn.
  - rewrite app_nil_r. reflexivity.
  - cbn in H. apply andb_true_iff in H as [Hc Hl].
    apply negb_true_iff in Hc. rewrite Hc, (IH _ Hl). cbn.
    rewrite <- app_assoc. reflexivity.
Qed.

Lemma digits_no_sep (sep : ascii) (l : list ascii) :
  Chars.is_digit sep = false -> forallb Chars.is_digit l = true ->
  forallb (fun c => negb (Ascii.eqb c sep)) l = true.
Proof.
  intros Hs Hl. rewrite forallb_forall in *. intros c Hc.
  rewrite (is_digit_not c sep (Hl c Hc) Hs). reflexivity.
Qed.

Lemma split_port_value (n : Z) :
  0 <= n -> nth_error (Str.split "=" ("--port=" +:+ Str.of_int n)) 1 = Some (Str.of_int n).
Proof.
  intros Hn. unfold Str.split, Str.of_int.
  change (list_ascii_of_string ("--port=" +:+ string_of_list_ascii (Chars.decimal n)))
    with ("-" :: "-" :: "p" :: "o" :: "r" :: "t" :: "=" ::
          list_ascii_of_string (string_of_list_ascii (Chars.decimal n)))%char.
  rewrite list_ascii_of_string_of_list_ascii.
  cbn [Str.split_chars Ascii.eqb Bool.eqb rev app].
  rewrite split_chars_no_sep
    by (apply digits_no_sep; [reflexivity|apply decimal_digits, Hn]).
  reflexivity.
Qed.

Lemma getPort_args_forms (n : Z) (form rest : list string) :
  0 <= n -> In form (port_arguments n) ->
  getPort_args (form ++ rest) = Some (of_Z n).
Proof.
  intros Hn Hin.
  pose proof (all_digits_of_int n Hn) as Hd.
  pose proof (parseInt_of_int n Hn) as Hp.
  pose proof (split_port_value n Hn) as Hs.
  unfold port_arguments in Hin. remember (Str.of_int n) as s eqn:Es.
  cbn [In] in Hin. destruct Hin as [<-|[<-|[<-|[<-|[]]]]]; cbn [app getPort_args].
  - rewrite Hd, Hp. reflexivity.
  - replace (Str.all_digits ("--port=" +:+ s)) with false by reflexivity.
    replace (Str.startsWith "--port=" ("--port=" +:+ s)) with true
      by (unfold Str.startsWith; cbn; destruct s; reflexivity).
    rewrite Hs, Hp. reflexivity.
  - replace (Str.all_digits "-p") with false by reflexivity.
    replace (Str.startsWith "--port=" "-p") with false by reflexivity.
    replace (String.eqb "-p" "-p") with true by reflexivity.
    cbn [orb]. rewrite Hd, Hp. reflexivity.
  - replace (Str.all_digits "--port") with false by reflexivity.
    replace (Str.startsWith "--port=" "--port") with false by reflexivity.
    replace (String.eqb "--port" "-p" || String.eqb "--port" "--port") with true
      by reflexivity.
    rewrite Hd, Hp. reflexivity.
Qed.

Lemma port_accepted_listens (n : Z) :
  1 <= n <= 65535 ->
  out_of_range (of_Z n) = false /\ listen (of_Z n) = Listening (of_Z n)
  /\ Number.truthy (of_Z n) = true.
Proof.
  intros Hn. pose proof (port_accepted_range n Hn) as H. unfold port_accepted in H.
  apply andb_true_iff in H as [H Ht]. apply andb_true_iff in H as [Hr Hl].
  apply negb_true_iff in Hr. unfold listen. rewrite Hl. auto.
Qed.

(** X3: a port from 1 to 65535 given in any of the four command-line forms
    is the port the server listens on, whatever follows it on the command
    line and whatever the environment says. *)
Theorem valid_port_argument_listens (n : Z) (node script : string)
    (form rest : list string) (env_PORT : option string) :
  1 <= n <= 65535 -> In form (port_arguments n) ->
  help_requested (node :: script :: form ++ rest) = false ->
  startup (node :: script :: form ++ rest) env_PORT = Listening (of_Z n).
Proof.
  intros Hn Hin Hh. unfold startup, getPort. rewrite Hh.
  change (skipn 2 (node :: script :: form ++ rest)) with (form ++ rest).
  rewrite (getPort_args_forms n form rest) by (lia || assumption).
  destruct (port_accepted_listens n Hn) as (Hr & Hl & _). rewrite Hr. exact Hl.
Qed.

Lemma valid_port_argument_listens_witness :
  startup ["node"; "server.js"; "-p"; "8080"; "--port=70000"] (Some "9000")
  = Listening (of_Z 8080).
Proof.
  apply (valid_port_argument_listens 8080 "node" "server.js" ["-p"; "8080"]
           ["--port=70000"] (Some "9000")).
  - lia.
  - cbn. auto.
  - reflexivity.
Defined.

(** X4: with no argument after the script name the port comes from the
    environment: a [PORT] from 1 to 65535 is listened on; a [PORT] that is
    absent, does not start with a number, or is 0 gives 3000. *)
Theorem environment_port (node script : string) (env_PORT : option string) :
  help_requested [node; script] = false ->
  (forall n, 1 <= n <= 65535 -> env_PORT = Some (Str.of_int n) ->
     startup [node; script] env_PORT = Listening (of_Z n))
  /\ (Number.truthy (parseInt env_PORT) = false ->
      startup [node; script] env_PORT = Listening (of_Z 3000)).
Proof.
  intros Hh. split.
  - intros n Hn ->. unfold startup, getPort. rewrite Hh.
    change (skipn 2 [node; script]) with (@nil string). cbn [getPort_args].
    rewrite parseInt_of_int by lia.
    destruct (port_accepted_listens n Hn) as (Hr & Hl & Ht).
    unfold or_else. rewrite Ht, Hr. exact Hl.
  - intros Ht. unfold startup, getPort. rewrite Hh.
    change (skipn 2 [node; script]) with (@nil string). cbn [getPort_args].
    unfold or_else. rewrite Ht. reflexivity.
Qed.

Lemma environment_port_witness :
  startup ["node"; "server.js"] (Some "4000") = Listening (of_Z 4000)
  /\ startup ["node"; "server.js"] (Some "0") = Listening (of_Z 3000)
  /\ startup ["node"; "server.js"] None = Listening (of_Z 3000).
Proof.
  split; [|split].
  - apply (proj1 (environment_port "node" "server.js" (Some "4000") eq_refl) 4000);
      [lia|reflexivity].
  - apply (proj2 (environment_port "node" "server.js" (Some "0") eq_refl)). reflexivity.
  - apply (proj2 (environment_port "node" "server.js" None eq_refl)). reflexivity.
Defined.

Lemma split_port_prefix (v : string) :
  Str.split "=" ("--port=" +:+ v) = "--port" :: Str.split "=" v.
Proof.
  unfold Str.split.
  change (list_ascii_of_string ("--port=" +:+ v))
    with ("-" :: "-" :: "p" :: "o" :: "r" :: "t" :: "=" :: list_ascii_of_string v)%char.
  reflexivity.
Qed.

(** X5: a value that is no number is treated differently by the two long
    forms.  After [-p] or [--port] it is skipped and the search goes on
    with the value itself and what follows; in [--port=value] it ends the
    search with no number, and the server exits with status 1 even when a
    good port follows or the environment has one. *)
Theorem malformed_port_value (node script v : string) (rest : list string)
    (env_PORT : option string) :
  (Str.all_digits v = false ->
   startup (node :: script :: "-p" :: v :: rest) env_PORT
     = startup (node :: script :: v :: rest) env_PORT
   /\ startup (node :: script :: "--port" :: v :: rest) env_PORT
     = startup (node :: script :: v :: rest) env_PORT)
  /\ (parseInt (nth_error (Str.split "=" v) 0) = NaN ->
      help_requested (node :: script :: ("--port=" +:+ v) :: rest) = false ->
      startup (node :: script :: ("--port=" +:+ v) :: rest) env_PORT = Exited 1).
Proof.
  split.
  - intros Hv.
    assert (Hh : forall flag, String.eqb "--help" flag = false -> String.eqb "-h" flag = false ->
               help_requested (node :: script :: flag :: v :: rest)
               = help_requested (node :: script :: v :: rest)).
    { intros flag H1 H2. unfold help_requested. cbn [existsb]. rewrite H1, H2. reflexivity. }
    split; unfold startup, getPort.
    + rewrite (Hh "-p" eq_refl eq_refl).
      change (skipn 2 (node :: script :: "-p" :: v :: rest)) with ("-p" :: v :: rest).
      change (skipn 2 (node :: script :: v :: rest)) with (v :: rest).
      replace (getPort_args ("-p" :: v :: rest)) with (getPort_args (v :: rest));
        [reflexivity|].
      symmetry. cbn [getPort_args].
      replace (Str.all_digits "-p") with false by reflexivity.
      replace (Str.startsWith "--port=" "-p") with false by reflexivity.
      replace (String.eqb "-p" "-p") with true by reflexivity.
      cbn [orb]. rewrite Hv. reflexivity.
    + rewrite (Hh "--port" eq_refl eq_refl).
      change (skipn 2 (node :: script :: "--port" :: v :: rest)) with ("--port" :: v :: rest).
      change (skipn 2 (node :: script :: v :: rest)) with (v :: rest).
      replace (getPort_args ("--port" :: v :: rest)) with (getPort_args (v :: rest));
        [reflexivity|].
      symmetry. cbn [getPort_args].
      replace (Str.all_digits "--port") with false by reflexivity.
      replace (Str.startsWith "--port=" "--port") with false by reflexivity.
      replace (String.eqb "--port" "-p" || String.eqb "--port" "--port") with true
        by reflexivity.
      rewrite Hv. reflexivity.
  - intros Hnan Hh. unfold startup, getPort. rewrite Hh.
    change (skipn 2 (node :: script :: ("--port=" +:+ v) :: rest))
      with (("--port=" +:+ v) :: rest).
    cbn [getPort_args].
    replace (Str.all_digits ("--port=" +:+ v)) with false by reflexivity.
    replace (Str.startsWith "--port=" ("--port=" +:+ v)) with true
      by (unfold Str.startsWith; cbn; destruct v; reflexivity).
    rewrite split_port_prefix. cbn [nth_error]. 
    change (nth_error (Str.split "=" v) 0) with (nth_error (Str.split "=" v) 0) in Hnan.
    replace (match Str.split "=" v with [] => None | x :: _ => Some x end)
      with (nth_error (Str.split "=" v) 0) by (destruct (Str.split "=" v); reflexivity).
    rewrite Hnan. reflexivity.
Qed.

Lemma malformed_port_value_witness :
  startup ["node"; "server.js"; "-p"; "abc"; "8080"] None
    = startup ["node"; "server.js"; "abc"; "8080"] None
  /\ startup ["node"; "server.js"; "--port=abc"; "8080"] (Some "9000") = Exited 1.
Proof.
  destruct (malformed_port_value "node" "server.js" "abc" ["8080"] None) as [Hskip _].
  destruct (malformed_port_value "node" "server.js" "abc" ["8080"] (Some "9000"))
    as [_ Hstop].
  split.
  - exact (proj1 (Hskip eq_refl)).
  - exact (Hstop eq_refl eq_refl).
Defined.

(** ** Scratch paths *)

Lemma append_cancel_l (a b c : string) : a +:+ b = a +:+ c -> b = c.
Proof.
  induction a as [|x a IH]; simpl; [auto|]. intros [= H]. exact (IH H).
Qed.

Lemma string_list_app (a b : string) :
  list_ascii_of_string (a +:+ b) = list_ascii_of_string a ++ list_ascii_of_string b.
Proof. induction a as [|x a IH]; simpl; [reflexivity | rewrite IH; reflexivity]. Qed.

Lemma list_ascii_inj (a b : string) :
  list_ascii_of_string a = list_ascii_of_string b -> a = b.
Proof.
  intros H. rewrite <- (string_of_list_ascii_of_string a), H.
  apply string_of_list_ascii_of_string.
Qed.

(** A decimal stamp followed by an underscore is read back from the front
    of a name, whatever follows. *)
Lemma stamp_inj (t t' : Z) (n n' : string) :
  0 <= t -> 0 <= t' ->
  Str.of_int t +:+ "_" +:+ n = Str.of_int t' +:+ "_" +:+ n' ->
  t = t' /\ n = n'.
Proof.
  intros Ht Ht' H. apply (f_equal list_ascii_of_string) in H.
  rewrite !string_list_app in H. unfold Str.of_int in H.
  rewrite !list_ascii_of_string_of_list_ascii in H.
  apply (f_equal Chars.span_digits) in H.
  rewrite !span_digits_all in H
    by (try apply decimal_digits; try assumption; reflexivity).
  injection H as Hd Hn. split.
  - rewrite <- (digits_val_decimal t Ht), <- (digits_val_decimal t' Ht'), Hd.
    reflexivity.
  - simpl in Hn. apply list_ascii_inj. congruence.
Qed.

Lemma upload_is_not_convert_output (srv : Server) (t1 t2 : Z) (name : string)
    (f : File) (v : Value) :
  upload_path srv t1 name <> convert_outputPath srv t2 f v.
Proof.
  intros H. unfold upload_path, convert_outputPath, Path.join in H.
  apply append_cancel_l in H. discriminate H.
Qed.

Lemma upload_is_not_clip_output (srv : Server) (t1 t3 : Z) (name : string)
    (f : File) (s e : number) (v : Value) :
  upload_path srv t1 name <> clip_outputPath srv t3 f s e v.
Proof.
  intros H. unfold upload_path, clip_outputPath, Path.join in H.
  apply append_cancel_l in H. discriminate H.
Qed.

(** X6: the three families of scratch files never meet: whatever the clock
    readings and the names, the path of an upload, the output path of a
    conversion and the output path of a clip differ from one another.  So
    the transcoder is never given its input as its output, and the output
    of one request is not the upload of another. *)
Theorem scratch_paths_distinct (srv : Server) (t1 t2 t3 : Z) (name : string)
    (f1 f2 : File) (v1 v2 : Value) (s e : number) :
  upload_path srv t1 name <> convert_outputPath srv t2 f1 v1
  /\ upload_path srv t1 name <> clip_outputPath srv t3 f2 s e v2
  /\ convert_outputPath srv t2 f1 v1 <> clip_outputPath srv t3 f2 s e v2
  /\ inputPath (convert_job srv t2 {| path := upload_path srv t1 name;
                                      originalname := name |} v1)
     <> outputPath (convert_job srv t2 {| path := upload_path srv t1 name;
                                          originalname := name |} v1)
  /\ inputPath (clip_job srv t3 {| path := upload_path srv t1 name;
                                   originalname := name |} s e v2)
     <> outputPath (clip_job srv t3 {| path := upload_path srv t1 name;
                                       originalname := name |} s e v2).
Proof.
  split; [apply upload_is_not_convert_output|].
  split; [apply upload_is_not_clip_output|].
  split; [|split; [apply upload_is_not_convert_output|apply upload_is_not_clip_output]].
  intros H. unfold convert_outputPath, clip_outputPath, Path.join in H.
  apply append_cancel_l in H. discriminate H.
Qed.

(** X7: the path of an upload determines the clock reading and the name it
    was built from: two uploads share a path only when they arrive in the
    same millisecond under the same name (and then they do share it).  The
    same holds of the output paths of conversions, for the download name. *)
Theorem upload_path_injective (srv : Server) (t t' : Z) (name name' : string)
    (f f' : File) (v v' : Value) :
  0 <= t -> 0 <= t' ->
  (upload_path srv t name = upload_path srv t' name' <-> t = t' /\ name = name')
  /\ (convert_outputPath srv t f v = convert_outputPath srv t' f' v'
      <-> t = t' /\ convert_outputName f v = convert_outputName f' v').
Proof.
  intros Ht Ht'. split; split.
  - intros H. unfold upload_path, Path.join in H.
    apply append_cancel_l in H. injection H as H.
    apply (append_cancel_l "") in H.
    apply stamp_inj; assumption.
  - intros [-> ->]. reflexivity.
  - intros H. unfold convert_outputPath, Path.join in H.
    apply append_cancel_l in H. injection H as H.
    apply (append_cancel_l "") in H.
    apply stamp_inj; assumption.
  - intros [-> E]. unfold convert_outputPath. rewrite E. reflexivity.
Qed.

Lemma upload_path_injective_witness :
  upload_path sample_server 1700000000000 "a_1.mp4"
    = upload_path sample_server 1700000000000 "a_1.mp4"
  /\ upload_path sample_server 17 "00_a.mp4" <> upload_path sample_server 1700 "a.mp4".
Proof.
  destruct (upload_path_injective sample_server 1700000000000 1700000000000
              "a_1.mp4" "a_1.mp4" {| path := ""; originalname := "" |}
              {| path := ""; originalname := "" |} Undefined Undefined) as [[_ H] _];
    [lia | lia |].
  destruct (upload_path_injective sample_server 17 1700 "00_a.mp4" "a.mp4"
              {| path := ""; originalname := "" |}
              {| path := ""; originalname := "" |} Undefined Undefined) as [[H' _] _];
    [lia | lia |].
  split.
  - apply H. split; reflexivity.
  - intros E. destruct (H' E) as [E' _]. discriminate E'.
Defined.

(** ** The scratch directory as a frame *)

Lemma refused_frames (srv : Server) (clk : Clock) (scratch : gset string)
    (name : string) (status : Z) (msg : string) (own : list string) :
  In (upload_path srv (upload_time clk) name) own ->
  frames scratch (files (refused srv clk scratch name status msg)) [] own.
Proof.
  intros Hown. cbn. split; [|split]; intros q H; [| |destruct H].
  - apply elem_of_difference in H as [H Hn]. rewrite elem_of_singleton in Hn.
    apply elem_of_union in H as [H|H]; [apply elem_of_singleton in H; contradiction|].
    left. exact H.
  - destruct (decide (q = upload_path srv (upload_time clk) name)) as [->|Hq].
    + right. exact Hown.
    + left. apply elem_of_difference. split.
      * apply elem_of_union. right. exact H.
      * rewrite elem_of_singleton. exact Hq.
Qed.

Ltac frame_cases q j :=
  rewrite ?elem_of_difference, ?elem_of_union, ?elem_of_singleton in *;
  cbn [In] in *;
  destruct (decide (q = inputPath j)), (decide (q = outputPath j));
  intuition congruence.

(** When every event comes nothing is left; a child that never ends
    leaves the upload, and its output when it wrote one; a download that
    never ends leaves the output. *)
Lemma spawned_frames (j : Job) (env : Env) (scratch : gset string) :
  inputPath j <> outputPath j ->
  frames scratch (callbacks_files j env ({[inputPath j]} ∪ scratch))
    (left_by_callbacks env j) [inputPath j; outputPath j].
Proof.
  intros Hne.
  unfold frames, callbacks_files, left_by_callbacks, files_at_close, stalls.
  destruct (child env) as [[errno|]|chunks written code|chunks written]; cbv zeta.
  - split; [|split]; intros q H; frame_cases q j.
  - split; [|split]; intros q H; frame_cases q j.
  - destruct (completes (delivery env)), written, code as [[| |]|];
      cbn [nonzero negb andb]; rewrite ?andb_false_r, ?andb_true_r;
      try case_bool_decide as Hp;
      (split; [|split]; intros q H; frame_cases q j).
  - destruct written; (split; [|split]; intros q H; frame_cases q j).
Qed.

Lemma untouched_frames (scratch : gset string) (own : list string) :
  frames scratch scratch [] own.
Proof. split; [|split]; intros q H; [left; exact H|left; exact H|destruct H]. Qed.

Lemma inherited_frames (scratch : gset string) (p : string) (own : list string) :
  frames scratch ({[p]} ∪ scratch) [p] own.
Proof.
  split; [|split]; intros q H.
  - apply elem_of_union in H as [H|H].
    + apply elem_of_singleton in H. subst q. right. left. reflexivity.
    + left. exact H.
  - left. apply elem_of_union. right. exact H.
  - destruct H as [<-|[]]. apply elem_of_union. left. apply elem_of_singleton. reflexivity.
Qed.

(** X2: a request leaves the scratch directory as it found it, but for
    its own files.  Whatever happens, each endpoint adds no file that was
    not there before, except the upload of a request whose format is a
    name the registry only inherits (and, for a clip, whose range is
    valid), except the upload and the output written so far of a request
    whose child never ends, and except the output of a request whose
    download never ends; these files it does leave.  The only files it
    can remove are the two it names itself: its upload and its output.
    Files of other requests are not touched. *)
Theorem scratch_directory_frame (srv : Server) (clk : Clock) (req : Request)
    (env : Env) (scratch : gset string) :
  frames scratch (files (post_convert srv clk req env scratch))
    (left_by_convert srv clk req env) (own_paths_convert srv clk req)
  /\ frames scratch (files (post_clip srv clk req env scratch))
       (left_by_clip srv clk req env) (own_paths_clip srv clk req).
Proof.
  split.
  - unfold left_by_convert, own_paths_convert.
    destruct (ffmpegAvailable srv) eqn:Ha, (video req) as [name|] eqn:Hv.
    + destruct (FORMATS_get (key_of (format req))) as [|sp|key] eqn:Hf.
      * rewrite (post_convert_invalid_format srv clk req env scratch name Ha Hv)
          by (rewrite Hf; reflexivity).
        apply (refused_frames srv clk scratch name). left. reflexivity.
      * rewrite (post_convert_entry srv clk req env scratch name sp Ha Hv Hf).
        apply (spawned_frames
                 (convert_job srv (handler_time clk) (uploaded srv clk name) (Entry sp))
                 env scratch).
        apply upload_is_not_convert_output.
      * rewrite (post_convert_inherited srv clk req env scratch name key Ha Hv Hf).
        exact (inherited_frames scratch _ _).
    + rewrite (post_convert_nofile srv clk req env scratch Ha Hv).
      exact (untouched_frames scratch _).
    + rewrite (post_convert_unavailable_file srv clk req env scratch name Ha Hv).
      apply (refused_frames srv clk scratch name). left. reflexivity.
    + rewrite (post_convert_unavailable_nofile srv clk req env scratch Ha Hv).
      exact (untouched_frames scratch _).
  - unfold left_by_clip, own_paths_clip.
    destruct (ffmpegAvailable srv) eqn:Ha, (video req) as [name|] eqn:Hv.
    + destruct (FORMATS_get (clip_format req)) as [|sp|key] eqn:Hf.
      * rewrite (post_clip_invalid_format srv clk req env scratch name Ha Hv)
          by (rewrite Hf; reflexivity).
        apply (refused_frames srv clk scratch name). left. reflexivity.
      * destruct (invalid_range (clip_start req) (clip_end req)) eqn:Hr.
        -- rewrite (post_clip_invalid_range srv clk req env scratch name Ha Hv)
             by (rewrite ?Hf; auto).
           apply (refused_frames srv clk scratch name). left. reflexivity.
        -- rewrite (post_clip_entry srv clk req env scratch name sp Ha Hv Hf Hr).
           apply (spawned_frames
                    (clip_job srv (handler_time clk) (uploaded srv clk name)
                       (clip_start req) (clip_end req) (Entry sp))
                    env scratch).
           apply upload_is_not_clip_output.
      * destruct (invalid_range (clip_start req) (clip_end req)) eqn:Hr.
        -- rewrite (post_clip_invalid_range srv clk req env scratch name Ha Hv)
             by (rewrite ?Hf; auto).
           apply (refused_frames srv clk scratch name). left. reflexivity.
        -- rewrite (post_clip_inherited srv clk req env scratch name key Ha Hv Hf Hr).
           exact (inherited_frames scratch _ _).
    + rewrite (post_clip_nofile srv clk req env scratch Ha Hv).
      exact (untouched_frames scratch _).
    + rewrite (post_clip_unavailable_file srv clk req env scratch name Ha Hv).
      apply (refused_frames srv clk scratch name). left. reflexivity.
    + rewrite (post_clip_unavailable_nofile srv clk req env scratch Ha Hv).
      exact (untouched_frames scratch _).
Qed.

(** ** Requests that go well *)

Lemma entry_ext (k : string) (sp : FormatSpec) :
  FORMATS_get k = Entry sp -> ext sp = k.
Proof.
  intros H. apply FORMATS_get_entry, own_property_FORMATS in H. tauto.
Qed.

Lemma written_output_present (up out : string) (f : gset string) :
  up <> out -> out ∈ ({[out]} ∪ f) ∖ {[up]}.
Proof.
  intros H. apply elem_of_difference. split.
  - apply elem_of_union. left. apply elem_of_singleton. reflexivity.
  - intros E. apply elem_of_singleton in E. congruence.
Qed.

Lemma scratch_after_success (up out : string) (scratch : gset string) :
  ({[out]} ∪ ({[up]} ∪ scratch)) ∖ {[up]} ∖ {[out]} = scratch ∖ {[up]} ∖ {[out]}.
Proof.
  apply set_eq. intros x.
  rewrite !elem_of_difference, !elem_of_union, !elem_of_singleton. tauto.
Qed.

(** X8: a conversion that goes well.  With the tool installed, a file
    uploaded and a format of the registry, a child that writes its output
    and exits with code 0, and a complete transfer, the request does this
    and nothing else: the upload is stored, the transcoder runs on it, the
    upload is unlinked, the output is sent as the download
    [videoLab_<stem>.<format>] and then unlinked.  No JSON is written, and
    the scratch directory holds neither file afterwards. *)
Theorem successful_conversion (srv : Server) (clk : Clock) (req : Request)
    (env : Env) (scratch : gset string) (name : string) (sp : FormatSpec)
    (chunks : list Str.Text) :
  ffmpegAvailable srv = true -> video req = Some name ->
  FORMATS_get (key_of (format req)) = Entry sp ->
  child env = Runs chunks true (Some 0) -> delivery env = Delivered ->
  let up := upload_path srv (upload_time clk) name in
  let dl := "videoLab_" +:+ Path.parse_name name +:+ "." +:+ key_of (format req) in
  let out := Path.join (TEMP_DIR srv)
               ("out_" +:+ Str.of_int (handler_time clk) +:+ "_" +:+ dl) in
  post_convert srv clk req env scratch =
  {| files := scratch ∖ {[up]} ∖ {[out]};
     headersSent := true;
     trace := [Created up;
               Console ("Converting: " +:+ name +:+ " -> " +:+ dl);
               Spawn "ffmpeg" (["-i"; up; "-y"] ++ codec sp ++ [out]);
               Created out; Unlink up; Download out dl; Unlink out] |}.
Proof.
  intros Ha Hv Hf Hc Hd up dl out.
  rewrite (post_convert_entry srv clk req env scratch name sp Ha Hv Hf).
  cbv zeta.
  unfold callbacks_files, callbacks_actions, files_at_close. rewrite Hc, Hd.
  cbn [convert_job inputPath outputPath outputName path nonzero].
  unfold convert_outputPath, convert_outputName, convert_args.
  cbn [originalname ext_text].
  rewrite (entry_ext _ _ Hf). fold dl. fold out. fold up.
  assert (Hne : up <> out).
  { pose proof (upload_is_not_convert_output srv (upload_time clk) (handler_time clk)
                  name {| path := up; originalname := name |} (Entry sp)) as H.
    unfold convert_outputPath, convert_outputName in H.
    cbn [originalname ext_text] in H. rewrite (entry_ext _ _ Hf) in H. exact H. }
  rewrite bool_decide_true by (apply written_output_present, Hne).
  rewrite scratch_after_success. reflexivity.
Qed.

Lemma successful_conversion_witness :
  post_convert sample_server sample_clock
    {| video := Some "my.movie.avi"; format := Some "webm";
       startTime := None; endTime := None |} sample_env ∅
  = {| files := ∅ ∖ {["/tmp/videolab/upload_1700000000000_my.movie.avi"]}
                  ∖ {["/tmp/videolab/out_1700000000005_videoLab_my.movie.webm"]};
       headersSent := true;
       trace := [Created "/tmp/videolab/upload_1700000000000_my.movie.avi";
                 Console "Converting: my.movie.avi -> videoLab_my.movie.webm";
                 Spawn "ffmpeg"
                   ["-i"; "/tmp/videolab/upload_1700000000000_my.movie.avi"; "-y";
                    "-c:v"; "libvpx-vp9"; "-c:a"; "libopus"; "-b:v"; "1M";
                    "/tmp/videolab/out_1700000000005_videoLab_my.movie.webm"];
                 Created "/tmp/videolab/out_1700000000005_videoLab_my.movie.webm";
                 Unlink "/tmp/videolab/upload_1700000000000_my.movie.avi";
                 Download "/tmp/videolab/out_1700000000005_videoLab_my.movie.webm"
                   "videoLab_my.movie.webm";
                 Unlink "/tmp/videolab/out_1700000000005_videoLab_my.movie.webm"] |}.
Proof.
  exact (successful_conversion sample_server sample_clock
           {| video := Some "my.movie.avi"; format := Some "webm";
              startTime := None; endTime := None |} sample_env ∅ "my.movie.avi"
           {| ext := "webm";
              codec := ["-c:v"; "libvpx-vp9"; "-c:a"; "libopus"; "-b:v"; "1M"] |}
           [Str.units "frame=1"; Str.units "frame=2"] eq_refl eq_refl eq_refl eq_refl eq_refl).
Defined.

(** X9: a clip that goes well: as for a conversion, with the offsets before
    and after the input in the arguments, the duration being the
    difference of the two, and the download named
    [clip_<stem>_<start>s-<end>s.<format>] with one decimal each. *)
Theorem successful_clip (srv : Server) (clk : Clock) (req : Request)
    (env : Env) (scratch : gset string) (name : string) (sp : FormatSpec)
    (chunks : list Str.Text) :
  ffmpegAvailable srv = true -> video req = Some name ->
  FORMATS_get (clip_format req) = Entry sp ->
  invalid_range (clip_start req) (clip_end req) = false ->
  child env = Runs chunks true (Some 0) -> delivery env = Delivered ->
  let up := upload_path srv (upload_time clk) name in
  let dl := "clip_" +:+ Path.parse_name name +:+ "_" +:+ toFixed (clip_start req) 1
              +:+ "s-" +:+ toFixed (clip_end req) 1 +:+ "s." +:+ clip_format req in
  let out := Path.join (TEMP_DIR srv)
               ("clip_" +:+ Str.of_int (handler_time clk) +:+ "_" +:+ dl) in
  post_clip srv clk req env scratch =
  {| files := scratch ∖ {[up]} ∖ {[out]};
     headersSent := true;
     trace := [Created up;
               Console ("Clipping: " +:+ name +:+ " [" +:+ toString (clip_start req)
                          +:+ "s - " +:+ toString (clip_end req) +:+ "s] -> " +:+ dl);
               Spawn "ffmpeg"
                 (["-ss"; toString (clip_start req); "-i"; up;
                   "-t"; toString (sub (clip_end req) (clip_start req)); "-y"]
                  ++ codec sp ++ ["-avoid_negative_ts"; "make_zero"; out]);
               Created out; Unlink up; Download out dl; Unlink out] |}.
Proof.
  intros Ha Hv Hf Hr Hc Hd up dl out.
  rewrite (post_clip_entry srv clk req env scratch name sp Ha Hv Hf Hr).
  cbv zeta.
  unfold callbacks_files, callbacks_actions, files_at_close. rewrite Hc, Hd.
  cbn [clip_job inputPath outputPath outputName path nonzero].
  unfold clip_outputPath, clip_outputName, clip_args.
  cbn [originalname ext_text].
  rewrite (entry_ext _ _ Hf). fold dl. fold out. fold up.
  assert (Hne : up <> out).
  { pose proof (upload_is_not_clip_output srv (upload_time clk) (handler_time clk)
                  name {| path := up; originalname := name |}
                  (clip_start req) (clip_end req) (Entry sp)) as H.
    unfold clip_outputPath, clip_outputName in H.
    cbn [originalname ext_text] in H. rewrite (entry_ext _ _ Hf) in H. exact H. }
  rewrite bool_decide_true by (apply written_output_present, Hne).
  rewrite scratch_after_success. reflexivity.
Qed.

Lemma successful_clip_witness :
  trace (post_clip sample_server sample_clock
           (sample_clip (Some "1.25") (Some "10")) sample_env ∅)
  = [Created "/tmp/videolab/upload_1700000000000_movie.avi";
     Console "Clipping: movie.avi [1.25s - 10s] -> clip_movie_1.3s-10.0s.mp4";
     Spawn "ffmpeg"
       ["-ss"; "1.25"; "-i"; "/tmp/videolab/upload_1700000000000_movie.avi";
        "-t"; "8.75"; "-y"; "-c:v"; "libx264"; "-c:a"; "aac"; "-preset"; "fast";
        "-avoid_negative_ts"; "make_zero";
        "/tmp/videolab/clip_1700000000005_clip_movie_1.3s-10.0s.mp4"];
     Created "/tmp/videolab/clip_1700000000005_clip_movie_1.3s-10.0s.mp4";
     Unlink "/tmp/videolab/upload_1700000000000_movie.avi";
     Download "/tmp/videolab/clip_1700000000005_clip_movie_1.3s-10.0s.mp4"
       "clip_movie_1.3s-10.0s.mp4";
     Unlink "/tmp/videolab/clip_1700000000005_clip_movie_1.3s-10.0s.mp4"].
Proof.
  exact (f_equal trace
           (successful_clip sample_server sample_clock
              (sample_clip (Some "1.25") (Some "10")) sample_env ∅ "movie.avi"
              {| ext := "mp4";
                 codec := ["-c:v"; "libx264"; "-c:a"; "aac"; "-preset"; "fast"] |}
              [Str.units "frame=1"; Str.units "frame=2"] eq_refl eq_refl eq_refl eq_refl eq_refl eq_refl)).
Defined.

(** ** The callbacks of the child process *)


Lemma nonzero_spec (code : option Z) : nonzero code = false <-> code = Some 0.
Proof.
  destruct code as [[| |]|]; cbn; split; intros H; try reflexivity; discriminate H.
Qed.

(** X10: what the [close] callback makes of the exit code.  The download is
    attempted exactly when the child ended with code 0 (a signal, which
    leaves no code, counts as a failure), and then also when the child left
    no output.  After code 0 the JSON error "Download failed" is sent
    exactly when nothing has been sent yet: the output is missing, or the
    transfer failed before the headers; a transfer that fails later gets
    no further answer.  After any other end the answer is the failure
    message with the last 300 characters of the diagnostics.  In every
    case the upload is gone afterwards, and so is the output, unless its
    download never ends. *)
Theorem close_callback_outcome (j : Job) (env : Env) (w : World)
    (chunks : list Str.Text) (written : bool) (code : option Z) :
  headersSent w = false -> inputPath j <> outputPath j ->
  child env = Runs chunks written code ->
  exists added,
    callbacks j env w
      = (Ok tt, {| files := files (snd (callbacks j env w));
                   headersSent := true;
                   trace := trace w ++ added |})
    /\ (forall p n, (Download p n ∈ added) <->
          code = Some 0 /\ p = outputPath j /\ n = outputName j)
    /\ (forall s b, (Respond s b ∈ added) <->
          s = 500
          /\ ((code = Some 0 /\ b = Json "Download failed" None
               /\ ((written = false /\ outputPath j ∉ files w)
                   \/ delivery env = Failed false))
              \/ (code <> Some 0
                  /\ b = Json (failed_msg (labels j))
                           (Some (Str.slice_last 300 (stderr_after chunks))))))
    /\ (inputPath j ∉ files (snd (callbacks j env w)))
    /\ (outputPath j ∈ files (snd (callbacks j env w)) <->
          code = Some 0 /\ delivery env = Stalls
          /\ (written = true \/ outputPath j ∈ files w)).
Proof.
  intros Hs Hne Hc.
  rewrite (callbacks_runs j env w chunks written code Hs Hc).
  exists (callbacks_actions j env (files w)). cbn [snd files].
  split; [reflexivity|].
  assert (Hpresent :
    bool_decide (outputPath j ∈ files_at_close j env (files w) ∖ {[inputPath j]}) = false
    <-> written = false /\ outputPath j ∉ files w).
  { unfold files_at_close. rewrite Hc. rewrite bool_decide_eq_false.
    destruct written.
    - split; [|intros [E _]; discriminate E].
      intros H. exfalso. apply H. apply written_output_present. exact Hne.
    - rewrite elem_of_difference, elem_of_singleton. split.
      + intros H. split; [reflexivity|]. intros Hin. apply H. split; [exact Hin|].
        congruence.
      + intros [_ H] [Hin _]. exact (H Hin). }
  split; [|split; [|split]].
  - intros p n. unfold callbacks_actions. rewrite Hc.
    destruct (nonzero code) eqn:Hn.
    + split.
      * intros H. exfalso.
        destruct written, (bool_decide _); cbn [app] in H; mem_inv H.
      * intros [E _]. apply nonzero_spec in E. congruence.
    + apply nonzero_spec in Hn. subst code. cbv zeta. split.
      * intros H.
        destruct written, (bool_decide _); destruct (stalls _ _);
          try destruct (fails_early _ _);
          cbn [app] in H; mem_inv H; injection H as -> ->; auto.
      * intros (_ & -> & ->).
        destruct written, (bool_decide _); destruct (stalls _ _);
          try destruct (fails_early _ _); cbn [app]; mem.
  - intros s b. unfold callbacks_actions. rewrite Hc.
    destruct (nonzero code) eqn:Hn.
    + assert (Hcode : code <> Some 0).
      { intros E. apply nonzero_spec in E. congruence. }
      split.
      * intros H.
        destruct written, (bool_decide _); cbn [app] in H; mem_inv H;
          injection H as -> ->; auto.
      * intros (-> & [(E & _)|(_ & ->)]); [contradiction|].
        destruct written, (bool_decide _); cbn [app]; mem.
    + apply nonzero_spec in Hn. subst code.
      cbv zeta.
      destruct (bool_decide (outputPath j ∈ files_at_close j env (files w) ∖ {[inputPath j]}))
        eqn:Hp.
      * assert (Hnot : ~ (written = false /\ outputPath j ∉ files w)).
        { intros H. apply Hpresent in H. discriminate H. }
        unfold fails_early, stalls. cbn [negb orb andb].
        destruct (delivery env) as [|[]|] eqn:Hd; cbn [completes negb].
        -- split.
           ++ intros H. destruct written; cbn [app] in H; mem_inv H.
           ++ intros (_ & [(_ & _ & [H|H])|(H & _)]);
                [contradiction | discriminate H | contradiction].
        -- split.
           ++ intros H. destruct written; cbn [app] in H; mem_inv H.
           ++ intros (_ & [(_ & _ & [H|H])|(H & _)]);
                [contradiction | discriminate H | contradiction].
        -- split.
           ++ intros H. destruct written; cbn [app] in H; mem_inv H;
                injection H as -> ->; auto 10.
           ++ intros (-> & [(_ & -> & _)|(H & _)]); [|contradiction].
              destruct written; cbn [app]; mem.
        -- split.
           ++ intros H. destruct written; cbn [app] in H; mem_inv H.
           ++ intros (_ & [(_ & _ & [H|H])|(H & _)]);
                [contradiction | discriminate H | contradiction].
      * pose proof (proj1 Hpresent eq_refl) as Habsent.
        unfold fails_early, stalls. cbn [negb orb andb]. split.
        -- intros H. destruct written; cbn [app] in H; mem_inv H;
             injection H as -> ->; auto 10.
        -- intros (-> & [(_ & -> & _)|(H & _)]); [|contradiction].
           destruct written; cbn [app]; mem.
  - apply callbacks_files_input. rewrite Hc. reflexivity.
  - unfold callbacks_files. rewrite Hc. cbv zeta.
    destruct (nonzero code) eqn:Hn; cbn [negb andb].
    + split.
      * intros H. apply elem_of_difference in H as [_ H].
        exfalso. apply H, elem_of_singleton. reflexivity.
      * intros (E & _). apply nonzero_spec in E. congruence.
    + apply nonzero_spec in Hn. subst code. unfold stalls.
      destruct (bool_decide (outputPath j ∈ files_at_close j env (files w) ∖ {[inputPath j]}))
        eqn:Hp; cbn [andb].
      * apply bool_decide_eq_true in Hp.
        assert (Hor : written = true \/ outputPath j ∈ files w).
        { destruct written; [left; reflexivity|right].
          unfold files_at_close in Hp. rewrite Hc in Hp.
          apply elem_of_difference in Hp as [Hp _]. exact Hp. }
        destruct (delivery env) as [|[]|] eqn:Hd; cbn [completes negb].
        4:{ split; [intros _; auto|intros _; exact Hp]. }
        all: split; [|intros (_ & E & _); discriminate E].
        all: intros H; apply elem_of_difference in H as [_ H];
          exfalso; apply H, elem_of_singleton; reflexivity.
      * destruct (proj1 Hpresent eq_refl) as [Hw Hout]. split.
        -- intros H. apply elem_of_difference in H as [_ H].
           exfalso. apply H, elem_of_singleton. reflexivity.
        -- intros (_ & _ & [E|Hin]); [congruence|contradiction].
Qed.

Lemma close_callback_outcome_witness :
  exists added,
    trace (snd (callbacks
                  (convert_job sample_server 5
                     {| path := "/tmp/videolab/in"; originalname := "in" |}
                     (FORMATS_get "mp4"))
                  {| child := Runs [] false (Some 0); delivery := Delivered |}
                  (fresh ∅))) = added
    /\ Respond 500 (Json "Download failed" None) ∈ added.
Proof.
  destruct (close_callback_outcome
              (convert_job sample_server 5
                 {| path := "/tmp/videolab/in"; originalname := "in" |}
                 (FORMATS_get "mp4"))
              {| child := Runs [] false (Some 0); delivery := Delivered |}
              (fresh ∅) [] false (Some 0) eq_refl ltac:(discriminate) eq_refl)
    as (added & Hrun & _ & Hresp & _).
  exists added. split.
  - rewrite Hrun. reflexivity.
  - apply Hresp. split; [reflexivity|]. left. split; [reflexivity|].
    split; [reflexivity|]. left. split; [reflexivity|].
    cbn. apply not_elem_of_empty.
Defined.

(** A conversion whose download never ends: the upload is removed, the
    output stays in the scratch directory, and nothing follows the start
    of the download. *)
Example download_never_ends :
  let w := post_convert sample_server sample_clock
             {| video := Some "movie.avi"; format := Some "wav";
                startTime := None; endTime := None |}
             {| child := Runs [] true (Some 0); delivery := Stalls |} ∅ in
  trace w
  = [Created "/tmp/videolab/upload_1700000000000_movie.avi";
     Console "Converting: movie.avi -> videoLab_movie.wav";
     Spawn "ffmpeg"
       ["-i"; "/tmp/videolab/upload_1700000000000_movie.avi"; "-y";
        "-vn"; "-c:a"; "pcm_s16le";
        "/tmp/videolab/out_1700000000005_videoLab_movie.wav"];
     Created "/tmp/videolab/out_1700000000005_videoLab_movie.wav";
     Unlink "/tmp/videolab/upload_1700000000000_movie.avi";
     Download "/tmp/videolab/out_1700000000005_videoLab_movie.wav" "videoLab_movie.wav"]
  /\ headersSent w = true
  /\ ("/tmp/videolab/upload_1700000000000_movie.avi" ∉ files w)
  /\ "/tmp/videolab/out_1700000000005_videoLab_movie.wav" ∈ files w.
Proof.
  intros w. unfold w.
  rewrite (post_convert_entry sample_server sample_clock
             {| video := Some "movie.avi"; format := Some "wav";
                startTime := None; endTime := None |}
             {| child := Runs [] true (Some 0); delivery := Stalls |} ∅ "movie.avi"
             {| ext := "wav"; codec := ["-vn"; "-c:a"; "pcm_s16le"] |}
             eq_refl eq_refl eq_refl).
  cbv zeta. unfold callbacks_files, callbacks_actions, files_at_close.
  cbn [child delivery nonzero negb andb convert_job inputPath outputPath outputName
       path trace files headersSent ends].
  rewrite bool_decide_true by (apply written_output_present; discriminate).
  split; [reflexivity|]. split; [reflexivity|]. split.
  - intros H. apply elem_of_difference in H as [_ H].
    apply H, elem_of_singleton. reflexivity.
  - apply written_output_present. discriminate.
Qed.

(** X11: a transcoder that cannot be started.  The [error] callback logs,
    removes the upload and answers 500 with the start failure message;
    nothing is downloaded.  When a [close] event follows the [error]
    event, the [close] callback tries to answer a second time, and that
    exception is thrown out of the callback: nothing in the server catches
    it. *)
Theorem spawn_failure_outcome (j : Job) (env : Env) (w : World)
    (close_follows : option positive) :
  headersSent w = false -> child env = SpawnFails close_follows ->
  exists added,
    trace (snd (callbacks j env w)) = trace w ++ added
    /\ (forall s b, (Respond s b ∈ added) <->
          s = 500 /\ b = Json (start_failed_msg (labels j)) None)
    /\ (forall p n, Download p n ∉ added)
    /\ (inputPath j ∉ files (snd (callbacks j env w)))
    /\ fst (callbacks j env w)
       = match close_follows with
         | Some _ => Thrown HeadersAlreadySent
         | None => Ok tt
         end
    /\ trace (snd (route (ret (Some j)) env w))
       = trace w ++ added ++
         match close_follows with Some _ => [Uncaught] | None => [] end.
Proof.
  intros Hs Hc.
  assert (Hcb : callbacks j env w =
    match close_follows with
    | Some errno =>
        on_close j [] (Some (Z.neg errno)) (delivery env)
          {| files := files w ∖ {[inputPath j]}; headersSent := true;
             trace := trace w ++ [Console "FFmpeg spawn error:"; Unlink (inputPath j);
                                  Respond 500 (Json (start_failed_msg (labels j)) None)] |}
    | None =>
        (Ok tt,
         {| files := files w ∖ {[inputPath j]}; headersSent := true;
            trace := trace w ++ [Console "FFmpeg spawn error:"; Unlink (inputPath j);
                                 Respond 500 (Json (start_failed_msg (labels j)) None)] |})
    end).
  { unfold callbacks. rewrite Hc. unfold bind. rewrite (on_error_run j w Hs).
    destruct close_follows; reflexivity. }
  assert (Hroute : route (ret (Some j)) env w =
    match callbacks j env w with
    | (Ok _, w'') => (Ok tt, w'')
    | (Thrown _, w'') => emit Uncaught w''
    end) by reflexivity.
  rewrite Hroute, Hcb. clear Hroute Hcb.
  destruct close_follows as [errno|].
  - rewrite on_close_after_response by reflexivity.
    cbn [fst snd files headersSent trace emit].
    eexists. split; [rewrite <- app_assoc; reflexivity|].
    split; [|split; [|split; [|split]]].
    + intros s b. split.
      * intros H. destruct (bool_decide _); cbn [app] in H; mem_inv H;
          injection H as -> ->; auto.
      * intros [-> ->]. destruct (bool_decide _); cbn [app]; mem.
    + intros p n H. destruct (bool_decide _); cbn [app] in H; mem_inv H.
    + intros H. apply elem_of_difference in H as [H _].
      apply elem_of_difference in H as [H _].
      apply elem_of_difference in H as [_ H].
      apply H, elem_of_singleton. reflexivity.
    + reflexivity.
    + rewrite <- !app_assoc. reflexivity.
  - cbn [fst snd files headersSent trace].
    eexists. split; [reflexivity|].
    split; [|split; [|split; [|split]]].
    + intros s b. split.
      * intros H. mem_inv H. injection H as -> ->. auto.
      * intros [-> ->]. mem.
    + intros p n H. mem_inv H.
    + intros H. apply elem_of_difference in H as [_ H].
      apply H, elem_of_singleton. reflexivity.
    + reflexivity.
    + rewrite app_nil_r. reflexivity.
Qed.

Lemma spawn_failure_outcome_witness :
  fst (callbacks
         (clip_job sample_server 5 {| path := "/tmp/videolab/in"; originalname := "in" |}
            zero (of_Z 3) (FORMATS_get "mp4"))
         {| child := SpawnFails (Some 2%positive); delivery := Delivered |}
         (fresh ∅))
  = Thrown HeadersAlreadySent.
Proof.
  destruct (spawn_failure_outcome
              (clip_job sample_server 5
                 {| path := "/tmp/videolab/in"; originalname := "in" |}
                 zero (of_Z 3) (FORMATS_get "mp4"))
              {| child := SpawnFails (Some 2%positive); delivery := Delivered |}
              (fresh ∅) (Some 2%positive) eq_refl eq_refl)
    as (added & _ & _ & _ & _ & H & _).
  exact H.
Defined.

(** ** A missing format *)


Lemma clip_handler_format (srv : Server) (now : Z) (file : option File)
    (req : Request) (f : option string) :
  clip_format (with_format req f) = clip_format req ->
  clip_handler srv now file (with_format req f) = clip_handler srv now file req.
Proof.
  intros H. unfold clip_handler. rewrite H. reflexivity.
Qed.

(** X12: the two endpoints treat a missing format differently.  A clip
    request without a format field, or with an empty one, is handled as
    the same request for [mp4], in everything that can be observed.  A
    conversion request without the field, or with an empty one, is refused
    with 400 "Invalid format" once the tool and the file are there. *)
Theorem missing_format (srv : Server) (clk : Clock) (req : Request) (env : Env)
    (scratch : gset string) :
  format req = None \/ format req = Some "" ->
  post_clip srv clk req env scratch
    = post_clip srv clk (with_format req (Some "mp4")) env scratch
  /\ (forall name, ffmpegAvailable srv = true -> video req = Some name ->
        trace (post_convert srv clk req env scratch)
        = [Created (upload_path srv (upload_time clk) name);
           Unlink (upload_path srv (upload_time clk) name);
           Respond 400 (Json "Invalid format" None)]).
Proof.
  intros Hf. split.
  - assert (Hc : clip_format (with_format req (Some "mp4")) = clip_format req).
    { unfold clip_format, with_format. cbn [format].
      destruct Hf as [-> | ->]; reflexivity. }
    unfold post_clip, bind. destruct (video req) as [name|] eqn:Hv.
    + rewrite (upload_some srv clk req scratch name Hv).
      rewrite (upload_some srv clk (with_format req (Some "mp4")) scratch name Hv).
      rewrite (clip_handler_format _ _ _ _ _ Hc). reflexivity.
    + rewrite (upload_none srv clk req scratch Hv).
      rewrite (upload_none srv clk (with_format req (Some "mp4")) scratch Hv).
      rewrite (clip_handler_format _ _ _ _ _ Hc). reflexivity.
  - intros name Ha Hv.
    rewrite (post_convert_invalid_format srv clk req env scratch name Ha Hv).
    + reflexivity.
    + destruct Hf as [-> | ->]; reflexivity.
Qed.

Lemma missing_format_witness :
  post_clip sample_server sample_clock (sample_clip (Some "1") (Some "2")) sample_env ∅
  = post_clip sample_server sample_clock
      (with_format (sample_clip (Some "1") (Some "2")) (Some "mp4")) sample_env ∅.
Proof.
  exact (proj1 (missing_format sample_server sample_clock
                  (sample_clip (Some "1") (Some "2")) sample_env ∅ (or_introl eq_refl))).
Defined.

(** ** Output names *)

Module NameFacts.
Import Chars.

Lemma digit_no_slash (c : ascii) : is_digit c = true -> c <> Path.slash.
Proof. intros H ->. discriminate H. Qed.

Lemma digits_no_separator (l : list ascii) :
  forallb is_digit l = true -> no_separator l.
Proof.
  intros H. apply Forall_forall. intros c Hc.
  apply digit_no_slash. rewrite forallb_forall in H. apply H.
  apply list_elem_of_In. exact Hc.
Qed.

Lemma decimal_aux_all_digits (fuel : nat) : forall n acc,
  forallb is_digit acc = true ->
  forallb is_digit (decimal_aux fuel n acc) = true.
Proof.
  induction fuel as [|f IH]; intros n acc Hacc; [exact Hacc|].
  cbn [decimal_aux].
  assert (Hd : is_digit (digit_char (n mod 10)) = true)
    by (apply DecimalFacts.is_digit_char, Z.mod_pos_bound; lia).
  destruct (n <? 10).
  - cbn [forallb]. rewrite Hd, Hacc. reflexivity.
  - apply IH. cbn [forallb]. rewrite Hd, Hacc. reflexivity.
Qed.

Lemma decimal_no_separator (n : Z) : no_separator (decimal n).
Proof. apply digits_no_separator, decimal_aux_all_digits. reflexivity. Qed.

Lemma zeros_no_separator (n : Z) : no_separator (zeros n).
Proof.
  unfold zeros. apply Forall_forall. intros c Hc.
  apply list_elem_of_In, repeat_spec in Hc. subst c. discriminate.
Qed.

Lemma strip_zeros_rev_no_separator (l : list ascii) :
  no_separator l -> no_separator (strip_zeros_rev l).
Proof.
  induction 1 as [|c l Hc Hl IH]; cbn; [constructor|].
  destruct (Ascii.eqb c "0"); [exact IH|constructor; assumption].
Qed.

Lemma strip_no_separator (l : list ascii) :
  no_separator l -> no_separator (strip_trailing_zeros l).
Proof.
  intros H. unfold strip_trailing_zeros, no_separator.
  apply Forall_rev, strip_zeros_rev_no_separator, Forall_rev, H.
Qed.

Lemma layout_no_separator (ds : list ascii) (n : Z) :
  no_separator ds -> no_separator (layout ds n).
Proof.
  intros H. unfold layout, no_separator.
  destruct (_ && _).
  { apply Forall_app. split; [exact H|apply zeros_no_separator]. }
  destruct (_ && _).
  { apply Forall_app. split; [apply Forall_take, H|].
    constructor; [discriminate|apply Forall_drop, H]. }
  destruct (_ && _).
  { constructor; [discriminate|]. constructor; [discriminate|].
    apply Forall_app. split; [apply zeros_no_separator|exact H]. }
  assert (He : Forall (fun c => c <> Path.slash)
                 ("e"%char :: (if n - 1 <? 0 then "-"%char else "+"%char)
                    :: decimal (Z.abs (n - 1)))).
  { constructor; [discriminate|]. constructor; [destruct (_ <? _); discriminate|].
    apply decimal_no_separator. }
  destruct H as [|d ds Hd Hds]; [exact He|].
  destruct ds as [|d' ds].
  - constructor; assumption.
  - constructor; [exact Hd|]. constructor; [discriminate|].
    apply Forall_app. split; [exact Hds|exact He].
Qed.

Lemma toString_no_separator (x : number) :
  no_separator (list_ascii_of_string (toString x)).
Proof.
  destruct x as [s|s| |s m e]; cbn [toString].
  - repeat constructor; discriminate.
  - destruct s; repeat constructor; discriminate.
  - repeat constructor; discriminate.
  - rewrite list_ascii_of_string_of_list_ascii. apply Forall_app. split.
    + destruct s; repeat constructor; discriminate.
    + unfold toString_pos. destruct (ratio m e) as [num den].
      destruct (shortest _ _ _ _ _ _) as [sg e10].
      apply layout_no_separator, strip_no_separator, decimal_no_separator.
Qed.

Lemma toFixed_no_separator (x : number) (f : Z) :
  no_separator (list_ascii_of_string (toFixed x f)).
Proof.
  destruct x as [s|s| |s m e].
  - cbn [toFixed]. rewrite list_ascii_of_string_of_list_ascii.
    constructor; [discriminate|]. destruct (f =? 0); [constructor|].
    constructor; [discriminate|apply zeros_no_separator].
  - apply (toString_no_separator (S754_infinity s)).
  - apply (toString_no_separator S754_nan).
  - unfold toFixed. destruct (huge m e); [apply toString_no_separator|].
    destruct (ratio m e) as [num den].
    rewrite list_ascii_of_string_of_list_ascii.
    set (d := zeros _ ++ decimal _).
    assert (Hd : no_separator d).
    { apply Forall_app. split; [apply zeros_no_separator|apply decimal_no_separator]. }
    apply Forall_app. split; [destruct s; repeat constructor; discriminate|].
    apply Forall_app. split; [apply Forall_take, Hd|].
    destruct (f =? 0); [constructor|].
    constructor; [discriminate|apply Forall_drop, Hd].
Qed.

Lemma until_slash_no_separator (l : list ascii) : no_separator (Path.until_slash l).
Proof.
  induction l as [|c l IH]; cbn; [constructor|].
  destruct (Ascii.eqb_spec c Path.slash); [constructor|].
  constructor; assumption.
Qed.

Lemma base_no_separator (p : list ascii) : no_separator (Path.base p).
Proof. apply Forall_rev, until_slash_no_separator. Qed.

Lemma before_last_dot_no_separator (r stem : list ascii) :
  no_separator r -> Path.before_last_dot r = Some stem -> no_separator stem.
Proof.
  induction 1 as [|c r Hc Hr IH]; cbn; [discriminate|].
  destruct (Ascii.eqb c Path.dot).
  - intros [= <-]. apply Forall_rev, Hr.
  - exact IH.
Qed.

Lemma parse_name_no_separator (p : string) :
  no_separator (list_ascii_of_string (Path.parse_name p)).
Proof.
  unfold Path.parse_name. rewrite list_ascii_of_string_of_list_ascii.
  pose proof (base_no_separator (list_ascii_of_string p)) as Hb.
  destruct (Path.before_last_dot _) as [stem|] eqn:E; [|exact Hb].
  apply before_last_dot_no_separator in E; [|apply Forall_rev, Hb].
  destruct stem; [exact Hb|].
  destruct (String.eqb _ _); assumption.
Qed.

Lemma ext_text_no_separator (k : string) :
  no_separator (list_ascii_of_string (ext_text (FORMATS_get k))).
Proof.
  destruct (FORMATS_get k) as [|sp|key] eqn:E; cbn [ext_text].
  - repeat constructor; discriminate.
  - apply FORMATS_get_entry, own_property_FORMATS in E as (Hin & -> & _).
    cbn in Hin. destruct Hin as [<-|[<-|[<-|[<-|[<-|[<-|[]]]]]]];
      repeat constructor; discriminate.
  - repeat constructor; discriminate.
Qed.

Lemma app_no_separator (a b : string) :
  no_separator (list_ascii_of_string a) -> no_separator (list_ascii_of_string b) ->
  no_separator (list_ascii_of_string (a +:+ b)).
Proof.
  intros Ha Hb. rewrite string_list_app. apply Forall_app. split; assumption.
Qed.

(** The last component of [dir/name] is [name] when [name] is not empty
    and holds no separator. *)
Lemma base_join (dir name : string) :
  name <> "" -> no_separator (list_ascii_of_string name) ->
  Path.base (list_ascii_of_string (Path.join dir name)) = list_ascii_of_string name.
Proof.
  intros Hne Hn. unfold Path.join, Path.base.
  rewrite !string_list_app. change (list_ascii_of_string "/") with [Path.slash].
  rewrite !rev_app_distr. cbn [rev app].
  set (r := rev (list_ascii_of_string name)).
  assert (Hr : no_separator r) by (apply Forall_rev, Hn).
  assert (Hr0 : r <> []).
  { unfold r. intros E. apply (f_equal (@rev ascii)) in E.
    rewrite rev_involutive in E. apply Hne, list_ascii_inj. exact E. }
  assert (Hu : forall rest, Path.until_slash (r ++ Path.slash :: rest) = r).
  { intros rest. clear Hr0. induction Hr as [|c r Hc Hr IH]; cbn.
    - reflexivity.
    - destruct (Ascii.eqb_spec c Path.slash); [contradiction|]. rewrite IH. reflexivity. }
  assert (Hd : forall rest, Path.drop_slashes (r ++ rest) = r ++ rest).
  { intros rest. destruct Hr as [|c r Hc Hr]; [contradiction|]. cbn.
    destruct (Ascii.eqb_spec c Path.slash); [contradiction|reflexivity]. }
  rewrite <- app_assoc. rewrite Hd. cbn [app]. rewrite Hu.
  apply rev_involutive.
Qed.

End NameFacts.

Import NameFacts.

(** X13: the file the transcoder writes lies directly in the scratch
    directory.  Whatever the upload is called, whatever the offsets and
    whatever key the format lookup was made with, the name given to the
    output holds no path separator, and the last component of the output
    path is that whole name: [out_<time>_<download name>] for a conversion
    and [clip_<time>_<download name>] for a clip. *)
Theorem output_stays_in_scratch (srv : Server) (now : Z) (f : File) (k : string)
    (s e : number) :
  let convert_name := convert_outputName f (FORMATS_get k) in
  let clip_name := clip_outputName f s e (FORMATS_get k) in
  no_separator (list_ascii_of_string convert_name)
  /\ no_separator (list_ascii_of_string clip_name)
  /\ Path.base (list_ascii_of_string (convert_outputPath srv now f (FORMATS_get k)))
     = list_ascii_of_string ("out_" +:+ Str.of_int now +:+ "_" +:+ convert_name)
  /\ Path.base (list_ascii_of_string (clip_outputPath srv now f s e (FORMATS_get k)))
     = list_ascii_of_string ("clip_" +:+ Str.of_int now +:+ "_" +:+ clip_name).
Proof.
  intros convert_name clip_name.
  assert (Hlit : forall lit : string,
            forallb (fun c => negb (Ascii.eqb c Path.slash)) (list_ascii_of_string lit) = true ->
            no_separator (list_ascii_of_string lit)).
  { intros lit H. apply Forall_forall. intros c Hc. rewrite forallb_forall in H.
    apply list_elem_of_In, H in Hc. intros ->. discriminate Hc. }
  assert (Hc : no_separator (list_ascii_of_string convert_name)).
  { unfold convert_name, convert_outputName.
    apply app_no_separator; [apply Hlit; reflexivity|].
    apply app_no_separator; [apply parse_name_no_separator|].
    apply app_no_separator; [apply Hlit; reflexivity|apply ext_text_no_separator]. }
  assert (Hk : no_separator (list_ascii_of_string clip_name)).
  { unfold clip_name, clip_outputName.
    apply app_no_separator; [apply Hlit; reflexivity|].
    apply app_no_separator; [apply parse_name_no_separator|].
    apply app_no_separator; [apply Hlit; reflexivity|].
    apply app_no_separator; [apply toFixed_no_separator|].
    apply app_no_separator; [apply Hlit; reflexivity|].
    apply app_no_separator; [apply toFixed_no_separator|].
    apply app_no_separator; [apply Hlit; reflexivity|apply ext_text_no_separator]. }
  assert (Hstamp : no_separator (list_ascii_of_string (Str.of_int now))).
  { unfold Str.of_int. rewrite list_ascii_of_string_of_list_ascii.
    apply decimal_no_separator. }
  split; [exact Hc|]. split; [exact Hk|]. split.
  - unfold convert_outputPath. fold convert_name. apply base_join; [discriminate|].
    apply app_no_separator; [apply Hlit; reflexivity|].
    apply app_no_separator; [exact Hstamp|].
    apply app_no_separator; [apply Hlit; reflexivity|assumption].
  - unfold clip_outputPath. fold clip_name. apply base_join; [discriminate|].
    apply app_no_separator; [apply Hlit; reflexivity|].
    apply app_no_separator; [exact Hstamp|].
    apply app_no_separator; [apply Hlit; reflexivity|assumption].
Qed.

(** ** Download names of client and server *)

Module StemFacts.
Import NameFacts.

Lemma no_dot_forallb (l : list ascii) :
  no_dot l -> forallb (fun c => negb (Ascii.eqb c Path.dot)) l = true.
Proof.
  induction 1 as [|c l Hc Hl IH]; cbn [forallb]; [reflexivity|].
  rewrite IH, andb_true_r. destruct (Ascii.eqb_spec c Path.dot); [contradiction|reflexivity].
Qed.

Lemma strip_extension_last (stem e : list ascii) :
  e <> [] -> no_dot e ->
  Client.strip_extension (stem ++ Path.dot :: e) = stem.
Proof.
  intros He Hd. induction stem as [|c stem IH]; cbn [app Client.strip_extension].
  - rewrite Ascii.eqb_refl. unfold Client.no_dot_to_end.
    destruct e; [contradiction|]. rewrite (no_dot_forallb _ Hd). reflexivity.
  - replace (Client.no_dot_to_end (stem ++ Path.dot :: e)) with false.
    + rewrite andb_false_r, IH. reflexivity.
    + symmetry. unfold Client.no_dot_to_end.
      destruct (stem ++ Path.dot :: e) eqn:E; [reflexivity|]. rewrite <- E.
      apply not_true_is_false. intros H. rewrite forallb_forall in H.
      specialize (H Path.dot). rewrite Ascii.eqb_refl in H.
      discriminate H. apply in_or_app. right. left. reflexivity.
Qed.

Lemma until_slash_whole (l : list ascii) :
  no_separator l -> Path.until_slash l = l.
Proof.
  induction 1 as [|c l Hc Hl IH]; cbn; [reflexivity|].
  destruct (Ascii.eqb_spec c Path.slash); [contradiction|]. rewrite IH. reflexivity.
Qed.

Lemma drop_slashes_whole (l : list ascii) :
  no_separator l -> Path.drop_slashes l = l.
Proof.
  destruct 1 as [|c l Hc Hl]; cbn; [reflexivity|].
  destruct (Ascii.eqb_spec c Path.slash); [contradiction|reflexivity].
Qed.

Lemma base_whole (l : list ascii) : no_separator l -> Path.base l = l.
Proof.
  intros H. unfold Path.base.
  assert (Hr : no_separator (rev l)) by (apply Forall_rev, H).
  rewrite drop_slashes_whole, until_slash_whole by exact Hr.
  apply rev_involutive.
Qed.

Lemma before_last_dot_found (e rest : list ascii) :
  no_dot e -> Path.before_last_dot (e ++ Path.dot :: rest) = Some (rev rest).
Proof.
  induction 1 as [|c e Hc He IH]; cbn.
  - reflexivity.
  - destruct (Ascii.eqb_spec c Path.dot); [contradiction|]. exact IH.
Qed.

Lemma parse_name_stem (stem e : list ascii) :
  stem <> [] -> e <> [] -> no_dot e -> no_separator (stem ++ Path.dot :: e) ->
  Path.parse_name (string_of_list_ascii (stem ++ Path.dot :: e))
  = string_of_list_ascii stem.
Proof.
  intros Hs He Hd Hsep. unfold Path.parse_name.
  rewrite list_ascii_of_string_of_list_ascii, (base_whole _ Hsep).
  rewrite rev_app_distr. cbn [rev]. rewrite <- app_assoc. cbn [app].
  rewrite before_last_dot_found by (apply Forall_rev, Hd).
  rewrite rev_involutive.
  destruct stem as [|c stem]; [contradiction|].
  destruct (String.eqb_spec (string_of_list_ascii ((c :: stem) ++ Path.dot :: e)) "..")
    as [E|_]; [|reflexivity].
  exfalso. apply (f_equal list_ascii_of_string) in E.
  rewrite list_ascii_of_string_of_list_ascii in E.
  apply (f_equal (@List.length ascii)) in E.
  rewrite List.length_app in E. cbn in E.
  destruct e as [|d e]; [contradiction|]. cbn in E. lia.
Qed.

End StemFacts.

(** X14: the name the converter tab saves a conversion under is the name
    the server proposes for the download.  For a file name made of a
    non-empty stem, a dot and a non-empty extension that holds no dot
    (and no path separator anywhere), the client's
    [name.replace(/\.[^.]+$/, '')] and the server's
    [path.parse(name).name] are both the stem, so for a format of the
    registry both names are [videoLab_<stem>.<format>].  The two differ on
    a name whose only dot comes first: the server keeps it whole, the
    client leaves nothing. *)
Theorem download_names_agree (stem e format : string) (f : File) (sp : FormatSpec) :
  stem <> "" -> e <> "" ->
  no_dot (list_ascii_of_string e) ->
  no_separator (list_ascii_of_string (stem +:+ "." +:+ e)) ->
  originalname f = stem +:+ "." +:+ e ->
  FORMATS_get format = Entry sp ->
  Client.convert_download_name (originalname f) format = "videoLab_" +:+ stem +:+ "." +:+ format
  /\ convert_outputName f (FORMATS_get format) = "videoLab_" +:+ stem +:+ "." +:+ format
  /\ Client.convert_download_name ".bashrc" format = "videoLab_." +:+ format
  /\ convert_outputName {| path := path f; originalname := ".bashrc" |} (FORMATS_get format)
     = "videoLab_.bashrc." +:+ format.
Proof.
  intros Hs He Hd Hsep Hname Hf.
  assert (Hchars : list_ascii_of_string (stem +:+ "." +:+ e)
                   = list_ascii_of_string stem ++ Path.dot :: list_ascii_of_string e).
  { rewrite !string_list_app. reflexivity. }
  assert (Hs' : list_ascii_of_string stem <> []).
  { intros E. apply Hs, list_ascii_inj. exact E. }
  assert (He' : list_ascii_of_string e <> []).
  { intros E. apply He, list_ascii_inj. exact E. }
  split; [|split; [|split]].
  - unfold Client.convert_download_name. rewrite Hname, Hchars.
    rewrite StemFacts.strip_extension_last by assumption.
    rewrite string_of_list_ascii_of_string. reflexivity.
  - unfold convert_outputName. rewrite Hname, Hf. cbn [ext_text].
    rewrite (entry_ext _ _ Hf).
    rewrite <- (string_of_list_ascii_of_string (stem +:+ "." +:+ e)), Hchars.
    rewrite StemFacts.parse_name_stem; try assumption.
    + rewrite string_of_list_ascii_of_string. reflexivity.
    + rewrite <- Hchars. exact Hsep.
  - reflexivity.
  - unfold convert_outputName. rewrite Hf. cbn [ext_text originalname].
    rewrite (entry_ext _ _ Hf). reflexivity.
Qed.

Lemma download_names_agree_witness :
  Client.convert_download_name "my.holiday.avi" "webm" = "videoLab_my.holiday.webm"
  /\ convert_outputName {| path := "/tmp/videolab/upload_1_my.holiday.avi";
                           originalname := "my.holiday.avi" |} (FORMATS_get "webm")
     = "videoLab_my.holiday.webm".
Proof.
  destruct (download_names_agree "my.holiday" "avi" "webm"
              {| path := "/tmp/videolab/upload_1_my.holiday.avi";
                 originalname := "my.holiday.avi" |}
              {| ext := "webm";
                 codec := ["-c:v"; "libvpx-vp9"; "-c:a"; "libopus"; "-b:v"; "1M"] |})
    as (H1 & H2 & _).
  - discriminate.
  - discriminate.
  - repeat constructor; discriminate.
  - repeat constructor; discriminate.
  - reflexivity.
  - reflexivity.
  - split; [exact H1|exact H2].
Defined.

(** ** The playlist *)

Module PlayerFacts.
Import Player.

Lemma in_bounds (index : Z) (s : State) :
  out_of_bounds index s = false ->
  0 <= index /\ exists f, localFiles s !! Z.to_nat index = Some f.
Proof.
  unfold out_of_bounds. intros H. apply orb_false_iff in H as [H0 H1].
  apply Z.ltb_ge in H0. apply Z.leb_gt in H1. split; [exact H0|].
  apply lookup_lt_is_Some_2. lia.
Qed.

Lemma playFile_consistent (index : Z) (s : State) :
  consistent s -> consistent (playFile index s).
Proof.
  intros [Hc Hd Hm Hrm Hru Hk]. unfold playFile.
  destruct (out_of_bounds index s) eqn:Hb; [constructor; assumption|].
  destruct (in_bounds index s Hb) as [H0 [f Hf]]. rewrite Hf.
  constructor; cbn; try assumption.
  right. split; [exact H0|]. exists f. auto.
Qed.

Lemma all_urls_delete (l : list Entry) (i : nat) (f : Entry) :
  l !! i = Some f -> all_urls l ≡ₚ urls f ++ all_urls (delete i l).
Proof.
  intros H. unfold all_urls. rewrite (delete_Permutation l i f H) at 1.
  reflexivity.
Qed.

Lemma removeFile_consistent (index : Z) (s : State) :
  consistent s -> consistent (removeFile index s).
Proof.
  intros [Hc Hd Hm Hrm Hru Hk]. unfold removeFile.
  destruct (out_of_bounds index s) eqn:Hb; [constructor; assumption|].
  destruct (in_bounds index s Hb) as [H0 [f Hf]]. rewrite Hf. cbv zeta.
  pose proof (all_urls_delete _ _ _ Hf) as Hp.
  fold (urls f).
  assert (Hd' : NoDup (all_urls (delete (Z.to_nat index) (localFiles s)))).
  { rewrite Hp in Hd. apply NoDup_app in Hd. tauto. }
  assert (Hm' : Forall (fun u => (u < next_url s)%nat)
                  (all_urls (delete (Z.to_nat index) (localFiles s)))).
  { rewrite Hp in Hm. apply Forall_app in Hm. tauto. }
  assert (Hrm' : Forall (fun u => (u < next_url s)%nat) (revoked s ++ urls f)).
  { apply Forall_app. split; [exact Hrm|].
    rewrite Hp in Hm. apply Forall_app in Hm. tauto. }
  assert (Hru' : Forall (fun u => u ∉ all_urls (delete (Z.to_nat index) (localFiles s)))
                   (revoked s ++ urls f)).
  { apply Forall_app. split.
    - eapply Forall_impl; [exact Hru|]. intros u Hu Hin. apply Hu.
      rewrite Hp. apply elem_of_app. right. exact Hin.
    - rewrite Hp in Hd. apply NoDup_app in Hd as (_ & Hdis & _).
      apply Forall_forall. exact Hdis. }
  assert (Hk' : NoDup (key <$> delete (Z.to_nat index) (localFiles s))).
  { rewrite list_fmap_delete. exact (sublist_NoDup _ _ Hk (sublist_delete _ _)). }
  destruct (currentIndex s =? index) eqn:Hci.
  { constructor; cbn; try assumption. left. auto. }
  apply Z.eqb_neq in Hci.
  destruct (index <? currentIndex s) eqn:Hlt.
  - apply Z.ltb_lt in Hlt. constructor; cbn; try assumption.
    right. destruct Hc as [[Hc _]|[Hc0 (g & Hg & Hs)]]; [lia|].
    split; [lia|]. exists g. split; [|exact Hs].
    rewrite list_lookup_delete_ge by lia.
    replace (S (Z.to_nat (currentIndex s - 1))) with (Z.to_nat (currentIndex s)) by lia.
    exact Hg.
  - apply Z.ltb_ge in Hlt. constructor; cbn; try assumption.
    destruct Hc as [Hc|[Hc0 (g & Hg & Hs)]]; [left; exact Hc|].
    right. split; [exact Hc0|]. exists g. split; [|exact Hs].
    rewrite list_lookup_delete_lt by lia. exact Hg.
Qed.

Lemma known_spec (l : list Entry) (f : MediaFile) :
  known l f = false <-> (name f, size f) ∉ (key <$> l).
Proof.
  unfold known. induction l as [|e l IH]; cbn.
  - split; [intros _ H; apply elem_of_nil in H; exact H|reflexivity].
  - rewrite orb_false_iff, IH, not_elem_of_cons. unfold key at 1.
    split.
    + intros [H Hl]. split; [|exact Hl]. intros [= Hn Hs].
      apply andb_false_iff in H as [H|H].
      * apply String.eqb_neq in H. congruence.
      * apply Z.eqb_neq in H. congruence.
    + intros [H Hl]. split; [|exact Hl].
      destruct (String.eqb (name (file e)) (name f)) eqn:En; [|reflexivity].
      destruct (Z.eqb (size (file e)) (size f)) eqn:Es; [|reflexivity].
      exfalso. apply H. apply String.eqb_eq in En. apply Z.eqb_eq in Es.
      unfold key. rewrite En, Es. reflexivity.
Qed.

Lemma add_consistent (s : State) (f : MediaFile) :
  consistent s -> consistent (add s f).
Proof.
  intros [Hc Hd Hm Hrm Hru Hk]. unfold add.
  destruct (known (localFiles s) f) eqn:Hkn; [constructor; assumption|].
  assert (Hu : all_urls (localFiles s ++
                 [{| file := f; url := next_url s; isAudio := isAudioFile (name f);
                     isNative := isNativeFormat (name f); convertedUrl := None |}])
               = all_urls (localFiles s) ++ [next_url s]).
  { unfold all_urls. rewrite bind_app. reflexivity. }
  assert (Hfresh : next_url s ∉ all_urls (localFiles s)).
  { intros Hin. rewrite Forall_forall in Hm. specialize (Hm _ Hin). lia. }
  constructor; cbn [localFiles currentIndex src next_url revoked]; rewrite ?Hu.
  - destruct Hc as [Hc|[Hc0 (g & Hg & Hs)]]; [left; exact Hc|].
    right. split; [exact Hc0|]. exists g. split; [|exact Hs].
    apply lookup_app_l_Some. exact Hg.
  - apply NoDup_app. split; [exact Hd|]. split; [|apply NoDup_singleton].
    intros u Hin Hu'. apply list_elem_of_singleton in Hu'. subst u. contradiction.
  - apply Forall_app. split.
    + eapply Forall_impl; [exact Hm|]. cbn. intros; lia.
    + constructor; [lia|constructor].
  - eapply Forall_impl; [exact Hrm|]. cbn. intros; lia.
  - rewrite Forall_forall in Hru, Hrm. apply Forall_forall. intros u Hin Hu'.
    apply elem_of_app in Hu' as [Hu'|Hu'].
    + exact (Hru u Hin Hu').
    + apply list_elem_of_singleton in Hu'. subst u. specialize (Hrm _ Hin). lia.
  - rewrite fmap_app. apply NoDup_app. split; [exact Hk|].
    split; [|apply NoDup_singleton].
    intros k Hin Hk'. apply list_elem_of_singleton in Hk'. subst k.
    apply known_spec in Hkn. exact (Hkn Hin).
Qed.

Lemma fold_add_consistent (files : list MediaFile) : forall s,
  consistent s -> consistent (fold_left add files s).
Proof.
  induction files as [|f files IH]; intros s Hs; [exact Hs|].
  cbn [fold_left]. apply IH, add_consistent, Hs.
Qed.

End PlayerFacts.

(** X15: the playlist of the player stays consistent.  It is consistent at
    the start, and every operation on it (adding files, playing an entry,
    removing an entry, the end of a video, skipping a conversion) keeps it
    so, whatever the index or the files given: the current index is [-1]
    with an empty video source, or it points at an entry of the list whose
    object URL is the video source; the object URLs in the list are
    distinct and none of them has been revoked, so the video never plays
    from a revoked URL; and no two entries have both the same name and the
    same size. *)
Theorem playlist_stays_consistent :
  Player.consistent Player.initial
  /\ forall s, Player.consistent s ->
       (forall files, Player.consistent (Player.handleFiles files s))
       /\ (forall index, Player.consistent (Player.playFile index s))
       /\ (forall index, Player.consistent (Player.removeFile index s))
       /\ Player.consistent (Player.onVideoEnded s)
       /\ Player.consistent (Player.playNextOrShowEmpty s)
       /\ (forall u, Player.src s = Some u -> u ∉ Player.revoked s).
Proof.
  split.
  - constructor; cbn.
    + left. auto.
    + constructor.
    + constructor.
    + constructor.
    + constructor.
    + constructor.
  - intros s Hs. split; [|split; [|split; [|split; [|split]]]].
    + intros files. unfold Player.handleFiles.
      destruct files as [|f files]; [exact Hs|].
      destruct (List.filter Player.is_media (f :: files)) as [|m ms]; [exact Hs|].
      apply PlayerFacts.playFile_consistent, PlayerFacts.fold_add_consistent, Hs.
    + intros index. apply PlayerFacts.playFile_consistent, Hs.
    + intros index. apply PlayerFacts.removeFile_consistent, Hs.
    + unfold Player.onVideoEnded. destruct (_ <? _); [|exact Hs].
      apply PlayerFacts.playFile_consistent, Hs.
    + unfold Player.playNextOrShowEmpty. destruct (_ <? _); [|exact Hs].
      apply PlayerFacts.playFile_consistent, Hs.
    + intros u Hu Hin. destruct Hs as [Hc _ _ _ Hru _].
      destruct Hc as [[_ Hc]|[_ (f & Hf & Hsrc)]]; [congruence|].
      rewrite Forall_forall in Hru. apply (Hru u Hin).
      rewrite Hu in Hsrc. injection Hsrc as ->.
      unfold Player.all_urls. apply list_elem_of_bind. exists f. split.
      * unfold Player.playable, Player.urls.
        destruct (Player.convertedUrl f); [apply list_elem_of_further|]; apply list_elem_of_here.
      * eapply list_elem_of_lookup_2. exact Hf.
Qed.

Module PlaylistFacts.
Import Player PlayerFacts.

Lemma known_app (l k : list Entry) (f : MediaFile) :
  known (l ++ k) f = known l f || known k f.
Proof. unfold known. apply existsb_app. Qed.

(** What the loop of [handleFiles] appends. *)
Lemma fold_add_appends (files : list MediaFile) : forall s,
  exists added,
    localFiles (fold_left add files s) = localFiles s ++ added
    /\ Forall (fun e => In (file e) files /\ known (localFiles s) (file e) = false
                        /\ convertedUrl e = None) added
    /\ (forall f, In f files -> known (localFiles (fold_left add files s)) f = true)
    /\ (forall f, known (localFiles s) f = true ->
          known (localFiles (fold_left add files s)) f = true)
    /\ (added = [] -> fold_left add files s = s)
    /\ currentIndex (fold_left add files s) = currentIndex s
    /\ src (fold_left add files s) = src s
    /\ revoked (fold_left add files s) = revoked s.
Proof.
  induction files as [|f files IH]; intros s; cbn [fold_left].
  - exists []. rewrite app_nil_r. repeat split; auto; try (intros ? []).
  - destruct (IH (add s f)) as (added & Hl & Hall & Hin & Hmono & Hnil & Hc & Hs & Hr).
    unfold add in *. destruct (known (localFiles s) f) eqn:Hk.
    + exists added. split; [exact Hl|]. split; [|split; [|split; [|split]]].
      * eapply Forall_impl; [exact Hall|]. cbn. intros e (H1 & H2 & H3). auto.
      * intros g [<-|Hg]; [apply Hmono, Hk|apply Hin, Hg].
      * exact Hmono.
      * exact Hnil.
      * auto.
    + cbn [localFiles currentIndex src revoked] in *.
      eexists (_ :: added). split; [rewrite Hl, <- app_assoc; reflexivity|].
      split; [|split; [|split; [|split]]].
      * constructor; [cbn; auto|].
        eapply Forall_impl; [exact Hall|]. cbn. intros e (H1 & H2 & H3).
        split; [auto|]. split; [|exact H3].
        rewrite known_app in H2. apply orb_false_iff in H2. tauto.
      * intros g [<-|Hg]; [|apply Hin, Hg].
        apply Hmono. rewrite known_app. cbn.
        rewrite String.eqb_refl, Z.eqb_refl. apply orb_true_r.
      * intros g Hg. apply Hmono. rewrite known_app, Hg. reflexivity.
      * discriminate.
      * auto.
Qed.

End PlaylistFacts.

Module AppendFacts.
Import Player PlayerFacts PlaylistFacts.

Lemma known_key (l : list Entry) (f : MediaFile) :
  known l f = bool_decide (file_key f ∈ key <$> l).
Proof.
  induction l as [|e l IH]; [reflexivity|].
  cbn [known existsb fmap list_fmap]. fold (known l f). rewrite IH.
  destruct (decide (file_key f = key e)) as [E|E].
  - rewrite (bool_decide_eq_true_2 (file_key f ∈ key e :: (key <$> l)))
      by (rewrite E; apply list_elem_of_here).
    unfold file_key, key in E. injection E as En Es.
    rewrite En, Es, String.eqb_refl, Z.eqb_refl. reflexivity.
  - assert (Hne : String.eqb (name (file e)) (name f) && (size (file e) =? size f) = false).
    { apply andb_false_iff.
      destruct (String.eqb_spec (name (file e)) (name f)) as [En|En]; [|auto].
      right. apply Z.eqb_neq. intros Es. apply E. unfold file_key, key. congruence. }
    rewrite Hne. cbn [orb]. apply bool_decide_ext. rewrite elem_of_cons. tauto.
Qed.

(** Only the set of the keys seen matters. *)
Lemma new_files_ext (batch : list MediaFile) : forall seen seen',
  (forall k, k ∈ seen <-> k ∈ seen') -> new_files seen batch = new_files seen' batch.
Proof.
  induction batch as [|f r IH]; intros seen seen' H; [reflexivity|].
  cbn [new_files]. rewrite (bool_decide_ext _ _ (H (file_key f))).
  destruct (bool_decide (file_key f ∈ seen')); [apply IH, H|].
  f_equal. apply IH. intros k. rewrite !elem_of_cons, H. reflexivity.
Qed.

(** The new files come in the order of the batch. *)
Lemma new_files_sublist (batch : list MediaFile) : forall seen,
  new_files seen batch `sublist_of` batch.
Proof.
  induction batch as [|f r IH]; intros seen; cbn [new_files]; [constructor|].
  destruct (bool_decide _).
  - apply sublist_cons, IH.
  - apply sublist_skip, IH.
Qed.

(** None of them was seen, and no two have the same name and size. *)
Lemma new_files_distinct (batch : list MediaFile) : forall seen,
  (forall f, f ∈ new_files seen batch -> file_key f ∉ seen)
  /\ NoDup (file_key <$> new_files seen batch).
Proof.
  induction batch as [|f r IH]; intros seen; cbn [new_files].
  - split; [intros f H; apply elem_of_nil in H; destruct H|constructor].
  - case_bool_decide as Hf; [apply IH|].
    destruct (IH (file_key f :: seen)) as [Hnot Hnd]. split.
    + intros g Hg. apply elem_of_cons in Hg as [->|Hg]; [exact Hf|].
      intros Hin. apply (Hnot g Hg). apply list_elem_of_further, Hin.
    + cbn [fmap list_fmap]. constructor; [|exact Hnd].
      intros Hin. apply list_elem_of_fmap in Hin as (g & Eg & Hg).
      apply (Hnot g Hg). rewrite <- Eg. apply list_elem_of_here.
Qed.

(** What the loop of [handleFiles] makes of the list and of the counter of
    object URLs. *)
Lemma fold_add_new_files (batch : list MediaFile) : forall s,
  localFiles (fold_left add batch s)
  = localFiles s ++ entries_from (next_url s) (new_files (key <$> localFiles s) batch).
Proof.
  induction batch as [|f r IH]; intros s; cbn [fold_left new_files].
  - rewrite app_nil_r. reflexivity.
  - rewrite IH. unfold add. rewrite known_key.
    destruct (bool_decide (file_key f ∈ key <$> localFiles s)); [reflexivity|].
    cbn [localFiles next_url entries_from]. rewrite <- app_assoc. cbn [app].
    do 3 f_equal. apply new_files_ext. intros k.
    rewrite fmap_app, elem_of_app, elem_of_cons. cbn [fmap list_fmap].
    rewrite elem_of_cons, elem_of_nil. unfold key, file_key. cbn [file]. tauto.
Qed.

End AppendFacts.

(** X16: what adding files does.  The list grows at its end by the entries
    of the new files of the batch and by nothing else: the files that pass
    the filter and whose name and size no entry of the list and no earlier
    file of the batch has, each once, in the order of the batch, with the
    next object URLs in this order.  Afterwards every media file of the
    batch is in the list.  When something was appended, the first appended
    entry becomes the current one and its object URL the video source;
    when nothing was, the state is what it was: a batch of files that are
    all in the list already does not restart any of them. *)
Theorem handleFiles_appends_new_media (files : list Player.MediaFile) (s : Player.State) :
  let media := List.filter Player.is_media files in
  let added := Player.new_files (Player.key <$> Player.localFiles s) media in
  let s' := Player.handleFiles files s in
  Player.localFiles s'
  = Player.localFiles s ++ Player.entries_from (Player.next_url s) added
  /\ added `sublist_of` media
  /\ NoDup (Player.file_key <$> added)
  /\ (forall f, f ∈ added -> Player.known (Player.localFiles s) f = false)
  /\ (forall f, In f files -> Player.is_media f = true ->
        Player.known (Player.localFiles s') f = true)
  /\ match added with
     | [] => s' = s
     | _ :: _ =>
         Player.currentIndex s' = Z.of_nat (List.length (Player.localFiles s))
         /\ Player.src s' = Some (Player.next_url s)
     end.
Proof.
  intros media added s'.
  pose proof (AppendFacts.fold_add_new_files media s) as Hfold. fold added in Hfold.
  destruct (PlaylistFacts.fold_add_appends media s)
    as (added' & Hl & _ & Hin & _ & Hnil & Hc & Hs & Hr).
  assert (Eadded : added' = Player.entries_from (Player.next_url s) added).
  { rewrite Hfold in Hl. apply app_inv_head in Hl. symmetry. exact Hl. }
  set (s1 := fold_left Player.add media s) in *.
  assert (Hplay : s' = Player.playFile (Z.of_nat (List.length (Player.localFiles s))) s1).
  { assert (Hend : Player.playFile (Z.of_nat (List.length (Player.localFiles s))) s = s).
    { unfold Player.playFile, Player.out_of_bounds.
      replace (_ <=? _) with true by (symmetry; apply Z.leb_le; lia).
      rewrite orb_true_r. reflexivity. }
    unfold s', Player.handleFiles. fold media. unfold s1.
    destruct files as [|f0 files0]; [symmetry; exact Hend|].
    destruct media as [|m ms]; [symmetry; exact Hend|]. reflexivity. }
  assert (Hfiles : Player.localFiles s' = Player.localFiles s1).
  { rewrite Hplay. unfold Player.playFile.
    destruct (Player.out_of_bounds _ _); [reflexivity|].
    destruct (_ !! _); reflexivity. }
  destruct (AppendFacts.new_files_distinct media (Player.key <$> Player.localFiles s))
    as [Hnot Hnd]. fold added in Hnot, Hnd.
  split; [rewrite Hfiles; exact Hfold|].
  split; [apply AppendFacts.new_files_sublist|].
  split; [exact Hnd|]. split; [|split].
  - intros f Hf. rewrite AppendFacts.known_key.
    apply bool_decide_eq_false, Hnot, Hf.
  - intros f Hf Hm. rewrite Hfiles. apply Hin. apply filter_In. auto.
  - destruct added as [|f0 added0].
    + rewrite Hplay, (Hnil Eadded).
      unfold Player.playFile, Player.out_of_bounds.
      replace (_ <=? _) with true by (symmetry; apply Z.leb_le; lia).
      rewrite orb_true_r. reflexivity.
    + rewrite Hplay. unfold Player.playFile, Player.out_of_bounds. rewrite Hfold.
      rewrite List.length_app. cbn [Player.entries_from List.length].
      replace (_ <? 0) with false by (symmetry; apply Z.ltb_ge; lia).
      replace (_ <=? _) with false by (symmetry; apply Z.leb_gt; lia).
      cbn [orb]. rewrite Nat2Z.id.
      rewrite (lookup_app_r (Player.localFiles s)) by lia.
      rewrite Nat.sub_diag. cbn [lookup list_lookup Player.currentIndex Player.src].
      split; reflexivity.
Qed.

(** Two files of one name and size in a batch: the first is taken, and
    the order of the batch is kept. *)
Example handleFiles_sample :
  let a := {| Player.name := "a.mp4"; Player.size := 10; Player.type := "video/mp4" |} in
  let b := {| Player.name := "b.mp3"; Player.size := 20; Player.type := "" |} in
  let a' := {| Player.name := "a.mp4"; Player.size := 10; Player.type := "" |} in
  let t := {| Player.name := "notes.txt"; Player.size := 5; Player.type := "text/plain" |} in
  let s := Player.handleFiles [b; t; a; a'] Player.initial in
  map Player.file (Player.localFiles s) = [b; a]
  /\ map Player.url (Player.localFiles s) = [0%nat; 1%nat]
  /\ Player.currentIndex s = 0
  /\ Player.src s = Some 0%nat
  /\ Player.handleFiles [a'; b] s = s.
Proof. repeat split; reflexivity. Qed.

(** X17: removing an entry other than the current one leaves the current
    entry current.  The index is moved down when the removed entry stood
    before it, so it points at the same entry as before, and the video
    source is not touched; only the object URLs of the removed entry are
    revoked.  Removing the current entry empties the source and leaves no
    entry current. *)
Theorem removeFile_keeps_current (index : Z) (s : Player.State) (f : Player.Entry) :
  0 <= index -> Player.localFiles s !! Z.to_nat index = Some f ->
  0 <= Player.currentIndex s ->
  let s' := Player.removeFile index s in
  Player.localFiles s' = delete (Z.to_nat index) (Player.localFiles s)
  /\ Player.revoked s' = Player.revoked s ++ Player.urls f
  /\ (Player.currentIndex s <> index ->
        0 <= Player.currentIndex s'
        /\ Player.localFiles s' !! Z.to_nat (Player.currentIndex s')
           = Player.localFiles s !! Z.to_nat (Player.currentIndex s)
        /\ Player.src s' = Player.src s)
  /\ (Player.currentIndex s = index ->
        Player.currentIndex s' = -1 /\ Player.src s' = None).
Proof.
  intros H0 Hf Hc s'. subst s'. unfold Player.removeFile, Player.out_of_bounds.
  assert (Hlen : (Z.to_nat index < List.length (Player.localFiles s))%nat).
  { apply lookup_lt_is_Some_1. eauto. }
  replace (index <? 0) with false by (symmetry; apply Z.ltb_ge; lia).
  replace (_ <=? index) with false by (symmetry; apply Z.leb_gt; lia).
  cbn [orb]. rewrite Hf. cbv zeta. fold (Player.urls f).
  destruct (Player.currentIndex s =? index) eqn:Hci.
  - apply Z.eqb_eq in Hci. cbn. split; [reflexivity|]. split; [reflexivity|].
    split; [intros H; contradiction|]. intros _. split; reflexivity.
  - apply Z.eqb_neq in Hci. destruct (index <? Player.currentIndex s) eqn:Hlt.
    + apply Z.ltb_lt in Hlt. cbn. split; [reflexivity|]. split; [reflexivity|].
      split; [|contradiction]. intros _. split; [lia|]. split; [|reflexivity].
      rewrite list_lookup_delete_ge by lia. f_equal. lia.
    + apply Z.ltb_ge in Hlt. cbn. split; [reflexivity|]. split; [reflexivity|].
      split; [|contradiction]. intros _. split; [lia|]. split; [|reflexivity].
      rewrite list_lookup_delete_lt by lia. reflexivity.
Qed.

Lemma removeFile_keeps_current_witness :
  let a := {| Player.file := {| Player.name := "a.mp4"; Player.size := 10;
                                Player.type := "video/mp4" |};
              Player.url := 0%nat; Player.isAudio := false; Player.isNative := true;
              Player.convertedUrl := None |} in
  let b := {| Player.file := {| Player.name := "b.mkv"; Player.size := 20;
                                Player.type := "" |};
              Player.url := 1%nat; Player.isAudio := false; Player.isNative := false;
              Player.convertedUrl := Some 2%nat |} in
  let s := {| Player.localFiles := [a; b]; Player.currentIndex := 1;
              Player.src := Some 2%nat; Player.next_url := 3%nat;
              Player.revoked := [] |} in
  Player.localFiles (Player.removeFile 0 s) !! 0%nat = Some b
  /\ Player.currentIndex (Player.removeFile 0 s) = 0
  /\ Player.src (Player.removeFile 0 s) = Some 2%nat.
Proof.
  intros a b s.
  destruct (removeFile_keeps_current 0 s a) as (_ & _ & Hkeep & _);
    [lia | reflexivity | cbn; lia |].
  destruct Hkeep as (_ & Hl & Hs); [cbn; lia|].
  split; [|split].
  - exact Hl.
  - reflexivity.
  - exact Hs.
Defined.

(** ** Numbers within bounds *)

Module DoubleFacts.
Import Double.

Lemma shr_1_nonneg (mrs : shr_record) : 0 <= shr_m mrs -> 0 <= shr_m (shr_1 mrs).
Proof.
  destruct mrs as [m r s]. cbn. destruct m as [|[p|p|]|p]; cbn; lia.
Qed.

Lemma iter_pos_nonneg (n : positive) : forall mrs,
  0 <= shr_m mrs -> 0 <= shr_m (SpecFloat.iter_pos shr_1 n mrs).
Proof.
  induction n as [n IH|n IH|]; intros mrs H; cbn.
  - apply IH, IH, shr_1_nonneg, H.
  - apply IH, IH, H.
  - apply shr_1_nonneg, H.
Qed.

Lemma shr_fexp_nonneg (m e : Z) (l : location) :
  0 <= m -> 0 <= shr_m (fst (shr_fexp prec emax m e l)).
Proof.
  intros H. unfold shr_fexp, shr.
  assert (H0 : 0 <= shr_m (shr_record_of_loc m l)).
  { destruct l as [|[]]; exact H. }
  destruct (_ - e) as [|p|p]; cbn [fst]; [exact H0| |exact H0].
  apply iter_pos_nonneg, H0.
Qed.

Lemma round_nearest_even_nonneg (m : Z) (l : location) :
  0 <= m -> 0 <= round_nearest_even m l.
Proof.
  intros H. unfold round_nearest_even.
  destruct l as [|[]]; try destruct (Z.even m); lia.
Qed.

Lemma binary_round_aux_not_NaN (sx : bool) (mx ex : Z) (lx : location) :
  0 <= mx -> isNaN (binary_round_aux prec emax sx mx ex lx) = false.
Proof.
  intros H. unfold binary_round_aux.
  pose proof (shr_fexp_nonneg mx ex lx H) as H1.
  destruct (shr_fexp prec emax mx ex lx) as [mrs' e']. cbn [fst] in H1.
  pose proof (shr_fexp_nonneg _ e' loc_Exact
                (round_nearest_even_nonneg _ (loc_of_shr_record mrs') H1)) as H2.
  destruct (shr_fexp prec emax _ e' loc_Exact) as [mrs'' e'']. cbn [fst] in H2.
  destruct (shr_m mrs'') as [|p|p]; [reflexivity| |lia].
  destruct (_ <=? _); reflexivity.
Qed.

Lemma binary_normalize_not_NaN (m e : Z) (szero : bool) :
  isNaN (binary_normalize prec emax m e szero) = false.
Proof.
  unfold binary_normalize, binary_round.
  destruct m as [|p|p]; [reflexivity| |];
    destruct (shl_align _ _ _) as [mz ez]; apply binary_round_aux_not_NaN; lia.
Qed.

Lemma add_not_NaN (x y : number) :
  is_finite x = true -> is_finite y = true -> isNaN (add x y) = false.
Proof.
  destruct x as [sx|sx| |sx mx ex], y as [sy|sy| |sy my ey]; try discriminate; intros _ _.
  - destruct sx, sy; reflexivity.
  - reflexivity.
  - reflexivity.
  - apply binary_normalize_not_NaN.
Qed.

Lemma sub_not_NaN (x y : number) :
  is_finite x = true -> is_finite y = true -> isNaN (sub x y) = false.
Proof.
  destruct x as [sx|sx| |sx mx ex], y as [sy|sy| |sy my ey]; try discriminate; intros _ _.
  - destruct sx, sy; reflexivity.
  - reflexivity.
  - reflexivity.
  - apply binary_normalize_not_NaN.
Qed.

Lemma mul_not_NaN (x y : number) :
  is_finite x = true -> is_finite y = true -> isNaN (mul x y) = false.
Proof.
  destruct x as [sx|sx| |sx mx ex], y as [sy|sy| |sy my ey]; try discriminate; intros _ _;
    try reflexivity.
  apply binary_round_aux_not_NaN. lia.
Qed.

(** The two cases of a maximum and of a minimum of numbers. *)
Lemma max_cases (x y : number) :
  isNaN x = false -> isNaN y = false ->
  (Math_max x y = x /\ (SFcompare x y = Some Gt \/ SFcompare x y = Some Eq))
  \/ (Math_max x y = y /\ (SFcompare x y = Some Lt \/ SFcompare x y = Some Eq)).
Proof.
  intros Hx Hy. unfold Math_max.
  destruct (SFcompare x y) as [[| |]|] eqn:E.
  - destruct x as [[]| | |], y as [[]| | |]; auto.
  - auto.
  - auto.
  - destruct x, y; discriminate.
Qed.

Lemma min_cases (x y : number) :
  isNaN x = false -> isNaN y = false ->
  (Math_min x y = x /\ (SFcompare x y = Some Lt \/ SFcompare x y = Some Eq))
  \/ (Math_min x y = y /\ (SFcompare x y = Some Gt \/ SFcompare x y = Some Eq)).
Proof.
  intros Hx Hy. unfold Math_min.
  destruct (SFcompare x y) as [[| |]|] eqn:E.
  - destruct x as [[]| | |], y as [[]| | |]; auto.
  - auto.
  - auto.
  - destruct x, y; discriminate.
Qed.

End DoubleFacts.

Module ClampFacts.
Import Double DoubleFacts.

Lemma compare_refl (x : number) : isNaN x = false -> SFcompare x x = Some Eq.
Proof.
  destruct x as [s|s| |s m e]; try discriminate; intros _; cbn.
  - reflexivity.
  - destruct s; reflexivity.
  - rewrite Z.compare_refl, Pos.compare_cont_refl. destruct s; reflexivity.
Qed.

(** Numbers that compare equal are the same, or both zero. *)
Lemma compare_eq (x y : number) :
  SFcompare x y = Some Eq -> x = y \/ (exists sx sy, x = S754_zero sx /\ y = S754_zero sy).
Proof.
  destruct x as [sx|sx| |sx mx ex], y as [sy|sy| |sy my ey]; cbn;
    try discriminate; try (destruct sx; discriminate); try (destruct sy; discriminate).
  - intros _. right. eauto.
  - destruct sx, sy; try discriminate; auto.
  - intros H. left.
    assert (Hc : (ex ?= ey) = Eq /\ Pos.compare_cont Eq mx my = Eq /\ sx = sy).
    { destruct sx, sy; try discriminate; destruct (ex ?= ey); try discriminate;
        destruct (Pos.compare_cont Eq mx my); try discriminate; auto. }
    destruct Hc as (He & Hm & ->).
    apply Z.compare_eq in He. apply Pos.compare_eq in Hm. congruence.
Qed.

Lemma leb_of_compare (x y : number) :
  SFcompare x y = Some Lt \/ SFcompare x y = Some Eq -> leb x y = true.
Proof. unfold leb, SFleb. intros [-> | ->]; reflexivity. Qed.

Lemma leb_of_compare_rev (x y : number) :
  SFcompare x y = Some Gt \/ SFcompare x y = Some Eq -> leb y x = true.
Proof.
  intros [H|H]; apply NumberFacts.compare_antisym in H; apply leb_of_compare; auto.
Qed.

Lemma max_not_NaN (x y : number) :
  isNaN x = false -> isNaN y = false -> isNaN (Math_max x y) = false.
Proof.
  intros Hx Hy. destruct (max_cases x y Hx Hy) as [[-> _]|[-> _]]; assumption.
Qed.

Lemma min_not_NaN (x y : number) :
  isNaN x = false -> isNaN y = false -> isNaN (Math_min x y) = false.
Proof.
  intros Hx Hy. destruct (min_cases x y Hx Hy) as [[-> _]|[-> _]]; assumption.
Qed.

(** [Math.max(lo, ...)] is at least [lo], [Math.min(hi, ...)] at most [hi]. *)
Lemma max_lower (lo y : number) :
  isNaN lo = false -> isNaN y = false -> leb lo (Math_max lo y) = true.
Proof.
  intros Hl Hy. destruct (max_cases lo y Hl Hy) as [[-> _]|[-> H]].
  - apply leb_of_compare. right. apply compare_refl, Hl.
  - apply leb_of_compare, H.
Qed.

Lemma min_upper (hi y : number) :
  isNaN hi = false -> isNaN y = false -> leb (Math_min hi y) hi = true.
Proof.
  intros Hh Hy. destruct (min_cases hi y Hh Hy) as [[-> _]|[-> H]].
  - apply leb_of_compare. right. apply compare_refl, Hh.
  - apply leb_of_compare_rev, H.
Qed.

(** [Math.max(lo, Math.min(hi, x))] lies between [lo] and [hi]. *)
Lemma clamp_bounds (lo hi x : number) :
  isNaN lo = false -> isNaN hi = false -> isNaN x = false -> leb lo hi = true ->
  leb lo (Math_max lo (Math_min hi x)) = true
  /\ leb (Math_max lo (Math_min hi x)) hi = true.
Proof.
  intros Hl Hh Hx Hlh.
  pose proof (min_not_NaN hi x Hh Hx) as Hm.
  split; [apply max_lower; assumption|].
  destruct (max_cases lo (Math_min hi x) Hl Hm) as [[-> _]|[-> _]].
  - exact Hlh.
  - apply min_upper; assumption.
Qed.

(** A number within the bounds is left as it is. *)
Lemma clamp_fixed (lo hi x : number) :
  is_finite lo = true -> is_finite hi = true ->
  (forall s, lo <> S754_zero s) -> (forall s, hi <> S754_zero s) ->
  leb lo x = true -> leb x hi = true ->
  Math_max lo (Math_min hi x) = x.
Proof.
  intros Hl Hh Hlz Hhz Hlx Hxh.
  assert (Hmin : Math_min hi x = x).
  { unfold Math_min. unfold leb, SFleb in Hxh.
    destruct (SFcompare x hi) as [c|] eqn:E; [|discriminate].
    rewrite (NumberFacts.compare_antisym _ _ _ E).
    destruct c; try discriminate; cbn [CompOpp]; [|reflexivity].
    apply compare_eq in E as [->|(sx & sy & _ & E)].
    - destruct hi as [[]| | |]; reflexivity.
    - destruct (Hhz _ E). }
  rewrite Hmin. unfold Math_max. unfold leb, SFleb in Hlx.
  destruct (SFcompare lo x) as [[| |]|] eqn:E; try discriminate; [|reflexivity].
  apply compare_eq in E as [->|(sx & sy & E & _)].
  - destruct x as [[]| | |]; reflexivity.
  - destruct (Hlz _ E).
Qed.

Lemma is_finite_not_NaN (x : number) : is_finite x = true -> isNaN x = false.
Proof. destruct x; try discriminate; reflexivity. Qed.

(** Equality of numbers as [===] has it: the two zeros are equal. *)
Lemma eqb_of_compare (x y : number) : SFcompare x y = Some Eq -> SFeqb x y = true.
Proof. unfold SFeqb. intros ->. reflexivity. Qed.

Lemma eqb_refl (x : number) : isNaN x = false -> SFeqb x x = true.
Proof. intros H. apply eqb_of_compare, compare_refl, H. Qed.

Lemma eqb_cases (x y : number) :
  SFeqb x y = true -> x = y \/ (exists sx sy, x = S754_zero sx /\ y = S754_zero sy).
Proof.
  unfold SFeqb. intros H. apply compare_eq.
  destruct (SFcompare x y) as [[]|]; try discriminate H. reflexivity.
Qed.

Lemma leb_zero_sign_r (x : number) (s s' : bool) :
  leb x (S754_zero s) = leb x (S754_zero s').
Proof. destruct x as [sx|sx| |sx mx ex]; reflexivity. Qed.

Lemma leb_zero_sign_l (x : number) (s s' : bool) :
  leb (S754_zero s) x = leb (S754_zero s') x.
Proof. destruct x as [sx|sx| |sx mx ex]; reflexivity. Qed.

Lemma leb_eqb_r (lo m x : number) :
  SFeqb m x = true -> leb lo x = true -> leb lo m = true.
Proof.
  intros E H. apply eqb_cases in E as [->|(sm & sx & -> & ->)]; [exact H|].
  rewrite (leb_zero_sign_r lo sm sx). exact H.
Qed.

Lemma leb_eqb_l (hi m x : number) :
  SFeqb m x = true -> leb x hi = true -> leb m hi = true.
Proof.
  intros E H. apply eqb_cases in E as [->|(sm & sx & -> & ->)]; [exact H|].
  rewrite (leb_zero_sign_l hi sm sx). exact H.
Qed.

Lemma eqb_trans (x y z : number) :
  SFeqb x y = true -> SFeqb y z = true -> SFeqb x z = true.
Proof.
  intros Exy Eyz. apply eqb_cases in Exy as [->|(sx & sy & -> & ->)]; [exact Eyz|].
  destruct z as [sz|[]| |[] mz ez]; try discriminate Eyz; reflexivity.
Qed.

Lemma compare_of_leb (x y : number) :
  leb x y = true -> SFcompare x y = Some Lt \/ SFcompare x y = Some Eq.
Proof.
  unfold leb, SFleb. destruct (SFcompare x y) as [[]|]; try discriminate; auto.
Qed.

(** The smaller and the larger of two ordered numbers. *)
Lemma min_eqb_l (x y : number) :
  isNaN x = false -> isNaN y = false -> leb x y = true -> SFeqb (Math_min x y) x = true.
Proof.
  intros Hx Hy H. destruct (min_cases x y Hx Hy) as [[-> _]|[-> Hc]].
  - apply eqb_refl, Hx.
  - apply eqb_of_compare. apply compare_of_leb in H.
    destruct H as [H|H], Hc as [Hc|Hc]; try congruence.
    apply NumberFacts.compare_antisym in H. exact H.
Qed.

Lemma min_eqb_r (x y : number) :
  isNaN x = false -> isNaN y = false -> leb y x = true -> SFeqb (Math_min x y) y = true.
Proof.
  intros Hx Hy H. destruct (min_cases x y Hx Hy) as [[-> Hc]|[-> _]].
  - apply eqb_of_compare. apply compare_of_leb in H.
    destruct H as [H|H]; apply NumberFacts.compare_antisym in H; cbn in H;
      destruct Hc as [Hc|Hc]; congruence.
  - apply eqb_refl, Hy.
Qed.

Lemma max_eqb_l (x y : number) :
  isNaN x = false -> isNaN y = false -> leb y x = true -> SFeqb (Math_max x y) x = true.
Proof.
  intros Hx Hy H. destruct (max_cases x y Hx Hy) as [[-> _]|[-> Hc]].
  - apply eqb_refl, Hx.
  - apply eqb_of_compare. apply compare_of_leb in H.
    destruct H as [H|H]; [|exact H].
    apply NumberFacts.compare_antisym in H. cbn in H.
    destruct Hc as [Hc|Hc]; congruence.
Qed.

Lemma max_eqb_r (x y : number) :
  isNaN x = false -> isNaN y = false -> leb x y = true -> SFeqb (Math_max x y) y = true.
Proof.
  intros Hx Hy H. destruct (max_cases x y Hx Hy) as [[-> Hc]|[-> _]].
  - apply eqb_of_compare. apply compare_of_leb in H.
    destruct H as [H|H], Hc as [Hc|Hc]; congruence.
  - apply eqb_refl, Hy.
Qed.

(** [Math.max(lo, Math.min(x, hi))], the way the start of the range is
    set: at least [lo]; at most [hi] when the bounds are in order; and
    [x] itself when [x] lies within them. *)
Lemma clamp_up (lo hi x : number) :
  isNaN lo = false -> isNaN hi = false -> isNaN x = false ->
  let y := Math_max lo (Math_min x hi) in
  leb lo y = true
  /\ (leb lo hi = true -> leb y hi = true)
  /\ (leb lo x = true -> leb x hi = true -> SFeqb y x = true).
Proof.
  intros Hl Hh Hx y. subst y.
  pose proof (min_not_NaN x hi Hx Hh) as Hm.
  split; [apply max_lower; assumption|]. split.
  - intros Hlh. destruct (max_cases lo (Math_min x hi) Hl Hm) as [[-> _]|[-> _]];
      [exact Hlh|].
    destruct (min_cases x hi Hx Hh) as [[-> Hc]|[-> _]].
    + apply leb_of_compare, Hc.
    + apply leb_of_compare. right. apply compare_refl, Hh.
  - intros Hlx Hxh.
    pose proof (min_eqb_l x hi Hx Hh Hxh) as E.
    apply (eqb_trans _ (Math_min x hi)); [|exact E].
    apply max_eqb_r; [exact Hl|exact Hm|].
    apply (leb_eqb_r lo _ x); assumption.
Qed.

(** [Math.min(hi, Math.max(x, lo))], the way the end of the range is
    set. *)
Lemma clamp_down (lo hi x : number) :
  isNaN lo = false -> isNaN hi = false -> isNaN x = false ->
  let y := Math_min hi (Math_max x lo) in
  leb y hi = true
  /\ (leb lo hi = true -> leb lo y = true)
  /\ (leb lo x = true -> leb x hi = true -> SFeqb y x = true).
Proof.
  intros Hl Hh Hx y. subst y.
  pose proof (max_not_NaN x lo Hx Hl) as Hm.
  split; [apply min_upper; assumption|]. split.
  - intros Hlh. destruct (min_cases hi (Math_max x lo) Hh Hm) as [[-> _]|[-> _]];
      [exact Hlh|].
    destruct (max_cases x lo Hx Hl) as [[-> Hc]|[-> _]].
    + apply leb_of_compare_rev, Hc.
    + apply leb_of_compare. right. apply compare_refl, Hl.
  - intros Hlx Hxh.
    pose proof (max_eqb_l x lo Hx Hl Hlx) as E.
    apply (eqb_trans _ (Math_max x lo)); [|exact E].
    apply min_eqb_r; [exact Hh|exact Hm|].
    apply (leb_eqb_l hi _ x); assumption.
Qed.

End ClampFacts.

Import Double DoubleFacts ClampFacts.

(** X18: the numbers the controls of the player compute stay in their
    ranges.  A speed that is a number is clamped to between 0.1 and 4, a
    speed within these bounds is left as it is, and a speed that is no
    number is handed on as NaN; stepping a finite stored speed by a finite
    amount gives a speed within the bounds.  Stepping a finite volume by a
    finite amount gives a volume between 0 and 1, the range outside of
    which the video element refuses a volume.  Skipping from a finite
    position by a finite amount gives a position that is not negative,
    and not beyond the duration, read as 0 when it is unknown. *)
Theorem player_controls_in_range :
  (forall speed, isNaN speed = false ->
     leb tenth (Controls.setPlaybackSpeed speed) = true
     /\ leb (Controls.setPlaybackSpeed speed) (of_Z 4) = true)
  /\ (forall speed, leb tenth speed = true -> leb speed (of_Z 4) = true ->
        Controls.setPlaybackSpeed speed = speed)
  /\ Controls.setPlaybackSpeed NaN = NaN
  /\ (forall stored delta, is_finite stored = true -> is_finite delta = true ->
        leb tenth (Controls.adjustSpeed delta stored) = true
        /\ leb (Controls.adjustSpeed delta stored) (of_Z 4) = true)
  /\ (forall volume delta, is_finite volume = true -> is_finite delta = true ->
        leb zero (Controls.adjustVolume delta volume) = true
        /\ leb (Controls.adjustVolume delta volume) (of_Z 1) = true)
  /\ (forall seconds currentTime duration,
        is_finite currentTime = true -> is_finite seconds = true ->
        leb zero (Controls.skip seconds currentTime duration) = true
        /\ (leb zero (or_else duration zero) = true ->
            leb (Controls.skip seconds currentTime duration) (or_else duration zero) = true)).
Proof.
  split; [|split; [|split; [|split; [|split]]]].
  - intros speed Hs. apply clamp_bounds; auto.
  - intros speed Hlo Hhi. apply clamp_fixed; auto; discriminate.
  - reflexivity.
  - intros stored delta Hs Hd. apply clamp_bounds; auto.
    apply add_not_NaN; assumption.
  - intros volume delta Hv Hd. apply clamp_bounds; auto.
    apply add_not_NaN; assumption.
  - intros seconds currentTime duration Hc Hs.
    assert (Hd : isNaN (or_else duration zero) = false).
    { unfold or_else. destruct duration; reflexivity. }
    pose proof (add_not_NaN currentTime seconds Hc Hs) as Ha.
    split.
    + unfold Controls.skip. apply max_lower; [reflexivity|].
      apply min_not_NaN; assumption.
    + intros Hz. apply clamp_bounds; auto.
Qed.

(** X19: the handles of the clip range.  With a finite duration and finite
    offsets, dragging the start handle or typing a start time that is a
    number sets the start to the time pointed at or typed when that time
    lies between 0 and half a second before the end, and otherwise to a
    start that is not negative and, when the end leaves room for it, at
    most half a second before the end.  Dragging the end handle or typing
    an end time sets the end likewise between half a second after the
    start and the duration.  The other offset and the duration are not
    touched.  A typed text that reads as no number changes nothing.  (A
    pointer position whose ratio to the width of the timeline is no
    number, zero by zero, is excluded.) *)
Theorem clip_range_bounds (r : Clipper.Range) :
  is_finite (Clipper.duration r) = true ->
  is_finite (Clipper.startTime r) = true ->
  is_finite (Clipper.endTime r) = true ->
  let latest_start := sub (Clipper.endTime r) half in
  let earliest_end := add (Clipper.startTime r) half in
  let start_set (t : number) (r' : Clipper.Range) :=
    leb zero (Clipper.startTime r') = true
    /\ (leb zero latest_start = true -> leb (Clipper.startTime r') latest_start = true)
    /\ (leb zero t = true -> leb t latest_start = true ->
        SFeqb (Clipper.startTime r') t = true)
    /\ Clipper.endTime r' = Clipper.endTime r
    /\ Clipper.duration r' = Clipper.duration r in
  let end_set (t : number) (r' : Clipper.Range) :=
    leb (Clipper.endTime r') (Clipper.duration r) = true
    /\ (leb earliest_end (Clipper.duration r) = true ->
        leb earliest_end (Clipper.endTime r') = true)
    /\ (leb earliest_end t = true -> leb t (Clipper.duration r) = true ->
        SFeqb (Clipper.endTime r') t = true)
    /\ Clipper.startTime r' = Clipper.startTime r
    /\ Clipper.duration r' = Clipper.duration r in
  (forall clientX left width,
     isNaN (div (sub clientX left) width) = false ->
     let time :=
       mul (Math_max zero (Math_min (of_Z 1) (div (sub clientX left) width)))
         (Clipper.duration r) in
     start_set time (Clipper.onDrag Clipper.Start clientX left width r)
     /\ end_set time (Clipper.onDrag Clipper.End clientX left width r))
  /\ (forall value,
        isNaN (Clipper.parseTime value) = false ->
        start_set (Clipper.parseTime value)
          (Clipper.onTimeInputChange Clipper.Start value r)
        /\ end_set (Clipper.parseTime value)
             (Clipper.onTimeInputChange Clipper.End value r))
  /\ (forall which value,
        isNaN (Clipper.parseTime value) = true ->
        Clipper.onTimeInputChange which value r = r).
Proof.
  intros Hd Hs He latest_start earliest_end start_set end_set.
  pose proof (sub_not_NaN _ half He eq_refl) as Hsub.
  pose proof (add_not_NaN _ half Hs eq_refl) as Hadd.
  pose proof (is_finite_not_NaN _ Hd) as Hdn.
  assert (Hstart : forall t r', isNaN t = false ->
            Clipper.startTime r' = Math_max zero (Math_min t latest_start) ->
            Clipper.endTime r' = Clipper.endTime r ->
            Clipper.duration r' = Clipper.duration r -> start_set t r').
  { intros t r' Ht E1 E2 E3. unfold start_set. rewrite E1.
    destruct (clamp_up zero latest_start t eq_refl Hsub Ht) as (H1 & H2 & H3).
    auto. }
  assert (Hend : forall t r', isNaN t = false ->
            Clipper.endTime r' = Math_min (Clipper.duration r) (Math_max t earliest_end) ->
            Clipper.startTime r' = Clipper.startTime r ->
            Clipper.duration r' = Clipper.duration r -> end_set t r').
  { intros t r' Ht E1 E2 E3. unfold end_set. rewrite E1.
    destruct (clamp_down earliest_end (Clipper.duration r) t Hadd Hdn Ht) as (H1 & H2 & H3).
    auto. }
  split; [|split].
  - intros clientX left width Hq time.
    assert (Htime : isNaN time = false).
    { apply mul_not_NaN; [|exact Hd].
      destruct (clamp_bounds zero (of_Z 1) (div (sub clientX left) width)
                  eq_refl eq_refl Hq eq_refl) as [Hlo Hhi].
      destruct (Math_max zero (Math_min (of_Z 1) (div (sub clientX left) width)))
        as [s|[]| |s m e]; try reflexivity; discriminate. }
    split; [apply Hstart|apply Hend]; auto.
  - intros value Hn. unfold Clipper.onTimeInputChange. rewrite Hn.
    split; [apply Hstart|apply Hend]; auto.
  - intros which value Hn. unfold Clipper.onTimeInputChange. rewrite Hn. reflexivity.
Qed.

Lemma clip_range_bounds_witness :
  leb zero (Clipper.startTime
              (Clipper.onDrag Clipper.Start (of_Z (-40)) (of_Z 10) (of_Z 200)
                 (Clipper.onVideoLoaded (of_Z 90)))) = true
  /\ SFeqb (Clipper.endTime
              (Clipper.onTimeInputChange Clipper.End "1:00"
                 (Clipper.onVideoLoaded (of_Z 90)))) (of_Z 60) = true
  /\ Clipper.onTimeInputChange Clipper.End "1:xx" (Clipper.onVideoLoaded (of_Z 90))
     = Clipper.onVideoLoaded (of_Z 90).
Proof.
  destruct (clip_range_bounds (Clipper.onVideoLoaded (of_Z 90)) eq_refl eq_refl eq_refl)
    as (Hdrag & Htyped & Hnan).
  split; [|split].
  - exact (proj1 (proj1 (Hdrag (of_Z (-40)) (of_Z 10) (of_Z 200) eq_refl))).
  - destruct (Htyped "1:00" eq_refl) as [_ (_ & _ & Hkept & _)].
    exact (Hkept eq_refl eq_refl).
  - exact (Hnan Clipper.End "1:xx" eq_refl).
Defined.

(** ** Typed times and the offsets of a clip request *)

Module ParseFacts.
Import Chars Double DoubleFacts ClampFacts.

Lemma parseTime_other (str : string) :
  List.length (Str.split ":" str) <> 2%nat ->
  List.length (Str.split ":" str) <> 3%nat ->
  Clipper.parseTime str = or_else (parseFloat (Some str)) zero.
Proof.
  unfold Clipper.parseTime. intros H2 H3.
  destruct (Str.split ":" str) as [|a [|b [|c [|d l]]]]; cbn in *;
    try reflexivity; contradiction.
Qed.

Lemma or_else_zero_not_NaN (x : number) : isNaN (or_else x zero) = false.
Proof. unfold or_else. destruct x; reflexivity. Qed.

Lemma add_NaN_l (y : number) : add NaN y = NaN.
Proof. destruct y; reflexivity. Qed.

Lemma add_NaN_r (x : number) : add x NaN = NaN.
Proof. destruct x; reflexivity. Qed.

Lemma mul_NaN_l (y : number) : mul NaN y = NaN.
Proof. destruct y; reflexivity. Qed.

Lemma isNaN_eq (x : number) : isNaN x = true -> x = NaN.
Proof. destruct x; try discriminate; reflexivity. Qed.

(** *** Texts without a sign read as numbers that are not negative *)

Lemma binary_round_aux_not_negative (mx ex : Z) (lx : location) :
  not_negative (binary_round_aux prec emax false mx ex lx) = true.
Proof.
  unfold binary_round_aux.
  destruct (shr_fexp prec emax mx ex lx) as [mrs' e'].
  destruct (shr_fexp prec emax _ e' loc_Exact) as [mrs'' e''].
  destruct (shr_m mrs''); [reflexivity| |reflexivity].
  destruct (_ <=? _); reflexivity.
Qed.

Lemma binary_normalize_not_negative (m e : Z) :
  0 <= m -> not_negative (binary_normalize prec emax m e false) = true.
Proof.
  intros H. unfold binary_normalize, binary_round.
  destruct m as [|p|p]; [reflexivity| |lia].
  destruct (shl_align _ _ _). apply binary_round_aux_not_negative.
Qed.

Lemma of_decimal_not_negative (m k : Z) :
  0 <= m -> not_negative (of_decimal false m k) = true.
Proof.
  intros H. unfold of_decimal.
  destruct (m =? 0); [reflexivity|].
  destruct (310 <? _); [reflexivity|].
  destruct (_ <? -330); [reflexivity|].
  destruct (0 <=? k) eqn:Hk.
  - apply binary_normalize_not_negative. apply Z.leb_le in Hk.
    apply Z.mul_nonneg_nonneg; [exact H|]. apply Z.pow_nonneg. lia.
  - destruct (SFdiv_core_binary _ _ _ _ _ _) as [[q e] l].
    apply binary_round_aux_not_negative.
Qed.

Lemma span_digits_fst (s : list ascii) : forallb is_digit (fst (span_digits s)) = true.
Proof.
  induction s as [|c s IH]; cbn; [reflexivity|].
  destruct (is_digit c) eqn:Hc; [|reflexivity].
  destruct (span_digits s) as [d r]. cbn in *. rewrite Hc, IH. reflexivity.
Qed.

Lemma digit_val_nonneg (c : ascii) : is_digit c = true -> 0 <= digit_val c.
Proof.
  unfold is_digit, digit_val. intros H. apply andb_true_iff in H as [H _].
  apply N.leb_le in H. lia.
Qed.

Lemma digits_val_nonneg (l : list ascii) :
  forallb is_digit l = true -> 0 <= digits_val l.
Proof.
  unfold digits_val.
  assert (H : forall acc, 0 <= acc -> forallb is_digit l = true ->
                0 <= fold_left (fun a c => 10 * a + digit_val c) l acc).
  { induction l as [|c l IH]; intros acc Ha Hl; cbn; [exact Ha|].
    cbn in Hl. apply andb_true_iff in Hl as [Hc Hl].
    apply IH; [|exact Hl]. pose proof (digit_val_nonneg c Hc). lia. }
  apply H. lia.
Qed.

Lemma parseFloat_unsigned (l : list ascii) :
  unsigned l = true -> not_negative (parseFloat_chars l) = true.
Proof.
  intros Hu. unfold parseFloat_chars.
  assert (Hskip : skip_spaces l = l).
  { destruct l as [|c l]; [reflexivity|]. cbn [unsigned] in Hu.
    apply andb_true_iff in Hu as [Hu _]. apply andb_true_iff in Hu as [Ha Hs].
    apply negb_true_iff in Hs. apply skip_spaces_ascii; assumption. }
  rewrite Hskip.
  assert (Hsign : exists s,
            match l with
            | c :: r => if Ascii.eqb c "-" then (true, r)
                        else if Ascii.eqb c "+" then (false, r) else (false, l)
            | [] => (false, l)
            end = (false, s)).
  { destruct l as [|c r]; [eauto|]. cbn in Hu.
    apply andb_true_iff in Hu as [_ Hm]. apply negb_true_iff in Hm. rewrite Hm.
    destruct (Ascii.eqb c "+"); eauto. }
  destruct Hsign as [s ->].
  destruct (starts_with _ s); [reflexivity|].
  pose proof (span_digits_fst s) as Hip.
  destruct (span_digits s) as [ip r]. cbn [fst] in Hip.
  set (frac := match r with
               | c :: t => if Ascii.eqb c "." then span_digits t else ([], r)
               | [] => ([], r)
               end).
  assert (Hfp : forallb is_digit (fst frac) = true).
  { unfold frac. destruct r as [|c t]; [reflexivity|].
    destruct (Ascii.eqb c "."); [apply span_digits_fst|reflexivity]. }
  destruct frac as [fp r']. cbn [fst] in Hfp.
  destruct (ip ++ fp) as [|d ds] eqn:E; [reflexivity|]. rewrite <- E.
  apply of_decimal_not_negative, digits_val_nonneg.
  rewrite forallb_app, Hip, Hfp. reflexivity.
Qed.

Lemma digits_unsigned (l rest : list ascii) :
  forallb is_digit l = true -> (l = [] -> unsigned rest = true) ->
  unsigned (l ++ rest) = true.
Proof.
  destruct l as [|c l]; cbn [app]; [auto|]. intros H _. cbn [forallb unsigned] in *.
  apply andb_true_iff in H as [Hc _].
  rewrite (is_digit_ascii c Hc), (is_digit_not_space c Hc),
    (is_digit_not c "-" Hc eq_refl). reflexivity.
Qed.

Lemma forallb_firstn {A} (P : A -> bool) (n : nat) (l : list A) :
  forallb P l = true -> forallb P (firstn n l) = true.
Proof.
  revert n. induction l as [|x l IH]; intros [|n] H; cbn in *; try reflexivity.
  apply andb_true_iff in H as [Hx Hl]. rewrite Hx, (IH n Hl). reflexivity.
Qed.

Lemma strip_zeros_rev_digits (l : list ascii) :
  forallb is_digit l = true -> forallb is_digit (strip_zeros_rev l) = true.
Proof.
  induction l as [|c l IH]; cbn; [reflexivity|]. intros H.
  apply andb_true_iff in H as [Hc Hl].
  destruct (Ascii.eqb c "0"); [exact (IH Hl)|]. cbn. rewrite Hc, Hl. reflexivity.
Qed.

Lemma forallb_rev {A} (P : A -> bool) (l : list A) :
  forallb P l = true -> forallb P (rev l) = true.
Proof.
  intros H. apply forallb_forall. intros x Hx. apply in_rev in Hx.
  rewrite forallb_forall in H. exact (H x Hx).
Qed.

Lemma strip_digits (l : list ascii) :
  forallb is_digit l = true -> forallb is_digit (strip_trailing_zeros l) = true.
Proof.
  intros H. unfold strip_trailing_zeros.
  apply forallb_rev, strip_zeros_rev_digits, forallb_rev, H.
Qed.

Lemma zeros_digits (n : Z) : forallb is_digit (zeros n) = true.
Proof.
  unfold zeros. induction (Z.to_nat n) as [|k IH]; cbn; [reflexivity|exact IH].
Qed.

Lemma layout_unsigned (ds : list ascii) (n : Z) :
  forallb is_digit ds = true -> unsigned (layout ds n) = true.
Proof.
  intros H. unfold layout.
  destruct (_ && _).
  { apply digits_unsigned; [exact H|]. intros _.
    pose proof (zeros_digits (n - Z.of_nat (List.length ds))) as Hz.
    rewrite <- (app_nil_r (zeros _)). apply digits_unsigned; auto. }
  destruct (_ && _).
  { apply digits_unsigned; [apply forallb_firstn, H|reflexivity]. }
  destruct (_ && _); [reflexivity|].
  destruct ds as [|d [|d' ds]]; [reflexivity| |].
  - cbn in H. apply andb_true_iff in H as [Hd _]. cbn [unsigned].
    rewrite (is_digit_ascii d Hd), (is_digit_not_space d Hd),
      (is_digit_not d "-" Hd eq_refl). reflexivity.
  - cbn in H. apply andb_true_iff in H as [Hd _]. cbn [unsigned].
    rewrite (is_digit_ascii d Hd), (is_digit_not_space d Hd),
      (is_digit_not d "-" Hd eq_refl). reflexivity.
Qed.

Lemma toFixed_unsigned (x : number) (f : Z) :
  leb zero x = true -> unsigned (list_ascii_of_string (toFixed x f)) = true.
Proof.
  destruct x as [s|[]| |[] m e]; try discriminate; intros _.
  - cbn [toFixed]. rewrite list_ascii_of_string_of_list_ascii. reflexivity.
  - reflexivity.
  - unfold toFixed. destruct (huge m e).
    + cbn [toString]. rewrite list_ascii_of_string_of_list_ascii. cbn [app].
      unfold toString_pos. destruct (ratio m e) as [num den].
      destruct (shortest _ _ _ _ _ _) as [sg e10].
      apply layout_unsigned, strip_digits, NameFacts.decimal_aux_all_digits. reflexivity.
    + destruct (ratio m e) as [num den].
      rewrite list_ascii_of_string_of_list_ascii. cbn [app].
      apply digits_unsigned; [|intros _; destruct (f =? 0); reflexivity].
      apply forallb_firstn. rewrite forallb_app, zeros_digits.
      apply NameFacts.decimal_aux_all_digits. reflexivity.
Qed.

Lemma not_negative_leb (x : number) :
  not_negative x = true -> isNaN x = false -> leb zero x = true.
Proof. destruct x as [s|[]| |[] m e]; try discriminate; reflexivity. Qed.

End ParseFacts.

Import Double ParseFacts.

(** X20: how a typed time is read.  A text with one or two colons is read
    as minutes and seconds, or hours, minutes and seconds, and is no
    number as soon as one of its parts is none: the change is then
    dropped and the range stays as it is.  Any other text, without a colon
    or with three and more, is read by its leading number alone, and as 0
    when it has none: it is never dropped. *)
Theorem typed_time_reading (value : string) (which : Clipper.Handle) (r : Clipper.Range) :
  (List.length (Str.split ":" value) <> 2%nat ->
   List.length (Str.split ":" value) <> 3%nat ->
   Clipper.parseTime value = or_else (parseFloat (Some value)) zero
   /\ isNaN (Clipper.parseTime value) = false)
  /\ (forall m s, Str.split ":" value = [m; s] ->
        isNaN (parseFloat (Some m)) = true \/ isNaN (parseFloat (Some s)) = true ->
        isNaN (Clipper.parseTime value) = true
        /\ Clipper.onTimeInputChange which value r = r)
  /\ (forall h m s, Str.split ":" value = [h; m; s] ->
        isNaN (parseFloat (Some h)) = true \/ isNaN (parseFloat (Some m)) = true
        \/ isNaN (parseFloat (Some s)) = true ->
        isNaN (Clipper.parseTime value) = true
        /\ Clipper.onTimeInputChange which value r = r).
Proof.
  split; [|split].
  - intros H2 H3. rewrite (parseTime_other value H2 H3).
    split; [reflexivity|apply or_else_zero_not_NaN].
  - intros m s Hsplit Hn.
    assert (H : Clipper.parseTime value = NaN).
    { unfold Clipper.parseTime. rewrite Hsplit. cbn [map].
      destruct Hn as [Hn|Hn]; apply isNaN_eq in Hn; rewrite Hn;
        repeat first [reflexivity | rewrite mul_NaN_l | rewrite add_NaN_l
                     | rewrite add_NaN_r]. }
    unfold Clipper.onTimeInputChange. rewrite H. split; reflexivity.
  - intros h m s Hsplit Hn.
    assert (H : Clipper.parseTime value = NaN).
    { unfold Clipper.parseTime. rewrite Hsplit. cbn [map].
      destruct Hn as [Hn|[Hn|Hn]]; apply isNaN_eq in Hn; rewrite Hn;
        repeat first [reflexivity | rewrite mul_NaN_l | rewrite add_NaN_l
                     | rewrite add_NaN_r]. }
    unfold Clipper.onTimeInputChange. rewrite H. split; reflexivity.
Qed.

Lemma typed_time_reading_witness :
  Clipper.parseTime "1:2:3:4" = of_Z 1
  /\ Clipper.parseTime "abc" = zero
  /\ isNaN (Clipper.parseTime "1:xx") = true.
Proof.
  destruct (typed_time_reading "1:2:3:4" Clipper.Start (Clipper.onVideoLoaded (of_Z 90)))
    as [H4 _].
  destruct (typed_time_reading "abc" Clipper.Start (Clipper.onVideoLoaded (of_Z 90)))
    as [H1 _].
  destruct (typed_time_reading "1:xx" Clipper.Start (Clipper.onVideoLoaded (of_Z 90)))
    as (_ & H2 & _).
  split; [|split].
  - rewrite (proj1 (H4 ltac:(discriminate) ltac:(discriminate))). reflexivity.
  - rewrite (proj1 (H1 ltac:(discriminate) ltac:(discriminate))). reflexivity.
  - exact (proj1 (H2 "1" "xx" eq_refl (or_intror eq_refl))).
Defined.

(** X21: what the clip tab sends is not read as a negative offset.  The
    form carries the offsets with three decimals; when the start of the
    range is not negative, the start the server computes from the form is
    not negative either, and the end it computes from an end that is not
    negative is not negative or is no number (which the server refuses).
    With the bounds of the range, requests made by dragging the handles
    reach the transcoder with a start that is not negative. *)
Theorem clipper_sends_no_negative_offset (file format : string) (r : Clipper.Range) :
  leb zero (Clipper.startTime r) = true ->
  leb zero (clip_start (createClip file format r)) = true
  /\ (leb zero (Clipper.endTime r) = true ->
      isNaN (clip_end (createClip file format r)) = true
      \/ leb zero (clip_end (createClip file format r)) = true).
Proof.
  intros Hs. split.
  - unfold clip_start, createClip. cbn [startTime parseFloat].
    pose proof (parseFloat_unsigned _ (toFixed_unsigned _ 3 Hs)) as H.
    unfold or_else. destruct (truthy _) eqn:Ht; [|reflexivity].
    apply not_negative_leb; [exact H|].
    destruct (parseFloat_chars _); try discriminate; reflexivity.
  - intros He. unfold clip_end, createClip. cbn [endTime parseFloat].
    pose proof (parseFloat_unsigned _ (toFixed_unsigned _ 3 He)) as H.
    destruct (isNaN (parseFloat_chars _)) eqn:Hn; [left; reflexivity|].
    right. apply not_negative_leb; assumption.
Qed.

Lemma clipper_sends_no_negative_offset_witness :
  startTime (createClip "movie.avi" "mp4"
               (Clipper.onDrag Clipper.Start (of_Z (-40)) (of_Z 10) (of_Z 200)
                  (Clipper.onVideoLoaded (of_Z 90)))) = Some "0.000"
  /\ leb zero (clip_start
                 (createClip "movie.avi" "mp4"
                    (Clipper.onDrag Clipper.Start (of_Z (-40)) (of_Z 10) (of_Z 200)
                       (Clipper.onVideoLoaded (of_Z 90))))) = true.
Proof.
  split; [reflexivity|].
  exact (proj1 (clipper_sends_no_negative_offset "movie.avi" "mp4"
                  (Clipper.onDrag Clipper.Start (of_Z (-40)) (of_Z 10) (of_Z 200)
                     (Clipper.onVideoLoaded (of_Z 90))) eq_refl)).
Defined.

(** ** File names and subtitle times *)

Module SplitFacts.

Lemma split_chars_sep (sep : ascii) (a rest cur : list ascii) :
  forallb (fun c => negb (Ascii.eqb c sep)) a = true ->
  Str.split_chars sep (a ++ sep :: rest) cur
  = (rev cur ++ a) :: Str.split_chars sep rest [].
Proof.
  revert cur. induction a as [|c a IH]; intros cur H; cbn.
  - rewrite Ascii.eqb_refl, app_nil_r. reflexivity.
  - cbn in H. apply andb_true_iff in H as [Hc Ha].
    apply negb_true_iff in Hc. rewrite Hc, (IH _ Ha). cbn.
    rewrite <- app_assoc. reflexivity.
Qed.

(** The last part of a split: the whole text when it holds no separator,
    what follows the last separator otherwise. *)
Lemma split_chars_last (sep : ascii) (l : list ascii) : forall cur,
  exists seg,
    List.last (Str.split_chars sep l cur) [] = seg
    /\ ((seg = rev cur ++ l /\ ~ In sep l)
        \/ (exists front, l = front ++ sep :: seg)).
Proof.
  induction l as [|c l IH]; intros cur; cbn [Str.split_chars].
  - exists (rev cur). split; [reflexivity|]. left. rewrite app_nil_r. auto.
  - destruct (Ascii.eqb_spec c sep) as [->|Hc].
    + destruct (IH []) as (seg & Hl & Hcase). exists seg. split.
      * destruct (Str.split_chars sep l []) eqn:E; [|exact Hl].
        exfalso. destruct l; cbn in E; [discriminate|].
        destruct (Ascii.eqb a sep); [discriminate|].
        clear -E. revert E. generalize [a]. induction l as [|x l IHl]; intros acc E;
          cbn in E; [discriminate|].
        destruct (Ascii.eqb x sep); [discriminate|]. exact (IHl _ E).
      * right. destruct Hcase as [[-> _]|(front & ->)].
        -- exists []. reflexivity.
        -- exists (sep :: front). reflexivity.
    + destruct (IH (c :: cur)) as (seg & Hl & Hcase). exists seg. split; [exact Hl|].
      destruct Hcase as [[-> Hn]|(front & ->)].
      * left. split.
        -- cbn. rewrite <- app_assoc. reflexivity.
        -- intros [E|Hin]; [congruence|contradiction].
      * right. exists (c :: front). reflexivity.
Qed.

Lemma prefix_fold_lower (l p s : list ascii) :
  Player.prefix_fold (map Player.lower_char l ++ p) (l ++ s) = Player.prefix_fold p s.
Proof.
  induction l as [|c l IH]; cbn; [reflexivity|].
  rewrite Ascii.eqb_refl. exact IH.
Qed.

End SplitFacts.

Import SplitFacts.

(** X22: the filter of the file picker lets through, by its name alone,
    every file the player marks as natively playable or as audio,
    provided the name holds a dot: the two lists are judged by the text
    after the last dot, letter case ignored, and each extension in them is
    among those of the filter.  Without a dot the name itself is judged:
    a file called [mp4] counts as native and does not pass by its name. *)
Theorem playable_names_pass_filter (f : Player.MediaFile) :
  In "."%char (list_ascii_of_string (Player.name f)) ->
  Player.isNativeFormat (Player.name f) = true
  \/ Player.isAudioFile (Player.name f) = true ->
  Player.has_media_extension (Player.name f) = true
  /\ Player.is_media f = true
  /\ Player.isNativeFormat "mp4" = true
  /\ Player.has_media_extension "mp4" = false.
Proof.
  intros Hdot Hflag.
  assert (Hext : Player.has_media_extension (Player.name f) = true).
  { destruct (split_chars_last "." (list_ascii_of_string (Player.name f)) [])
      as (seg & Hlast & Hcase).
    destruct Hcase as [[_ Hn]|(front & Hname)]; [contradiction|].
    assert (Hget : Player.getExtension (Player.name f)
                   = string_of_list_ascii (map Player.lower_char seg)).
    { unfold Player.getExtension, Player.toLowerCase, Str.split.
      rewrite <- Hlast.
      generalize (Str.split_chars "." (list_ascii_of_string (Player.name f)) []).
      intros parts. f_equal. f_equal.
      induction parts as [|a [|b parts] IH]; cbn [map List.last].
      - reflexivity.
      - apply list_ascii_of_string_of_list_ascii.
      - exact IH. }
    assert (Hin : In (string_of_list_ascii (map Player.lower_char seg))
                    Player.media_extensions).
    { unfold Player.isNativeFormat, Player.isAudioFile, Player.includes in Hflag.
      rewrite Hget in Hflag.
      destruct Hflag as [H|H]; apply existsb_exists in H as (x & Hx & He);
        apply String.eqb_eq in He; rewrite He;
        cbn in Hx; cbn; intuition auto. }
    unfold Player.has_media_extension. apply existsb_exists.
    exists (string_of_list_ascii (map Player.lower_char seg)). split; [exact Hin|].
    rewrite Hname.
    change (list_ascii_of_string ("." +:+ ?e)) with ("."%char :: list_ascii_of_string e).
    rewrite list_ascii_of_string_of_list_ascii.
    rewrite rev_app_distr. cbn [rev]. rewrite <- map_rev, <- !app_assoc. cbn [app].
    rewrite prefix_fold_lower. reflexivity. }
  split; [exact Hext|]. split; [|split; reflexivity].
  unfold Player.is_media. rewrite Hext. apply orb_true_r.
Qed.

Lemma playable_names_pass_filter_witness :
  Player.is_media {| Player.name := "Concert.Live.FLAC"; Player.size := 1;
                     Player.type := "" |} = true.
Proof.
  apply (playable_names_pass_filter
           {| Player.name := "Concert.Live.FLAC"; Player.size := 1; Player.type := "" |}).
  - cbn. auto 10.
  - right. reflexivity.
Defined.

Module AssFacts.
Import Subtitles Chars.

Lemma digits_no_colon (l : list ascii) :
  forallb is_digit l = true -> forallb (fun c => negb (Ascii.eqb c ":")) l = true.
Proof. apply digits_no_sep. reflexivity. Qed.

Lemma digits_no_point (l : list ascii) :
  forallb is_digit l = true -> forallb (fun c => negb (Ascii.eqb c ".")) l = true.
Proof. apply digits_no_sep. reflexivity. Qed.

Lemma padStart_two (l : list ascii) :
  forallb is_digit l = true -> (List.length l <= 2)%nat ->
  exists a b, padStart 2 l = [a; b] /\ is_digit a = true /\ is_digit b = true.
Proof.
  intros Hd Hl. destruct l as [|a [|b [|c l]]]; cbn in *; try lia.
  - exists "0"%char, "0"%char. auto.
  - exists "0"%char, a. rewrite andb_true_r in Hd. auto.
  - exists a, b. apply andb_true_iff in Hd as [Ha Hb]. rewrite andb_true_r in Hb. auto.
Qed.

Lemma fraction_three (c : list ascii) :
  forallb is_digit c = true ->
  exists x y z,
    firstn 3 (padEnd 3 match c with a :: r => a :: r | [] => ["0"%char] end) = [x; y; z]
    /\ is_digit x = true /\ is_digit y = true /\ is_digit z = true.
Proof.
  intros Hd. destruct c as [|a [|b [|d l]]]; cbn in *.
  - exists "0"%char, "0"%char, "0"%char. auto.
  - exists a, "0"%char, "0"%char. rewrite andb_true_r in Hd. auto.
  - exists a, b, "0"%char. apply andb_true_iff in Hd as [Ha Hb].
    rewrite andb_true_r in Hb. auto.
  - exists a, b, d. apply andb_true_iff in Hd as [Ha Hd].
    apply andb_true_iff in Hd as [Hb Hd]. apply andb_true_iff in Hd as [Hd _]. auto.
Qed.

End AssFacts.

(** X23: an ASS time becomes a WebVTT time.  For hours, minutes and seconds
    of at most two digits each and a fraction of any number of digits
    (hundredths in ASS; the fraction and its point may be missing), the
    result is [HH:MM:SS.mmm]: each part padded with zeros in front, the
    fraction padded behind or cut to three digits.  A time with another
    number of colon-separated parts is returned as it is. *)
Theorem formatAssTime_gives_vtt_time (h m s c : list ascii) (point : bool) :
  forallb Chars.is_digit h = true -> forallb Chars.is_digit m = true ->
  forallb Chars.is_digit s = true -> forallb Chars.is_digit c = true ->
  (List.length h <= 2)%nat -> (List.length m <= 2)%nat -> (List.length s <= 2)%nat ->
  (point = false -> c = []) ->
  let time := string_of_list_ascii
                (h ++ ":"%char :: m ++ ":"%char :: s
                   ++ (if point then "."%char :: c else [])) in
  Subtitles.is_vtt_time (Subtitles.formatAssTime time) = true
  /\ Subtitles.formatAssTime time
     = string_of_list_ascii
         (Subtitles.padStart 2 h ++ ":"%char :: Subtitles.padStart 2 m ++ ":"%char ::
          Subtitles.padStart 2 s ++ "."%char ::
          firstn 3 (Subtitles.padEnd 3 match c with a :: r => a :: r | [] => ["0"%char] end))
  /\ (forall other,
        List.length (Str.split_chars ":" (list_ascii_of_string other) []) <> 3%nat ->
        Subtitles.formatAssTime other = other).
Proof.
  intros Hh Hm Hs Hc Lh Lm Ls Hpoint time.
  assert (Hsplit : Str.split_chars ":" (list_ascii_of_string time) []
                   = [h; m; s ++ (if point then "."%char :: c else [])]).
  { unfold time. rewrite list_ascii_of_string_of_list_ascii.
    rewrite split_chars_sep by (apply AssFacts.digits_no_colon, Hh).
    rewrite split_chars_sep by (apply AssFacts.digits_no_colon, Hm).
    rewrite split_chars_no_sep; [reflexivity|].
    rewrite forallb_app, (AssFacts.digits_no_colon _ Hs).
    destruct point; [|reflexivity]. cbn. apply AssFacts.digits_no_colon, Hc. }
  assert (Hfrac : Str.split_chars "." (s ++ (if point then "."%char :: c else [])) []
                  = if point then [s; c] else [s]).
  { destruct point.
    - rewrite split_chars_sep by (apply AssFacts.digits_no_point, Hs).
      rewrite split_chars_no_sep by (apply AssFacts.digits_no_point, Hc). reflexivity.
    - rewrite app_nil_r. apply split_chars_no_sep, AssFacts.digits_no_point, Hs. }
  assert (Hout : Subtitles.formatAssTime time
     = string_of_list_ascii
         (Subtitles.padStart 2 h ++ ":"%char :: Subtitles.padStart 2 m ++ ":"%char ::
          Subtitles.padStart 2 s ++ "."%char ::
          firstn 3 (Subtitles.padEnd 3 match c with a :: r => a :: r | [] => ["0"%char] end))).
  { unfold Subtitles.formatAssTime. rewrite Hsplit. cbv zeta. rewrite Hfrac.
    destruct point.
    - reflexivity.
    - rewrite (Hpoint eq_refl). reflexivity. }
  split; [|split; [exact Hout|]].
  - rewrite Hout. unfold Subtitles.is_vtt_time.
    rewrite list_ascii_of_string_of_list_ascii.
    destruct (AssFacts.padStart_two h Hh Lh) as (h1 & h2 & -> & Hh1 & Hh2).
    destruct (AssFacts.padStart_two m Hm Lm) as (m1 & m2 & -> & Hm1 & Hm2).
    destruct (AssFacts.padStart_two s Hs Ls) as (s1 & s2 & -> & Hs1 & Hs2).
    destruct (AssFacts.fraction_three c Hc) as (x & y & z & -> & Hx & Hy & Hz).
    cbn. rewrite Hh1, Hh2, Hm1, Hm2, Hs1, Hs2, Hx, Hy, Hz. reflexivity.
  - intros other Hlen. unfold Subtitles.formatAssTime.
    destruct (Str.split_chars ":" (list_ascii_of_string other) [])
      as [|p0 [|p1 [|p2 [|p3 l]]]]; try reflexivity.
    cbn in Hlen. contradiction.
Qed.

Lemma formatAssTime_gives_vtt_time_witness :
  Subtitles.formatAssTime "0:01:23.45" = "00:01:23.450"
  /\ Subtitles.formatAssTime "1:02:03" = "01:02:03.000"
  /\ Subtitles.formatAssTime "01:02:03.4567" = "01:02:03.456".
Proof.
  split; [|split].
  - exact (proj1 (proj2 (formatAssTime_gives_vtt_time
             ["0"] ["0"; "1"] ["2"; "3"] ["4"; "5"] true
             eq_refl eq_refl eq_refl eq_refl
             ltac:(cbn; lia) ltac:(cbn; lia) ltac:(cbn; lia)
             ltac:(discriminate))))%char.
  - exact (proj1 (proj2 (formatAssTime_gives_vtt_time
             ["1"] ["0"; "2"] ["0"; "3"] [] false
             eq_refl eq_refl eq_refl eq_refl
             ltac:(cbn; lia) ltac:(cbn; lia) ltac:(cbn; lia)
             ltac:(reflexivity))))%char.
  - exact (proj1 (proj2 (formatAssTime_gives_vtt_time
             ["0"; "1"] ["0"; "2"] ["0"; "3"] ["4"; "5"; "6"; "7"] true
             eq_refl eq_refl eq_refl eq_refl
             ltac:(cbn; lia) ltac:(cbn; lia) ltac:(cbn; lia)
             ltac:(discriminate))))%char.
Defined.
